(** * Verification of the mindenu backend: token store, pending actions,
    the chat confirmation engine and the Gmail raw encoding.

    JavaScript values are modelled by [jval]; objects are association
    lists (first binding wins on lookup, assignment replaces in place or
    appends, as a JS object keeps insertion order).  A JavaScript string is
    represented by its UTF-8 bytes, one [ascii] per byte. *)

From stdpp Require Import base gmap strings pretty.
From Stdlib Require Import ZArith Lia Ascii String List.
Import ListNotations.

Set Warnings "-register-all".
Open Scope string_scope.

(* ------------------------------------------------------------------ *)
(** ** JavaScript values *)

Inductive jval : Type :=
| JNull
| JBool (b : bool)
| JNum (z : Z)
| JStr (s : string)
| JArr (l : list jval)
| JObj (fs : list (string * jval)).

Fixpoint obj_get (fs : list (string * jval)) (k : string) : option jval :=
  match fs with
  | [] => None
  | (k', v) :: rest => if String.eqb k' k then Some v else obj_get rest k
  end.

Fixpoint obj_set (fs : list (string * jval)) (k : string) (v : jval)
  : list (string * jval) :=
  match fs with
  | [] => [(k, v)]
  | (k', v') :: rest =>
      if String.eqb k' k then (k', v) :: rest else (k', v') :: obj_set rest k v
  end.

(** [delete o[k]] *)
Definition obj_delete (fs : list (string * jval)) (k : string) : list (string * jval) :=
  filter (fun kv => negb (String.eqb (fst kv) k)) fs.

(** [o?.k] / [o.k]: a property read; [None] is [undefined]. *)
Definition get (o : option jval) (k : string) : option jval :=
  match o with
  | Some (JObj fs) => obj_get fs k
  | _ => None
  end.

(** JavaScript truthiness (numbers are integers here, so no NaN). *)
Definition truthy (v : option jval) : bool :=
  match v with
  | None | Some JNull => false
  | Some (JBool b) => b
  | Some (JNum z) => negb (Z.eqb z 0)
  | Some (JStr s) => negb (String.eqb s "")
  | Some (JArr _) | Some (JObj _) => true
  end.

(** [a || b] *)
Definition js_or (a b : option jval) : option jval :=
  if truthy a then a else b.

(** [v === "s"] *)
Definition is_str (v : option jval) (s : string) : bool :=
  match v with
  | Some (JStr t) => String.eqb t s
  | _ => false
  end.

Fixpoint join (sep : string) (l : list string) : string :=
  match l with
  | [] => ""
  | [x] => x
  | x :: rest => x ++ sep ++ join sep rest
  end.

(** [String(v)], and template-literal interpolation [${v}]. *)
Fixpoint js_String (v : jval) : string :=
  match v with
  | JNull => "null"
  | JBool true => "true"
  | JBool false => "false"
  | JNum z => pretty z
  | JStr s => s
  | JArr l =>
      join "," (map (fun x => match x with JNull => "" | _ => js_String x end) l)
  | JObj _ => "[object Object]"
  end.

Definition js_String_opt (v : option jval) : string :=
  match v with
  | None => "undefined"
  | Some x => js_String x
  end.

(** Outcome of a call that may throw. *)
Inductive res (A : Type) : Type :=
| Ok (a : A)
| Throw (msg : string).
Arguments Ok {A} a.
Arguments Throw {A} msg.

Definition res_bind {A B} (m : res A) (k : A -> res B) : res B :=
  match m with
  | Ok a => k a
  | Throw e => Throw e
  end.

Notation "'let*' x := m 'in' k" := (res_bind m (fun x => k))
  (at level 200, x name, m at level 100, k at level 200).

(* ------------------------------------------------------------------ *)
(** ** String functions used by the handlers *)

Definition nl : string := String "010" EmptyString.
Definition crlf : string := String "013" (String "010" EmptyString).
Definition dq : string := String "034" EmptyString.

Fixpoint drop_while {A} (p : A -> bool) (l : list A) : list A :=
  match l with
  | [] => []
  | x :: rest => if p x then drop_while p rest else l
  end.

(** drop the maximal run of trailing characters satisfying [p] *)
Definition strip_end (p : ascii -> bool) (s : string) : string :=
  string_of_list_ascii (rev (drop_while p (rev (list_ascii_of_string s)))).

(** [strip_end] on the character list *)
Definition rstrip (p : ascii -> bool) (l : list ascii) : list ascii := rev (drop_while p (rev l)).

(** UTF-8 encoding of a code point *)
Definition utf8 (cp : N) : list ascii :=
  if (cp <? 128)%N then [ascii_of_N cp]
  else if (cp <? 2048)%N then
    [ascii_of_N (192 + cp / 64); ascii_of_N (128 + cp mod 64)]%N
  else if (cp <? 65536)%N then
    [ascii_of_N (224 + cp / 4096); ascii_of_N (128 + (cp / 64) mod 64);
     ascii_of_N (128 + cp mod 64)]%N
  else
    [ascii_of_N (240 + cp / 262144); ascii_of_N (128 + (cp / 4096) mod 64);
     ascii_of_N (128 + (cp / 64) mod 64); ascii_of_N (128 + cp mod 64)]%N.

(** The characters [String.prototype.trim] removes: WhiteSpace and
    LineTerminator of ECMA-262 (TAB, LF, VT, FF, CR, SPACE, NBSP, U+1680,
    U+2000-200A, LS, PS, U+202F, U+205F, U+3000, BOM). *)
Definition js_ws_code_points : list N :=
  [9; 10; 11; 12; 13; 32; 160; 5760;
   8192; 8193; 8194; 8195; 8196; 8197; 8198; 8199; 8200; 8201; 8202;
   8232; 8233; 8239; 8287; 12288; 65279]%N.

(** [bs] is the encoding of one whitespace character *)
Definition is_js_ws (bs : list ascii) : bool :=
  existsb (fun cp => if list_eq_dec ascii_dec (utf8 cp) bs then true else false)
          js_ws_code_points.

(** Drop from the front of [l] the characters recognised by their one-,
    two- or three-byte encodings ([w1], [w2], [w3]), one character at a
    time, as long as there is one. *)
Fixpoint strip_ws (w1 : ascii -> bool) (w2 : ascii -> ascii -> bool)
         (w3 : ascii -> ascii -> ascii -> bool) (l : list ascii) : list ascii :=
  match l with
  | [] => []
  | a :: l1 =>
      if w1 a then strip_ws w1 w2 w3 l1 else
      match l1 with
      | [] => l
      | b :: l2 =>
          if w2 a b then strip_ws w1 w2 w3 l2 else
          match l2 with
          | [] => l
          | c :: l3 => if w3 a b c then strip_ws w1 w2 w3 l3 else l
          end
      end
  end.

Definition ws1 (a : ascii) : bool := is_js_ws [a].
Definition ws2 (a b : ascii) : bool := is_js_ws [a; b].
Definition ws3 (a b c : ascii) : bool := is_js_ws [a; b; c].
(** the same tests on reversed bytes *)
Definition ws2_rev (b a : ascii) : bool := ws2 a b.
Definition ws3_rev (c b a : ascii) : bool := ws3 a b c.

(** leading whitespace; every whitespace character has at most three bytes *)
Definition trim_start (l : list ascii) : list ascii := strip_ws ws1 ws2 ws3 l.

(** trailing whitespace: [strip_ws] on the reversed bytes *)
Definition trim_end (l : list ascii) : list ascii :=
  rev (strip_ws ws1 ws2_rev ws3_rev (rev l)).

(** [s.trim()] *)
Definition trim (s : string) : string :=
  string_of_list_ascii (trim_end (trim_start (list_ascii_of_string s))).

Definition lower_char (c : ascii) : ascii :=
  let n := nat_of_ascii c in
  if Nat.leb 65 n && Nat.leb n 90 then ascii_of_nat (n + 32) else c.

(** [s.toLowerCase()] on ASCII letters.  The handlers only compare its
    result with ASCII phrases without a "k" ("send it", "create",
    "delete it", ...); the one non-ASCII character whose lower case is
    ASCII is KELVIN SIGN (to "k"), so for these comparisons leaving the
    other bytes as they are decides as the full Unicode mapping does. *)
Definition toLowerCase (s : string) : string :=
  string_of_list_ascii (map lower_char (list_ascii_of_string s)).

Definition is_end_punct (c : ascii) : bool :=
  match nat_of_ascii c with
  | 33 | 46 | 63 => true   (* ! . ? *)
  | _ => false
  end.

(* ------------------------------------------------------------------ *)
(** ** Firestore documents

    The store maps a document path (its segments) to the document data,
    always an object.  [ref.set(data, { merge: true })] writes the fields
    of the document mask of [data], whose leaves are the values that are
    not objects and the empty objects.  So a field whose new value is a
    non-empty object is merged recursively into an existing object field,
    and any other value, an empty object included, replaces the old one.
    An empty [data] has no field in its mask and leaves the document as
    it is. *)

Fixpoint merge_val (old new : jval) {struct new} : jval :=
  match new with
  | JObj [] => new
  | JObj nfs =>
      match old with
      | JObj ofs =>
          JObj ((fix go (acc nfs : list (string * jval)) : list (string * jval) :=
                   match nfs with
                   | [] => acc
                   | (k, v) :: rest =>
                       go (obj_set acc k
                             (match obj_get acc k with
                              | Some o => merge_val o v
                              | None => v
                              end)) rest
                   end) ofs nfs)
      | _ => new
      end
  | _ => new
  end.

(** the field-by-field merge of [merge_val] below an object *)
Fixpoint merge_fields (acc nfs : list (string * jval)) : list (string * jval) :=
  match nfs with
  | [] => acc
  | (k, v) :: rest =>
      merge_fields (obj_set acc k
                      (match obj_get acc k with
                       | Some o => merge_val o v
                       | None => v
                       end)) rest
  end.

(** the stored document after a merge of [data] into [old] *)
Definition merge_doc (old data : jval) : jval :=
  match old, data with
  | JObj ofs, JObj nfs => JObj (merge_fields ofs nfs)
  | _, _ => data
  end.

(** every object key, at any depth, is non-empty: the serializer builds
    [new FieldPath(key)] for each one, which rejects an empty string *)
Fixpoint fields_ok (v : jval) : bool :=
  match v with
  | JArr l => forallb fields_ok l
  | JObj fs => forallb (fun kv => let '(k, x) := kv in negb (String.eqb k "") && fields_ok x) fs
  | _ => true
  end.

(** [path.split("/")] *)
Fixpoint split_slash (s : string) : list string :=
  match s with
  | EmptyString => [""]
  | String c rest =>
      let ws := split_slash rest in
      if Ascii.eqb c "/" then "" :: ws
      else match ws with
           | w :: ws' => String c w :: ws'
           | [] => [String c ""]
           end
  end.

Fixpoint has_double_slash (s : string) : bool :=
  match s with
  | String a ((String b _) as rest) =>
      (Ascii.eqb a "/" && Ascii.eqb b "/") || has_double_slash rest
  | _ => false
  end.

Module Firestore.
Definition db := gmap (list string) jval.

(** the segments of a resource path: [split("/")] without the empty ones *)
Definition segments (path : string) : list string :=
  filter (fun w => negb (String.eqb w "")) (split_slash path).

Definition invalid_resource_path (arg why : string) : string :=
  "Value for argument " ++ dq ++ arg ++ dq ++ " is not a valid resource path. " ++ why.

(** [validateResourcePath(arg, path)] *)
Definition validateResourcePath (arg path : string) : res unit :=
  if String.eqb path "" then
    Throw (invalid_resource_path arg "Path must be a non-empty string.")
  else if has_double_slash path then
    Throw (invalid_resource_path arg "Paths must not contain //.")
  else Ok tt.

(** [collection(collectionPath)] below the document at [base]
    ([[]]: the database itself) *)
Definition collection (base : list string) (collectionPath : string) : res (list string) :=
  let* _ := validateResourcePath "collectionPath" collectionPath in
  let p := app base (segments collectionPath) in
  if Nat.odd (length p) then Ok p
  else Throw ("Value for argument " ++ dq ++ "collectionPath" ++ dq ++
              " must point to a collection, but was " ++ dq ++ collectionPath ++ dq ++
              ". Your path does not contain an odd number of components.").

(** [doc(documentPath)] of the collection at [base] *)
Definition doc (base : list string) (documentPath : string) : res (list string) :=
  let* _ := validateResourcePath "documentPath" documentPath in
  let p := app base (segments documentPath) in
  if Nat.even (length p) then Ok p
  else Throw ("Value for argument " ++ dq ++ "documentPath" ++ dq ++
              " must point to a document, but was " ++ dq ++ documentPath ++ dq ++
              ". Your path does not contain an even number of components.").

(** A document id that [doc()] keeps as one segment and the server
    accepts: non-empty, without "/", not "." or "..", not of the reserved
    form "__.*__", at most 1500 bytes.  The server's rejection of the
    other ids is not modelled; theorems about arbitrary ids assume it. *)
Definition valid_id (s : string) : bool :=
  negb (String.eqb s "") &&
  negb (existsb (fun c => Ascii.eqb c "/") (list_ascii_of_string s)) &&
  negb (String.eqb s ".") && negb (String.eqb s "..") &&
  negb (Nat.leb 4 (String.length s) && String.prefix "__" s &&
        String.prefix "__" (string_of_list_ascii (rev (list_ascii_of_string s)))) &&
  Nat.leb (String.length s) 1500.

Definition doc_get (d : db) (path : list string) : option jval := d !! path.

Definition not_plain_object : string :=
  "Value for argument " ++ dq ++ "data" ++ dq ++
  " is not a valid Firestore document. Input is not a plain JavaScript object.".

(** [ref.set(data, { merge: true })].  The server's size limits are not
    modelled. *)
Definition set_merge (d : db) (path : list string) (data : jval) : res db :=
  match data with
  | JObj _ =>
      if fields_ok data then
        Ok (match d !! path with
            | Some old => <[path := merge_doc old data]> d
            | None => <[path := data]> d
            end)
      else Throw "Element at index 0 should not be an empty string."
  | _ => Throw not_plain_object
  end.

Definition doc_delete (d : db) (path : list string) : db := delete path d.
End Firestore.

(** *** src/tokenStore.js (Firestore, one document per provider) *)
Module TokenStore.
Import Firestore.

(** [db.collection("users").doc(uid).collection("tokens").doc(provider)] *)
Definition tokensRef (uid provider : string) : res (list string) :=
  let* users := collection [] "users" in
  let* u := doc users uid in
  let* t := collection u "tokens" in
  doc t provider.

(** [db.collection("users").doc(uid).collection("pending").doc("action")] *)
Definition pendingRef (uid : string) : res (list string) :=
  let* users := collection [] "users" in
  let* u := doc users uid in
  let* pc := collection u "pending" in
  doc pc "action".

Definition getUserProviderTokens (d : db) (uid provider : string) : res jval :=
  let* p := tokensRef uid provider in
  match doc_get d p with
  | None => Throw ("No tokens found for provider=" ++ provider)
  | Some data => Ok data
  end.

Definition setUserProviderTokens (d : db) (uid provider : string) (tokens : jval) : res db :=
  let* p := tokensRef uid provider in set_merge d p tokens.

(** [snap.exists ? snap.data() : null]; [None] is [null] *)
Definition getPendingAction (d : db) (uid : string) : res (option jval) :=
  let* p := pendingRef uid in Ok (doc_get d p).

Definition setPendingAction (d : db) (uid : string) (action : jval) : res db :=
  let* p := pendingRef uid in set_merge d p action.

(** an error of [delete()] is swallowed by [.catch(() => {})]; one of
    [pendingRef(uid)] is thrown before it *)
Definition clearPendingAction (d : db) (uid : string) : res db :=
  let* p := pendingRef uid in Ok (doc_delete d p).
End TokenStore.

(** *** The user-document token store of src/firebaseAdmin.js
    (imported as ./tokenStore.js by the v7 server of part_014) *)
Module UserStore.
Import Firestore.

Definition userDoc (uid : string) : res (list string) :=
  if String.eqb uid "" then Throw "Missing uid"
  else let* users := collection [] "users" in doc users uid.

Definition getUser (d : db) (uid : string) : res (option jval) :=
  let* p := userDoc uid in Ok (doc_get d p).

Definition setUser (d : db) (uid : string) (data : jval) : res db :=
  let* p := userDoc uid in set_merge d p data.

(** [user?.tokens?.[provider] || null]; [None] is [null] *)
Definition getProviderTokens (d : db) (uid provider : string) : res (option jval) :=
  let* user := getUser d uid in
  match user with
  | None => Ok None
  | Some u =>
      let t := get (get (Some u) "tokens") provider in
      Ok (if truthy t then t else None)
  end.

Definition setProviderTokens (d : db) (uid provider : string) (tokens : jval)
           (now : Z) : res db :=
  setUser d uid (JObj [("tokens", JObj [(provider, tokens)]); ("updatedAt", JNum now)]).

Definition setPendingAction (d : db) (uid : string) (pending : jval) (now : Z) : res db :=
  setUser d uid (JObj [("pendingAction", if truthy (Some pending) then pending else JNull);
                       ("pendingUpdatedAt", JNum now)]).

Definition getPendingAction (d : db) (uid : string) : res (option jval) :=
  let* user := getUser d uid in
  let p := get user "pendingAction" in
  Ok (if truthy p then p else None).

Definition clearPendingAction (d : db) (uid : string) (now : Z) : res db :=
  setPendingAction d uid JNull now.

(** [delete tokens[provider]] on [user?.tokens || {}], written back with
    [setUser] (a merge) *)
Definition clearProviderTokens (d : db) (uid provider : string) (now : Z) : res db :=
  let* user := getUser d uid in
  let tokens := match js_or (get user "tokens") (Some (JObj [])) with
                | Some (JObj fs) => JObj (obj_delete fs provider)
                | Some v => v
                | None => JObj []
                end in
  setUser d uid (JObj [("tokens", tokens); ("updatedAt", JNum now)]).
End UserStore.

(** *** The in-memory token store of part_004 (imported by src/server.js) *)
Module MemTokens.
Definition store := gmap string jval.

Definition key (uid provider : string) : string := uid ++ ":" ++ provider.

(** [{ ...tokens, updatedAt: Date.now() }]; callers pass an object *)
Definition setProviderTokens (s : store) (uid provider : string) (tokens : jval)
           (now : Z) : store :=
  let fs := match tokens with JObj fs => fs | _ => [] end in
  <[key uid provider := JObj (obj_set fs "updatedAt" (JNum now))]> s.

(** [store.get(key) || null]; [None] is [null] *)
Definition getProviderTokens (s : store) (uid provider : string) : option jval :=
  let v := s !! key uid provider in
  if truthy v then v else None.

Definition clearProviderTokens (s : store) (uid provider : string) : store :=
  delete (key uid provider) s.
End MemTokens.

(* ------------------------------------------------------------------ *)
(** ** Effects and the handler monad

    A request handler reads and writes a state, performs outside calls
    (recorded in order as [effect]s) and may throw; a throw keeps the
    writes and the calls made before it. *)

Record tool := mkTool { tool_name : string; tool_description : string }.

Inductive effect : Type :=
| ECallOpenAI (tools : list tool)
| EFetchCalendar (provider : string)
| EFetchMail (provider : string)
| ESendEmail (provider : string) (auth : option jval) (payload : option jval)
| ECreateEvent (provider : string) (auth : option jval) (payload : option jval)
| EDeleteEvent (provider : string) (auth : option jval) (eventId : option jval).

(** provider mutations: send mail, create event, delete event *)
Definition is_mutation (e : effect) : bool :=
  match e with
  | ESendEmail _ _ _ | ECreateEvent _ _ _ | EDeleteEvent _ _ _ => true
  | _ => false
  end.

Definition is_llm_call (e : effect) : bool :=
  match e with ECallOpenAI _ => true | _ => false end.

Definition M (S A : Type) : Type := S -> S * list effect * res A.

Definition ret {S A} (a : A) : M S A := fun s => (s, [], Ok a).

Definition bind {S A B} (m : M S A) (k : A -> M S B) : M S B :=
  fun s =>
    match m s with
    | (s1, e1, Ok a) => let '(s2, e2, r) := k a s1 in (s2, app e1 e2, r)
    | (s1, e1, Throw msg) => (s1, e1, Throw msg)
    end.

Notation "'let!' x := m 'in' k" := (bind m (fun x => k))
  (at level 200, x name, m at level 100, k at level 200).

Definition throw {S A} (msg : string) : M S A := fun s => (s, [], Throw msg).
Definition get_state {S} : M S S := fun s => (s, [], Ok s).
Definition modify {S} (f : S -> S) : M S unit := fun s => (f s, [], Ok tt).
Definition emit {S} (es : list effect) : M S unit := fun s => (s, es, Ok tt).

(** an awaited provider call: it is made, then resolves or rejects *)
Definition call_adapter {S} (e : effect) (ok : bool) : M S unit :=
  fun s => (s, [e], if ok then Ok tt else Throw "upstream error").

(** [o.k] where [o] may be [null]/[undefined] (a TypeError then) *)
Definition member {S} (o : option jval) (k : string) : M S (option jval) :=
  match o with
  | None | Some JNull => throw ("Cannot read properties of undefined (reading '" ++ k ++ "')")
  | _ => ret (get o k)
  end.

(** [a || "literal"] *)
Definition or_val (a : option jval) (b : jval) : jval :=
  match a with
  | Some v => if truthy a then v else b
  | None => b
  end.

Fixpoint last_opt {A} (l : list A) : option A :=
  match l with
  | [] => None
  | [x] => Some x
  | _ :: rest => last_opt rest
  end.

(* ------------------------------------------------------------------ *)
(** ** src/server.js: POST /v1/chat (v6)

    State of one Node process: the [pendingActions] and [providerCache]
    maps of server.js and the in-memory token store it imports.  A cache
    entry keeps only [ts] and [provider]: the fetched events and mails
    only flow into the prompt text.  The prompt (system message, history,
    selected e-mail) is not modelled: the OpenAI answer is an arbitrary
    [jval] supplied by [env], so every theorem holds for every answer. *)

Record cache_entry := mkCache { c_ts : Z; c_provider : jval }.

Record server_state := mkServer {
  pendingActions : gmap string jval;
  providerCache : gmap string cache_entry;
  tokenStore : MemTokens.store
}.

(** What one request observes from outside: the clock ([Date.now()], read
    once per request), the answer of [callOpenAI] ([None]: it throws),
    whether the awaited provider mutation resolves, and [JSON.parse]
    ([None] where it throws). *)
Record env := mkEnv {
  now : Z;
  openai : option jval;
  adapter_ok : bool;
  json_parse : string -> option jval
}.

Inductive response : Type :=
| RespOk (assistantText : string)
| RespErr (status : Z) (error : string).

Module Server.

Definition PROVIDER_CACHE_MS : Z := 90000.
Definition PENDING_ACTION_TTL_MS : Z := 10 * 60000.

Definition set_pending_map (st : server_state) (pa : gmap string jval) : server_state :=
  mkServer pa (providerCache st) (tokenStore st).
Definition set_cache_map (st : server_state) (pc : gmap string cache_entry) : server_state :=
  mkServer (pendingActions st) pc (tokenStore st).

Definition normalizeCommand (text : string) : string :=
  strip_end is_end_punct (toLowerCase (trim text)).

(** [pendingActions.set(uid, { ts: nowMs(), ...action })] *)
Definition setPending (uid : string) (action : list (string * jval)) (now : Z)
  : M server_state unit :=
  modify (fun st =>
    set_pending_map st
      (<[uid := JObj (fold_left (fun acc kv => obj_set acc (fst kv) (snd kv))
                                action [("ts", JNum now)])]> (pendingActions st))).

Definition getPending (uid : string) (now : Z) : M server_state (option jval) :=
  fun st =>
    let p := pendingActions st !! uid in
    if negb (truthy p) then (st, [], Ok None)
    else match get p "ts" with
         | Some (JNum ts) =>
             if Z.gtb (now - ts) PENDING_ACTION_TTL_MS
             then (set_pending_map st (delete uid (pendingActions st)), [], Ok None)
             else (st, [], Ok p)
         | _ => (st, [], Ok p)   (* NaN > TTL is false *)
         end.

Definition clearPending (uid : string) : M server_state unit :=
  modify (fun st => set_pending_map st (delete uid (pendingActions st))).

(** the [output] walk of [extractAssistantText] *)
Definition output_text_chunks (out : jval) : string :=
  match get (Some out) "output" with
  | Some (JArr items) =>
      let chunks := flat_map (fun item =>
        if is_str (get (Some item) "type") "message"
           && is_str (get (Some item) "role") "assistant" then
          match get (Some item) "content" with
          | Some (JArr cs) =>
              flat_map (fun c =>
                app (if is_str (get (Some c) "type") "output_text" then
                       match get (Some c) "text" with Some (JStr t) => [t] | _ => [] end
                     else [])
                    (if is_str (get (Some c) "type") "refusal" then
                       match get (Some c) "refusal" with Some (JStr t) => [t] | _ => [] end
                     else [])) cs
          | _ => []
          end
        else []) items in
      trim (join nl chunks)
  | _ => ""
  end.

Definition extractAssistantText (out : jval) : string :=
  match get (Some out) "output_text" with
  | Some (JStr s) =>
      if negb (String.eqb (trim s) "") then trim s else output_text_chunks out
  | _ => output_text_chunks out
  end.

(** a function call of the answer: [{ name, arguments }] *)
Definition call := (option jval * option jval)%type.

Definition extractFunctionCalls (out : jval) : list call :=
  match get (Some out) "output" with
  | Some (JArr items) =>
      flat_map (fun item =>
        if is_str (get (Some item) "type") "function_call"
        then [(get (Some item) "name", get (Some item) "arguments")] else []) items
  | _ => []
  end.

(** [None] is [null] *)
Definition parseArgs (json_parse : string -> option jval) (argVal : option jval)
  : option jval :=
  if negb (truthy argVal) then None
  else match argVal with
       | Some (JObj _) | Some (JArr _) => argVal
       | Some (JStr s) => json_parse s
       | _ => None
       end.

Definition toolCallsToFallbackText (json_parse : string -> option jval)
           (functionCalls : list call) : string :=
  match functionCalls with
  | [] => ""
  | first :: _ =>
      let args := js_or (parseArgs json_parse (snd first)) (Some (JObj [])) in
      if is_str (fst first) "propose_email" then
        let to := or_val (get args "to") (JStr "(missing recipient)") in
        let subject := or_val (get args "subject") (JStr "(no subject)") in
        let body := or_val (get args "bodyText") (JStr "(no body)") in
        join nl
          [ "Here’s a draft email for your approval:";
            "";
            "To: " ++ js_String to;
            "Subject: " ++ js_String subject;
            "";
            js_String body;
            "";
            "Reply with: " ++ dq ++ "Send it" ++ dq ++ " to send, or tell me what to change." ]
      else if is_str (fst first) "propose_calendar_event" then
        let title := or_val (get args "title") (JStr "(no title)") in
        let startISO := or_val (get args "startISO") (JStr "(missing start)") in
        let endISO := or_val (get args "endISO") (JStr "(missing end)") in
        let location := or_val (get args "location") (JStr "") in
        let desc := or_val (get args "description") (JStr "") in
        join nl
          (filter (fun x => negb (String.eqb x ""))
            [ "Here’s a calendar event proposal for your approval:";
              "";
              "Title: " ++ js_String title;
              "Start: " ++ js_String startISO;
              "End: " ++ js_String endISO;
              (if truthy (Some location) then "Location: " ++ js_String location else "");
              (if truthy (Some desc) then "Notes: " ++ js_String desc else "");
              "";
              "Reply with: " ++ dq ++ "Create it" ++ dq
                ++ " to create the event, or tell me what to change." ])
      else "I prepared an action proposal (" ++ js_String_opt (fst first)
             ++ "). Please confirm or tell me changes."
  end.

(** the [tools] offered to [callOpenAI] (parameter schemas omitted) *)
Definition tools : list tool :=
  [ mkTool "propose_calendar_event"
      "Propose a calendar event for user confirmation. Do NOT create it directly.";
    mkTool "propose_email"
      "Propose an email draft for user confirmation. Do NOT send it directly." ].

Definition nothing_pending_text : string :=
  "I don’t have a pending action to confirm. Ask me to draft an email or propose a calendar event first.".
Definition not_email_text : string :=
  "Your last pending action is not an email. Reply " ++ dq ++ "Create it" ++ dq
    ++ " for calendar events.".
Definition not_event_text : string :=
  "Your last pending action is not a calendar event. Reply " ++ dq ++ "Send it" ++ dq
    ++ " for email drafts.".

(** the branch for [cmd === "send it" || cmd === "create it"] *)
Definition confirm_branch (uid cmd : string) (e : env) : M server_state response :=
  let! pending := getPending uid (now e) in
  match pending with
  | None => ret (RespOk nothing_pending_text)
  | Some p =>
      let! st := get_state in
      let provider := get (Some p) "provider" in
      let tokens := MemTokens.getProviderTokens (tokenStore st) uid (js_String_opt provider) in
      let access_token := get tokens "access_token" in
      if negb (truthy access_token) then
        let! _ := clearPending uid in
        ret (RespErr 400 "not_connected")
      else if String.eqb cmd "send it" then
        if negb (is_str (get (Some p) "type") "email") then ret (RespOk not_email_text)
        else
          let payload := get (Some p) "payload" in
          if negb (is_str provider "google" || is_str provider "microsoft") then
            ret (RespErr 400 "bad_request")   (* Unknown provider *)
          else
          let! _ := call_adapter
                      (ESendEmail (if is_str provider "google" then "google" else "microsoft")
                              access_token payload) (adapter_ok e) in
          let! _ := clearPending uid in
          let! to := member payload "to" in
          let! subject := member payload "subject" in
          ret (RespOk ("✅ Sent." ++ nl ++ nl ++ "To: " ++ js_String_opt to ++ nl
                       ++ "Subject: " ++ js_String_opt subject))
      else (* cmd === "create it" *)
        if negb (is_str (get (Some p) "type") "event") then ret (RespOk not_event_text)
        else
          let payload := get (Some p) "payload" in
          if negb (is_str provider "google" || is_str provider "microsoft") then
            ret (RespErr 400 "bad_request")   (* Unknown provider *)
          else
          let! _ := call_adapter
                      (ECreateEvent (if is_str provider "google" then "google" else "microsoft")
                              access_token payload) (adapter_ok e) in
          let! _ := clearPending uid in
          let! title := member payload "title" in
          let! startISO := member payload "startISO" in
          let! endISO := member payload "endISO" in
          ret (RespOk ("✅ Calendar event created." ++ nl ++ nl ++ "Title: " ++ js_String_opt title
                       ++ nl ++ "Start: " ++ js_String_opt startISO
                       ++ nl ++ "End: " ++ js_String_opt endISO))
  end.

(** provider context: [cached?.provider ?? null], refreshed from the
    token store when the cache entry is missing or older than 90 s *)
Definition provider_context (uid : string) (e : env) : M server_state jval :=
  let! st := get_state in
  let cached := providerCache st !! uid in
  let cacheFresh :=
    match cached with Some c => Z.ltb (now e - c_ts c) PROVIDER_CACHE_MS | None => false end in
  let provider := match cached with Some c => c_provider c | None => JNull end in
  let googleTokens := MemTokens.getProviderTokens (tokenStore st) uid "google" in
  let msTokens := MemTokens.getProviderTokens (tokenStore st) uid "microsoft" in
  if cacheFresh then ret provider
  else
    let! provider :=
      (if truthy (get googleTokens "access_token") then
         let! _ := emit [EFetchCalendar "google"; EFetchMail "google"] in
         ret (JStr "google")
       else if truthy (get msTokens "access_token") then
         let! _ := emit [EFetchCalendar "microsoft"; EFetchMail "microsoft"] in
         ret (JStr "microsoft")
       else ret JNull) in
    let! _ := modify (fun st =>
                set_cache_map st (<[uid := mkCache (now e) provider]> (providerCache st))) in
    ret provider.

(** store the first tool call as the pending action *)
Definition store_tool_call (uid : string) (provider : jval) (e : env)
           (functionCalls : list call) : M server_state unit :=
  match functionCalls with
  | [] => ret tt
  | first :: _ =>
      let args := js_or (parseArgs (json_parse e) (snd first)) (Some (JObj [])) in
      let! _ :=
        (if is_str (fst first) "propose_email" then
           let p := or_val (get args "provider") (or_val (Some provider) (JStr "google")) in
           setPending uid
             [ ("type", JStr "email"); ("provider", p);
               ("payload", JObj [ ("to", or_val (get args "to") (JStr ""));
                                  ("subject", or_val (get args "subject") (JStr ""));
                                  ("bodyText", or_val (get args "bodyText") (JStr "")) ]) ]
             (now e)
         else ret tt) in
      if is_str (fst first) "propose_calendar_event" then
        let p := or_val (get args "provider") (or_val (Some provider) (JStr "google")) in
        setPending uid
          [ ("type", JStr "event"); ("provider", p);
            ("payload", JObj [ ("title", or_val (get args "title") (JStr ""));
                               ("startISO", or_val (get args "startISO") (JStr ""));
                               ("endISO", or_val (get args "endISO") (JStr ""));
                               ("description", or_val (get args "description") (JStr ""));
                               ("location", or_val (get args "location") (JStr ""));
                               ("attendees", match get args "attendees" with
                                             | Some (JArr l) => JArr l
                                             | _ => JArr []
                                             end) ]) ]
          (now e)
      else ret tt
  end.

Definition MAX_CHAT_HISTORY : nat := 8.

(** [messages.slice(-MAX_CHAT_HISTORY)] *)
Definition recentMessages (msgs : list jval) : list jval :=
  skipn (length msgs - MAX_CHAT_HISTORY) msgs.

(** [recentMessages.map((m) => ({ role: m.role, ... }))]: reading [m.role]
    of a [null] message is a TypeError *)
Definition history_input (msgs : list jval) : M server_state unit :=
  if existsb (fun m => match m with JNull => true | _ => false end) (recentMessages msgs)
  then throw "Cannot read properties of null (reading 'role')"
  else ret tt.

(** everything after the confirmation branch *)
Definition llm_branch (uid : string) (msgs : list jval) (e : env) : M server_state response :=
  let! provider := provider_context uid e in
  let! _ := history_input msgs in
  let! _ := emit [ECallOpenAI tools] in
  match openai e with
  | None => throw "OpenAI request failed"
  | Some out =>
      let functionCalls := extractFunctionCalls out in
      let t := extractAssistantText out in
      (* Always return something the UI can render *)
      let assistantText :=
        if String.eqb t "" then toolCallsToFallbackText (json_parse e) functionCalls else t in
      let! _ := store_tool_call uid provider e functionCalls in
      ret (RespOk assistantText)
  end.

(** the last message's text: [messages[messages.length - 1]?.text ?? ""] *)
Definition last_text (msgs : list jval) : jval :=
  match get (last_opt msgs) "text" with
  | None | Some JNull => JStr ""
  | Some t => t
  end.

Definition chat_body (uid : string) (body : option jval) (e : env) : M server_state response :=
  match get (js_or body (Some (JObj []))) "messages" with
  | Some (JArr msgs) =>
      let cmd := normalizeCommand (js_String (last_text msgs)) in
      if String.eqb cmd "send it" || String.eqb cmd "create it"
      then confirm_branch uid cmd e
      else llm_branch uid msgs e
  | _ => ret (RespErr 400 "bad_request")   (* messages must be an array *)
  end.

(** the handler, with its [catch] turning a throw into a 500 *)
Definition chat (st : server_state) (uid : string) (body : option jval) (e : env)
  : server_state * list effect * response :=
  match chat_body uid body e st with
  | (st', effs, Ok r) => (st', effs, r)
  | (st', effs, Throw _) => (st', effs, RespErr 500 "server_error")
  end.

(** [getProviderTokens(uid, provider) != null] *)
Definition connected (st : server_state) (uid provider : string) : bool :=
  match MemTokens.getProviderTokens (tokenStore st) uid provider with
  | Some _ => true
  | None => false
  end.

(** GET /v1/oauth/status *)
Definition oauth_status (st : server_state) (uid : string) : jval :=
  JObj [("ok", JBool true); ("google", JBool (connected st uid "google"));
        ("microsoft", JBool (connected st uid "microsoft"))].

End Server.

(** [try { m } catch (err) { h(err.message) }] *)
Definition catch {S A} (m : M S A) (h : string -> M S A) : M S A :=
  fun s =>
    match m s with
    | (s1, e1, Throw msg) => let '(s2, e2, r) := h msg s1 in (s2, app e1 e2, r)
    | ok => ok
    end.

(** an awaited provider call returning its JSON result *)
Definition call_provider {S} (e : effect) (ok : bool) (result : jval) : M S jval :=
  fun s => (s, [e], if ok then Ok result else Throw "upstream error").

(** an object literal whose [undefined] fields are dropped *)
Definition obj_opt (fs : list (string * option jval)) : jval :=
  JObj (flat_map (fun kv => match snd kv with Some v => [(fst kv, v)] | None => [] end) fs).

(* ------------------------------------------------------------------ *)
(** ** part_014, v7 server ("add-delete-calendar-events"): tool
    dispatcher, pending execution and the tool loop, over the
    user-document store [UserStore] *)

(** What one v7 request observes: the clock, the answer of each
    [openaiResponsesCreate] step ([None]: it throws), whether provider
    calls resolve and what they return, and [JSON.parse]. *)
Record env7 := mkEnv7 {
  now7 : Z;
  llm_steps : list (option jval);
  provider_ok : bool;
  provider_result : jval;
  json_parse7 : string -> option jval
}.

Module V7.
Import Firestore.

Definition db_read {A} (f : db -> res A) : M db A := fun d => (d, [], f d).
Definition db_write (f : db -> res db) : M db unit :=
  fun d => match f d with Ok d' => (d', [], Ok tt) | Throw m => (d, [], Throw m) end.

Definition normalizeConfirm (text : string) : option string :=
  let t := toLowerCase (trim text) in
  if String.eqb t "send it" || String.eqb t "send" then Some "send"
  else if String.eqb t "create it" || String.eqb t "create" then Some "create"
  else if String.eqb t "delete it" || String.eqb t "delete" then Some "delete"
  else None.

(** [safeJsonParse(tc.arguments)]; [JSON.parse] coerces to a string *)
Definition safeJsonParse (e : env7) (v : jval) : option jval := json_parse7 e (js_String v).

Definition buildTools : list tool :=
  [ mkTool "list_last_emails" "List the last N emails from the user's inbox.";
    mkTool "draft_email" "Create an email draft for the user to approve (does not send).";
    mkTool "send_email" "Send an email (requires user confirmation flow).";
    mkTool "list_calendar_events" "List calendar events within a time window (ISO strings).";
    mkTool "propose_calendar_event"
      "Propose a calendar event (requires user confirmation before creating).";
    mkTool "create_calendar_event" "Create a calendar event (requires user confirmation flow).";
    mkTool "delete_calendar_event"
      "Delete a calendar event by eventId (requires user confirmation flow)." ].

Definition err_obj (error details : string) : jval :=
  JObj [("ok", JBool false); ("error", JStr error); ("details", JStr details)].

(** [inl] is the error object, [inr] the auth built from the tokens *)
Definition getGoogleAuthForUid (uid : string) : M db (jval + jval) :=
  let! tokens := db_read (fun d => UserStore.getProviderTokens d uid "google") in
  match tokens with
  | Some t =>
      if truthy (get tokens "refresh_token") then ret (inr t)
      else ret (inl (err_obj "unauthorized" "Google not connected."))
  | None => ret (inl (err_obj "unauthorized" "Google not connected."))
  end.

Definition store_pending (e : env7) (uid : string) (type : string) (args : option jval)
  : M db unit :=
  db_write (fun d => UserStore.setPendingAction d uid
                       (JObj [("type", JStr type); ("payload", default JNull args)]) (now7 e)).

Definition needs_confirmation (instruction key : string) (args : option jval) : jval :=
  JObj [("ok", JBool true); ("needs_confirmation", JBool true);
        ("instruction", JStr instruction); (key, default JNull args)].

Definition dispatchToolCall (e : env7) (uid : string) (name args : option jval) : M db jval :=
  let! ga := getGoogleAuthForUid uid in
  match ga with
  | inl err => ret err
  | inr auth =>
      if is_str name "list_last_emails" then
        let! emails := call_provider (EFetchMail "google") (provider_ok e) (provider_result e) in
        ret (JObj [("ok", JBool true); ("emails", emails)])
      else if is_str name "draft_email" then
        ret (JObj [("ok", JBool true); ("draft", default JNull args)])
      else if is_str name "send_email" then
        let! _ := store_pending e uid "send_email" args in
        ret (needs_confirmation
               ("Reply with: " ++ dq ++ "Send it" ++ dq ++ " to send, or tell me what to change.")
               "draft" args)
      else if is_str name "list_calendar_events" then
        let! events := call_provider (EFetchCalendar "google") (provider_ok e) (provider_result e) in
        ret (JObj [("ok", JBool true); ("events", events)])
      else if is_str name "propose_calendar_event" || is_str name "create_calendar_event" then
        let! _ := store_pending e uid "create_calendar_event" args in
        ret (needs_confirmation
               ("Reply with: " ++ dq ++ "Create it" ++ dq
                  ++ " to create the event, or tell me what to change.")
               "proposal" args)
      else if is_str name "delete_calendar_event" then
        let! _ := store_pending e uid "delete_calendar_event" args in
        ret (needs_confirmation
               ("Reply with: " ++ dq ++ "Delete it" ++ dq ++ " to delete, or tell me what to change.")
               "proposal" args)
      else ret (err_obj "unknown_tool" ("No handler for " ++ js_String_opt name))
  end.

Definition ok_message (msg : string) : jval :=
  JObj [("ok", JBool true); ("message", JStr msg)].

(** [None] is [null] (no pending action of the confirmed kind) *)
Definition executePendingAction (e : env7) (uid confirmType : string) : M db (option jval) :=
  let! pending := db_read (fun d => UserStore.getPendingAction d uid) in
  match pending with
  | None => ret None
  | Some p =>
      let pl := js_or (get pending "payload") (Some (JObj [])) in
      if String.eqb confirmType "send" && is_str (get pending "type") "send_email" then
        let! ga := getGoogleAuthForUid uid in
        match ga with
        | inl err => ret (Some err)
        | inr auth =>
            let to := get pl "to" in
            let subject := get pl "subject" in
            let body := get pl "body" in
            let! sent := call_provider
                (ESendEmail "google" (Some auth)
                   (Some (obj_opt [("to", to); ("subject", subject); ("bodyText", body)])))
                (provider_ok e) (provider_result e) in
            let! _ := db_write (fun d => UserStore.clearPendingAction d uid (now7 e)) in
            ret (Some (ok_message ("✅ Sent." ++ nl ++ nl ++ "To: " ++ js_String_opt to ++ nl
                                   ++ "Subject: " ++ js_String_opt subject ++ nl ++ nl
                                   ++ "(Message id: " ++ js_String_opt (get (Some sent) "id")
                                   ++ ")")))
        end
      else if String.eqb confirmType "create" && is_str (get pending "type") "create_calendar_event" then
        let! ga := getGoogleAuthForUid uid in
        match ga with
        | inl err => ret (Some err)
        | inr auth =>
            let! created := call_provider
                (ECreateEvent "google" (Some auth)
                   (Some (obj_opt [("summary", get pl "summary");
                                   ("description", get pl "description");
                                   ("location", get pl "location");
                                   ("startISO", get pl "startISO");
                                   ("endISO", get pl "endISO");
                                   ("timezone", js_or (get pl "timezone")
                                                      (Some (JStr "America/New_York")))])))
                (provider_ok e) (provider_result e) in
            let! _ := db_write (fun d => UserStore.clearPendingAction d uid (now7 e)) in
            ret (Some (JObj [("ok", JBool true);
                             ("message", JStr ("✅ Calendar event created." ++ nl ++ nl
                                ++ "Title: " ++ js_String_opt (get pl "summary")
                                ++ nl ++ "Start: " ++ js_String_opt (get pl "startISO")
                                ++ nl ++ "End: " ++ js_String_opt (get pl "endISO")));
                             ("event", created)]))
        end
      else if String.eqb confirmType "delete" && is_str (get pending "type") "delete_calendar_event" then
        let! ga := getGoogleAuthForUid uid in
        match ga with
        | inl err => ret (Some err)
        | inr auth =>
            let eventId := get pl "eventId" in
            if negb (truthy eventId) then
              let! _ := db_write (fun d => UserStore.clearPendingAction d uid (now7 e)) in
              ret (Some (JObj [("ok", JBool false); ("error", JStr "missing_eventId")]))
            else
              let! _ := call_provider (EDeleteEvent "google" (Some auth) eventId)
                                      (provider_ok e) (provider_result e) in
              let! _ := db_write (fun d => UserStore.clearPendingAction d uid (now7 e)) in
              ret (Some (ok_message ("✅ Deleted calendar event." ++ nl ++ nl
                                     ++ "Event ID: " ++ js_String_opt eventId)))
        end
      else ret None
  end.

(** [for (const item of resp.output || [])], keeping [item.type === "tool_call"] *)
Definition tool_calls_of (resp : jval) : M db (list jval) :=
  match js_or (get (Some resp) "output") (Some (JArr [])) with
  | Some (JArr items) =>
      fold_right (fun item acc =>
        let! tcs := acc in
        let! ty := member (Some item) "type" in
        ret (if is_str ty "tool_call" then item :: tcs else tcs)) (ret []) items
  | Some (JStr _) => ret []   (* its characters, none with a [type] *)
  | _ => throw "resp.output is not iterable"
  end.

(** the dispatch of each tool call of one step, errors caught *)
Definition run_tool_calls (e : env7) (uid : string) (tcs : list jval) : M db unit :=
  fold_left (fun acc tc =>
    let! _ := acc in
    let name := get (Some tc) "name" in
    let args := if truthy (get (Some tc) "arguments")
                then safeJsonParse e (default JNull (get (Some tc) "arguments"))
                else Some (JObj []) in
    let! _result := catch (dispatchToolCall e uid name args)
                          (fun msg => ret (err_obj "tool_error" msg)) in
    ret tt) tcs (ret tt).

(** the [for (let step = 0; step < 5; step++)] loop *)
Fixpoint tool_loop (e : env7) (uid : string) (fuel step : nat) : M db string :=
  match fuel with
  | O => ret "I hit a tool loop limit. Please try again."
  | S fuel' =>
      let! _ := emit [ECallOpenAI buildTools] in
      match nth_error (llm_steps e) step with
      | None | Some None => throw "OpenAI request failed"
      | Some (Some resp) =>
          let! assistantText :=
            (match or_val (get (Some resp) "output_text") (JStr "") with
             | JStr s => ret (trim s)
             | _ => throw "output_text.trim is not a function"
             end) in
          let! toolCalls := tool_calls_of resp in
          if negb (String.eqb assistantText "") && (length toolCalls =? 0)%nat then ret assistantText
          else if (0 <? length toolCalls)%nat then
            let! _ := run_tool_calls e uid toolCalls in
            tool_loop e uid fuel' (S step)
          else ret "I didn’t get a response back. Please try again."
      end
  end.

Definition runChatWithTools (e : env7) (uid userText : string) : M db string :=
  let! early :=
    (match normalizeConfirm userText with
     | Some confirm =>
         let! executed := executePendingAction e uid confirm in
         if truthy (get executed "ok") then ret (Some (js_String_opt (get executed "message")))
         else if match get executed "ok" with Some (JBool false) => true | _ => false end
         then ret (Some ("Error: " ++ js_String (or_val (get executed "error") (JStr "failed"))
                         ++ (if truthy (get executed "details")
                             then nl ++ js_String_opt (get executed "details") else "")))
         else ret None   (* If no pending matched, continue to LLM *)
     | None => ret None
     end) in
  match early with
  | Some text => ret text
  | None => tool_loop e uid 5 0
  end.

(** POST /v1/chat of the v7 server *)
Definition chat (d : db) (body : option jval) (e : env7) : db * list effect * response :=
  let uid := js_String (or_val (get body "uid") (JStr "")) in
  let message := js_String (or_val (get body "message") (JStr "")) in
  if String.eqb uid "" then (d, [], RespErr 400 "missing_uid")
  else if String.eqb message "" then (d, [], RespErr 400 "missing_message")
  else match runChatWithTools e uid message d with
       | (d', effs, Ok text) => (d', effs, RespOk text)
       | (d', effs, Throw _) => (d', effs, RespErr 500 "server_error")
       end.
End V7.

(* ------------------------------------------------------------------ *)
(** ** src/providerClients.js: [base64UrlEncode] and the Gmail send body *)

Module Gmail.
Local Open Scope Z_scope.

(** [Buffer#toString("base64")]: RFC 4648 base64, standard alphabet,
    [=] padding; a byte is [Z.of_nat (nat_of_ascii c)] *)
Definition std_alphabet : string :=
  "ABCDEFGHIJKLMNOPQRSTUVWXYZabcdefghijklmnopqrstuvwxyz0123456789+/".

Definition b64_char (k : Z) : ascii :=
  match String.get (Z.to_nat k) std_alphabet with Some c => c | None => "A"%char end.

Definition byte (c : ascii) : Z := Z.of_nat (nat_of_ascii c).

Fixpoint to_base64 (bs : list ascii) : list ascii :=
  match bs with
  | a :: b :: c :: rest =>
      let x := byte a in let y := byte b in let z := byte c in
      b64_char (x / 4) :: b64_char ((x mod 4) * 16 + y / 16)
        :: b64_char ((y mod 16) * 4 + z / 64) :: b64_char (z mod 64) :: to_base64 rest
  | [a; b] =>
      let x := byte a in let y := byte b in
      [b64_char (x / 4); b64_char ((x mod 4) * 16 + y / 16); b64_char ((y mod 16) * 4); "="%char]
  | [a] =>
      let x := byte a in
      [b64_char (x / 4); b64_char ((x mod 4) * 16); "="%char; "="%char]
  | [] => []
  end.

(** [s.replace(/x/g, y)] for one-character [x] and [y] *)
Definition replace_char (x y : ascii) (s : string) : string :=
  string_of_list_ascii
    (map (fun c => if Ascii.eqb c x then y else c) (list_ascii_of_string s)).

Definition is_pad (c : ascii) : bool := Ascii.eqb c "=".

Definition base64UrlEncode (str : string) : string :=
  let b64 := string_of_list_ascii (to_base64 (list_ascii_of_string str)) in
  strip_end is_pad (replace_char "/" "_" (replace_char "+" "-" b64)).

Definition raw_message (to subject bodyText : string) : string :=
  "To: " ++ to ++ crlf ++
  "Subject: " ++ subject ++ crlf ++
  "Content-Type: text/plain; charset=" ++ dq ++ "UTF-8" ++ dq ++ crlf ++
  "Content-Transfer-Encoding: 7bit" ++ crlf ++
  crlf ++
  bodyText ++ crlf.

(** the JSON body POSTed by [googleSendEmail(accessToken, payload)] *)
Definition googleSendEmail_body (payload : jval) : jval :=
  let to := js_String_opt (get (Some payload) "to") in
  let subject := js_String_opt (get (Some payload) "subject") in
  let bodyText := js_String_opt (get (Some payload) "bodyText") in
  JObj [("raw", JStr (base64UrlEncode (raw_message to subject bodyText)))].

(** Decoding side (not in the repository): unpadded base64url decoding
    as RFC 4648 section 5 describes it. *)
Definition url_value (c : ascii) : option Z :=
  let n := Z.of_nat (nat_of_ascii c) in
  if (65 <=? n) && (n <=? 90) then Some (n - 65)
  else if (97 <=? n) && (n <=? 122) then Some (n - 71)
  else if (48 <=? n) && (n <=? 57) then Some (n + 4)
  else if n =? 45 then Some 62
  else if n =? 95 then Some 63
  else None.

Definition byte_char (v : Z) : ascii := ascii_of_nat (Z.to_nat v).

Fixpoint base64url_decode (cs : list ascii) : option (list ascii) :=
  match cs with
  | c1 :: c2 :: c3 :: c4 :: rest =>
      match url_value c1, url_value c2, url_value c3, url_value c4, base64url_decode rest with
      | Some s1, Some s2, Some s3, Some s4, Some bs =>
          Some (byte_char (s1 * 4 + s2 / 16) :: byte_char ((s2 mod 16) * 16 + s3 / 4)
                :: byte_char ((s3 mod 4) * 64 + s4) :: bs)
      | _, _, _, _, _ => None
      end
  | [c1; c2; c3] =>
      match url_value c1, url_value c2, url_value c3 with
      | Some s1, Some s2, Some s3 =>
          Some [byte_char (s1 * 4 + s2 / 16); byte_char ((s2 mod 16) * 16 + s3 / 4)]
      | _, _, _ => None
      end
  | [c1; c2] =>
      match url_value c1, url_value c2 with
      | Some s1, Some s2 => Some [byte_char (s1 * 4 + s2 / 16)]
      | _, _ => None
      end
  | [_] => None
  | [] => Some []
  end.

Definition decode_string (s : string) : option string :=
  option_map string_of_list_ascii (base64url_decode (list_ascii_of_string s)).
(** the two [replace] calls as one character map *)
Definition url_swap (c : ascii) : ascii :=
  if Ascii.eqb c "+" then "-"%char else if Ascii.eqb c "/" then "_"%char else c.

(** characters that base64url output must avoid *)
Definition url_safe (c : ascii) : Prop := c <> "="%char /\ c <> "+"%char /\ c <> "/"%char.

End Gmail.

(* ------------------------------------------------------------------ *)
(** ** src/openaiClient.js: [callOpenAI]

    [Number.parseInt] is a parameter ([None] is [NaN]), as [JSON.parse]
    is above, and the waits of [sleep] are not modelled.  The result lists
    the requests sent, each with the timeout and the [max_output_tokens]
    it carries. *)

Module OpenAIClient.
Local Open Scope Z_scope.

(** [clampInt(v, fallback, min, max)] *)
Definition clampInt (parseInt : string -> option Z) (v : option jval)
           (fallback min max : Z) : Z :=
  let s := match v with None | Some JNull => "" | Some x => js_String x end in
  match parseInt s with
  | None => fallback
  | Some n => Z.max min (Z.min max n)
  end.

(** what one [fetchWithTimeout] of the loop yields: a rejection (a
    network error, or the abort of the timeout) or a response, whose
    [r.json()] may reject ([None]) *)
Inductive attempt : Type :=
| FetchRejected (message : string)
| Responded (ok : bool) (status : Z) (statusText : string) (json : option jval).

Record request := mkRequest { req_timeout : Z; req_max_output_tokens : Z }.

Definition maxAttempts : nat := 2.

Definition transient (status : Z) : bool :=
  existsb (Z.eqb status) [429; 500; 502; 503; 504].

(** [json] after [.catch(() => ({}))] *)
Definition response_json (j : option jval) : jval := default (JObj []) j.

(** the message of the error thrown for a response that is not ok *)
Definition http_error_message (status : Z) (statusText : string) (j : option jval) : string :=
  let msg := or_val (get (get (Some (response_json j)) "error") "message")
                    (or_val (Some (JStr statusText)) (JStr "Unknown error")) in
  "OpenAI error " ++ pretty status ++ ": " ++ js_String msg.

(** how the loop ends: [return json], or leaving it with [lastErr] *)
Inductive loop_end : Type :=
| Returned (json : jval)
| LeftLoop (lastErr : option string).

(** [for (let attempt = 1; attempt <= maxAttempts; attempt++)] *)
Fixpoint attempts_loop (req : request) (outcome : nat -> attempt) (fuel attempt : nat)
         (lastErr : option string) : list request * loop_end :=
  match fuel with
  | O => ([], LeftLoop lastErr)
  | S fuel' =>
      if negb (Nat.leb attempt maxAttempts) then ([], LeftLoop lastErr)
      else
        let next (err : option string) :=
          let '(rs, r) := attempts_loop req outcome fuel' (S attempt) err in (req :: rs, r) in
        (* [catch (err)]: [lastErr = err], and [(isTimeout || true)] *)
        let caught (msg : string) :=
          if Nat.ltb attempt maxAttempts then next (Some msg) else ([req], LeftLoop (Some msg)) in
        match outcome attempt with
        | FetchRejected msg => caught msg
        | Responded ok status statusText j =>
            if ok then ([req], Returned (response_json j))
            else if transient status && Nat.ltb attempt maxAttempts then next lastErr
            else caught (http_error_message status statusText j)
        end
  end.

(** [callOpenAI({ input, tools, max_output_tokens, timeoutMs })], with
    [OPENAI_API_KEY] and [OPENAI_TIMEOUT_MS] from the environment *)
Definition callOpenAI (apiKey env_timeout : option string) (parseInt : string -> option Z)
           (timeoutMs max_output_tokens : option jval) (outcome : nat -> attempt)
  : list request * res jval :=
  if negb (truthy (option_map JStr apiKey)) then
    ([], Throw "Missing OPENAI_API_KEY in environment")
  else
    let hardTimeoutMs :=
      clampInt parseInt (match timeoutMs with
                         | None | Some JNull => option_map JStr env_timeout
                         | v => v
                         end) 12000 1000 60000 in
    let maxOut := clampInt parseInt max_output_tokens 300 50 2000 in
    let '(rs, r) := attempts_loop (mkRequest hardTimeoutMs maxOut) outcome maxAttempts 1 None in
    (rs, match r with
         | Returned json => Ok json
         | LeftLoop (Some msg) => Throw msg
         | LeftLoop None => Throw "OpenAI request failed"
         end).
End OpenAIClient.

(* ------------------------------------------------------------------ *)
(** ** Reading a chat request and its outcome *)

(** the effects a run of a handler performed *)
Definition effects_of {S R} (x : S * list effect * R) : list effect :=
  let '(_, es, _) := x in es.

(** a computation that never performs a provider mutation, from any state *)
Definition quiet {S A} (m : M S A) : Prop :=
  forall s, Forall (fun x => is_mutation x = false) (effects_of (m s)).

(** the number of LLM calls among some effects *)
Definition llm_calls (es : list effect) : nat := length (filter is_llm_call es).

(** a computation that calls the LLM at most [n] times, from any state *)
Definition llm_bounded {S A} (n : nat) (m : M S A) : Prop :=
  forall s, (llm_calls (effects_of (m s)) <= n)%nat.

(** every value a computation returns satisfies [Q] *)
Definition ensures {S A} (Q : A -> Prop) (m : M S A) : Prop :=
  forall s, let '(_, _, r) := m s in match r with Ok a => Q a | Throw _ => True end.

(** an [executePendingAction] result with [ok] truthy carries a message *)
Definition ok_has_message (r : option jval) : Prop :=
  truthy (get r "ok") = true -> js_String_opt (get r "message") <> "".

(** an error of [getGoogleAuthForUid] has [ok: false] *)
Definition auth_error_not_ok (ga : jval + jval) : Prop :=
  match ga with inl err => get (Some err) "ok" = Some (JBool false) | inr _ => True end.

Module ChatView.
(** a request body [{ messages: msgs }] *)
Definition request (msgs : list jval) : option jval :=
  Some (JObj [("messages", JArr msgs)]).

(** the normalized text of the last message, as the handler computes it *)
Definition last_command (msgs : list jval) : string :=
  Server.normalizeCommand (js_String (Server.last_text msgs)).

(** the confirmation phrase of a pending action's [type] in server.js *)
Definition confirmation_phrase (ty : option jval) : option string :=
  if is_str ty "email" then Some "send it"
  else if is_str ty "event" then Some "create it"
  else None.

(** the provider mutation a confirmation phrase asks for *)
Definition adapter_call (cmd provider : string) (auth payload : option jval) : effect :=
  if String.eqb cmd "send it" then ESendEmail provider auth payload
  else ECreateEvent provider auth payload.

(** the access token the handler reads for a pending action *)
Definition access_token (st : server_state) (uid : string) (p : jval) : option jval :=
  get (MemTokens.getProviderTokens (tokenStore st) uid
         (js_String_opt (get (Some p) "provider"))) "access_token".

(** [getPending] sees this entry as present and not expired *)
Definition fresh (t : Z) (p : jval) : Prop :=
  exists fs ts, p = JObj fs /\ obj_get fs "ts" = Some (JNum ts) /\
                (t - ts <= Server.PENDING_ACTION_TTL_MS)%Z.

Definition reconnect (st : server_state) (uid provider : string) (tokens : jval) (t : Z)
  : server_state :=
  mkServer (pendingActions st) (providerCache st)
           (MemTokens.setProviderTokens (tokenStore st) uid provider tokens t).

(** the v7 [executePendingAction] test: the confirmation kind and the
    stored [type] agree *)
Definition v7_matches (confirmType : string) (ty : option jval) : bool :=
  (String.eqb confirmType "send" && is_str ty "send_email")
  || (String.eqb confirmType "create" && is_str ty "create_calendar_event")
  || (String.eqb confirmType "delete" && is_str ty "delete_calendar_event").
End ChatView.

(* ------------------------------------------------------------------ *)
(** ** Concrete requests and stores *)

Module Scenarios.
Definition user_msg (text : string) : jval :=
  JObj [("role", JStr "user"); ("text", JStr text)].

(** U+00A0 NO-BREAK SPACE, two bytes in UTF-8 *)
Definition nbsp : string := string_of_list_ascii (utf8 160).

(** an OpenAI answer with neither output text nor a function call *)
Definition empty_answer : jval := JObj [("output", JArr [])].

Definition env0 : env := mkEnv 1000 (Some empty_answer) true (fun _ => None).

Definition email_payload : jval :=
  JObj [("to", JStr "ann@example.com"); ("subject", JStr "Hi"); ("bodyText", JStr "Hello")].

Definition event_payload : jval :=
  JObj [("title", JStr "Dentist"); ("startISO", JStr "2026-10-20T09:00:00Z");
        ("endISO", JStr "2026-10-20T10:00:00Z")].

(** pending entries as [setPending] stores them at time 0 *)
Definition pending_email : jval :=
  JObj [("ts", JNum 0); ("type", JStr "email"); ("provider", JStr "google");
        ("payload", email_payload)].
Definition pending_event : jval :=
  JObj [("ts", JNum 0); ("type", JStr "event"); ("provider", JStr "google");
        ("payload", event_payload)].

(** a process whose only state is a pending action of ["u1"], no tokens *)
Definition with_pending (p : jval) : server_state := mkServer {[ "u1" := p ]} ∅ ∅.

Definition empty_server : server_state := mkServer ∅ ∅ ∅.

(** v7: a user document connected to Google *)
Definition google_cred : jval :=
  JObj [("access_token", JStr "tok"); ("refresh_token", JStr "ref")].
Definition connected_db : Firestore.db :=
  {[ ["users"; "u1"] := JObj [("tokens", JObj [("google", google_cred)])] ]}.

Definition tokens_db : Firestore.db :=
  {[ ["users"; "u1"; "tokens"; "google"] := google_cred ]}.

Definition env7_0 : env7 := mkEnv7 1000 [] true (JObj []) (fun _ => None).

(** two calendar proposals, the second without a location *)
Definition proposal_A : jval :=
  JObj [("summary", JStr "Dentist"); ("startISO", JStr "2026-10-20T09:00:00Z");
        ("endISO", JStr "2026-10-20T10:00:00Z"); ("location", JStr "Clinic")].
Definition proposal_B : jval :=
  JObj [("summary", JStr "Lunch"); ("startISO", JStr "2026-10-21T12:00:00Z");
        ("endISO", JStr "2026-10-21T13:00:00Z")].

Definition action_of (payload : jval) : jval :=
  JObj [("type", JStr "create_calendar_event"); ("payload", payload)].

(** the store after [dispatchToolCall] handled A, then B *)
Definition after_two_proposals : Firestore.db :=
  let '(d1, _, _) := V7.dispatchToolCall env7_0 "u1" (Some (JStr "propose_calendar_event"))
                        (Some proposal_A) connected_db in
  let '(d2, _, _) := V7.dispatchToolCall env7_0 "u1" (Some (JStr "propose_calendar_event"))
                        (Some proposal_B) d1 in
  d2.

Definition v7_request (message : string) : option jval :=
  Some (JObj [("uid", JStr "u1"); ("message", JStr message)]).
(** v7: Google and Microsoft credentials in one user document *)
Definition two_providers_db : Firestore.db :=
  {[ ["users"; "u1"] := JObj [("tokens", JObj [("google", google_cred);
                                               ("microsoft", JObj [("access_token", JStr "m")])])] ]}.

(** v7: a pending email, and a Google credential without refresh token *)
Definition unauthorized_db : Firestore.db :=
  {[ ["users"; "u1"] := JObj [("tokens", JObj [("google", JObj [("access_token", JStr "tok")])]);
                              ("pendingAction", JObj [("type", JStr "send_email");
                                                      ("payload", email_payload)])] ]}.

(** v7: a pending calendar deletion without eventId *)
Definition delete_db : Firestore.db :=
  {[ ["users"; "u1"] := JObj [("tokens", JObj [("google", google_cred)]);
                              ("pendingAction", JObj [("type", JStr "delete_calendar_event");
                                                      ("payload", JObj [])])] ]}.
End Scenarios.

(* ================================================================== *)
(** * Theorems *)

(** ** Base64url round trip of the Gmail raw message *)
Section Base64.
Local Open Scope Z_scope.
Import Gmail.

Lemma replace_twice (s : string) :
  Gmail.replace_char "/" "_" (Gmail.replace_char "+" "-" s)
  = string_of_list_ascii (map url_swap (list_ascii_of_string s)).
Proof.
  unfold Gmail.replace_char. rewrite list_ascii_of_string_of_list_ascii, map_map.
  f_equal. apply map_ext. intros c. unfold url_swap.
  destruct (Ascii.eqb c "+") eqn:E1.
  - reflexivity.
  - destruct (Ascii.eqb c "/"); reflexivity.
Qed.

Lemma sextet_char (k : Z) : 0 <= k < 64 ->
  Gmail.url_value (url_swap (Gmail.b64_char k)) = Some k /\
  url_swap (Gmail.b64_char k) <> "="%char /\
  url_swap (Gmail.b64_char k) <> "+"%char /\
  url_swap (Gmail.b64_char k) <> "/"%char.
Proof.
  intros Hk. rewrite <- (Z2Nat.id k) by lia.
  assert (Hn : (Z.to_nat k < 64)%nat) by lia.
  generalize (Z.to_nat k) Hn. clear k Hk Hn. intros n Hn.
  unfold Gmail.b64_char. rewrite Nat2Z.id.
  do 64 (destruct n as [|n]; [vm_compute; repeat split; congruence|]).
  lia.
Qed.

Lemma byte_range (c : ascii) : 0 <= Gmail.byte c < 256.
Proof. unfold Gmail.byte. pose proof (nat_ascii_bounded c). lia. Qed.

Lemma byte_char_byte (c : ascii) : Gmail.byte_char (Gmail.byte c) = c.
Proof. unfold Gmail.byte_char, Gmail.byte. rewrite Nat2Z.id. apply ascii_nat_embedding. Qed.

Lemma group_arith (x y z : Z) : 0 <= x < 256 -> 0 <= y < 256 -> 0 <= z < 256 ->
  0 <= x / 4 < 64 /\ 0 <= (x mod 4) * 16 + y / 16 < 64 /\
  0 <= (y mod 16) * 4 + z / 64 < 64 /\ 0 <= z mod 64 < 64 /\
  (x / 4) * 4 + ((x mod 4) * 16 + y / 16) / 16 = x /\
  (((x mod 4) * 16 + y / 16) mod 16) * 16 + ((y mod 16) * 4 + z / 64) / 4 = y /\
  (((y mod 16) * 4 + z / 64) mod 4) * 64 + z mod 64 = z.
Proof. intros. repeat split; Z.div_mod_to_equations; lia. Qed.

(** the swapped base64 text is an unpadded body followed by [=] padding;
    the body is url-safe and decodes back to the input bytes *)
Lemma to_base64_split (n : nat) (l : list ascii) : (length l <= n)%nat ->
  exists body pad,
    map url_swap (Gmail.to_base64 l) = app body (repeat "="%char pad) /\
    Forall url_safe body /\
    Gmail.base64url_decode body = Some l.
Proof.
  revert l. induction n as [|n IH]; intros l Hl.
  - destruct l; [|simpl in Hl; lia]. exists [], 0%nat. simpl. auto.
  - destruct l as [|a [|b [|c rest]]].
    + exists [], 0%nat. simpl. auto.
    + pose proof (byte_range a) as Ha.
      destruct (group_arith (Gmail.byte a) 0 0 Ha ltac:(lia) ltac:(lia))
        as (H1 & H2 & _).
      rewrite Z.div_0_l in H2 by lia. rewrite Z.add_0_r in H2.
      destruct (sextet_char _ H1) as (V1 & S1). destruct (sextet_char _ H2) as (V2 & S2).
      exists [url_swap (Gmail.b64_char (Gmail.byte a / 4));
              url_swap (Gmail.b64_char (Gmail.byte a mod 4 * 16))], 2%nat.
      split; [reflexivity|]. split; [repeat constructor; tauto|].
      simpl. rewrite V1, V2. do 2 f_equal.
      transitivity (Gmail.byte_char (Gmail.byte a)); [|apply byte_char_byte].
      f_equal. Z.div_mod_to_equations. lia.
    + pose proof (byte_range a) as Ha. pose proof (byte_range b) as Hb.
      destruct (group_arith (Gmail.byte a) (Gmail.byte b) 0 Ha Hb ltac:(lia))
        as (H1 & H2 & H3 & _ & E1 & E2 & _).
      rewrite Z.div_0_l, Z.add_0_r in H3, E2 by lia.
      destruct (sextet_char _ H1) as (V1 & S1). destruct (sextet_char _ H2) as (V2 & S2).
      destruct (sextet_char _ H3) as (V3 & S3).
      eexists [_; _; _], 1%nat.
      split; [reflexivity|]. split; [repeat constructor; tauto|].
      simpl. rewrite V1, V2, V3. rewrite E1, E2. rewrite !byte_char_byte. reflexivity.
    + pose proof (byte_range a) as Ha. pose proof (byte_range b) as Hb.
      pose proof (byte_range c) as Hc.
      destruct (group_arith _ _ _ Ha Hb Hc) as (H1 & H2 & H3 & H4 & E1 & E2 & E3).
      destruct (sextet_char _ H1) as (V1 & S1). destruct (sextet_char _ H2) as (V2 & S2).
      destruct (sextet_char _ H3) as (V3 & S3). destruct (sextet_char _ H4) as (V4 & S4).
      destruct (IH rest ltac:(simpl in Hl; lia)) as (body & pad & Eq & Safe & Dec).
      exists (app [url_swap (Gmail.b64_char (Gmail.byte a / 4));
               url_swap (Gmail.b64_char (Gmail.byte a mod 4 * 16 + Gmail.byte b / 16));
               url_swap (Gmail.b64_char (Gmail.byte b mod 16 * 4 + Gmail.byte c / 64));
               url_swap (Gmail.b64_char (Gmail.byte c mod 64))] body), pad.
      split; [simpl; rewrite Eq; reflexivity|].
      split; [repeat constructor; tauto|].
      simpl. rewrite V1, V2, V3, V4, Dec. rewrite E1, E2, E3, !byte_char_byte. reflexivity.
Qed.
Lemma drop_while_pad_safe (l : list ascii) :
  Forall url_safe (rev l) -> drop_while is_pad l = l.
Proof.
  destruct l as [|c l]; [reflexivity|]. intros H. simpl.
  apply Forall_app in H as [_ H]. inversion H as [|? ? (Hc & _ & _) _]; subst.
  unfold is_pad. destruct (Ascii.eqb_spec c "=") as [->|]; [contradiction|reflexivity].
Qed.

Lemma drop_while_pad_repeat (pad : nat) (l : list ascii) :
  drop_while is_pad (app (repeat "="%char pad) l) = drop_while is_pad l.
Proof. induction pad as [|pad IH]; [reflexivity|]. exact IH. Qed.

Lemma strip_padding (body : list ascii) (pad : nat) : Forall url_safe body ->
  strip_end is_pad (string_of_list_ascii (app body (repeat "="%char pad)))
  = string_of_list_ascii body.
Proof.
  intros Hb. unfold strip_end. rewrite list_ascii_of_string_of_list_ascii.
  rewrite rev_app_distr, rev_repeat, drop_while_pad_repeat.
  rewrite drop_while_pad_safe by (rewrite rev_involutive; exact Hb).
  rewrite rev_involutive. reflexivity.
Qed.

(** [base64UrlEncode] output is url-safe and decodes back to its input *)
Lemma base64UrlEncode_roundtrip (str : string) :
  Forall url_safe (list_ascii_of_string (base64UrlEncode str)) /\
  decode_string (base64UrlEncode str) = Some str.
Proof.
  destruct (to_base64_split (length (list_ascii_of_string str)) (list_ascii_of_string str)
              ltac:(lia)) as (body & pad & Eq & Safe & Dec).
  assert (E : base64UrlEncode str = string_of_list_ascii body).
  { unfold base64UrlEncode. rewrite replace_twice, list_ascii_of_string_of_list_ascii, Eq.
    apply strip_padding, Safe. }
  rewrite E, list_ascii_of_string_of_list_ascii. split; [exact Safe|].
  unfold decode_string. rewrite list_ascii_of_string_of_list_ascii, Dec. simpl.
  rewrite string_of_list_ascii_of_string. reflexivity.
Qed.
End Base64.

(** ** Objects and the Firestore merge *)

Lemma obj_get_set_eq (fs : list (string * jval)) (k : string) (v : jval) :
  obj_get (obj_set fs k v) k = Some v.
Proof.
  induction fs as [|[k' v'] rest IH]; simpl.
  - rewrite String.eqb_refl. reflexivity.
  - destruct (String.eqb_spec k' k) as [->|Hne]; simpl.
    + rewrite String.eqb_refl. reflexivity.
    + apply String.eqb_neq in Hne. rewrite Hne. exact IH.
Qed.

Lemma obj_get_set_ne (fs : list (string * jval)) (k k' : string) (v : jval) :
  k <> k' -> obj_get (obj_set fs k v) k' = obj_get fs k'.
Proof.
  intros Hne. induction fs as [|[k0 v0] rest IH]; simpl.
  - apply String.eqb_neq in Hne. rewrite Hne. reflexivity.
  - destruct (String.eqb_spec k0 k) as [->|Hk]; simpl.
    + apply String.eqb_neq in Hne. rewrite Hne. reflexivity.
    + destruct (String.eqb k0 k'); [reflexivity|exact IH].
Qed.

Lemma obj_get_none_not_in (fs : list (string * jval)) (k : string) :
  obj_get fs k = None <-> ~ In k (map fst fs).
Proof.
  induction fs as [|[k0 v0] rest IH]; simpl.
  - tauto.
  - destruct (String.eqb_spec k0 k) as [->|Hk].
    + split; [discriminate|tauto].
    + rewrite IH. intuition.
Qed.

(** a field the update does not mention keeps its value *)
Lemma merge_fields_absent (nfs ofs : list (string * jval)) (k : string) :
  obj_get nfs k = None -> obj_get (merge_fields ofs nfs) k = obj_get ofs k.
Proof.
  revert ofs. induction nfs as [|[k0 v0] rest IH]; intros ofs Hk; [reflexivity|].
  simpl in Hk. destruct (String.eqb_spec k0 k) as [->|Hne]; [discriminate|].
  simpl. rewrite IH by exact Hk. apply obj_get_set_ne. exact Hne.
Qed.

(** the value a merge leaves in a field the update mentions *)
Lemma merge_fields_field (nfs ofs : list (string * jval)) (k : string) (v : jval) :
  NoDup (map fst nfs) -> obj_get nfs k = Some v ->
  obj_get (merge_fields ofs nfs) k =
    Some (match obj_get ofs k with Some o => merge_val o v | None => v end).
Proof.
  revert ofs. induction nfs as [|[k0 v0] rest IH]; intros ofs Hnd Hk; [discriminate|].
  simpl in Hnd. inversion Hnd as [|? ? Hnotin Hnd']; subst.
  simpl in Hk |- *. destruct (String.eqb_spec k0 k) as [->|Hne].
  - injection Hk as <-. rewrite <- obj_get_none_not_in in Hnotin.
    rewrite merge_fields_absent by exact Hnotin. apply obj_get_set_eq.
  - rewrite (IH _ Hnd' Hk), obj_get_set_ne by congruence. reflexivity.
Qed.

Lemma merge_val_fields (ofs nfs : list (string * jval)) :
  nfs <> [] -> merge_val (JObj ofs) (JObj nfs) = JObj (merge_fields ofs nfs).
Proof. destruct nfs as [|kv nfs]; [congruence|]. intros _. reflexivity. Qed.


Lemma set_merge_ok (d : Firestore.db) (p : list string) (fs : list (string * jval)) :
  fields_ok (JObj fs) = true ->
  Firestore.set_merge d p (JObj fs) =
    Ok (match d !! p with
        | Some old => <[p := merge_doc old (JObj fs)]> d
        | None => <[p := JObj fs]> d
        end).
Proof. intros H. unfold Firestore.set_merge. rewrite H. reflexivity. Qed.

Lemma set_merge_lookup_eq (d d' : Firestore.db) (p : list string) (data : jval) :
  Firestore.set_merge d p data = Ok d' ->
  d' !! p = Some (match d !! p with Some old => merge_doc old data | None => data end).
Proof.
  unfold Firestore.set_merge. intros H.
  destruct data; try discriminate. destruct (fields_ok _); [|discriminate].
  injection H as <-. unfold Firestore.db in *.
  destruct (d !! p); apply lookup_insert_eq.
Qed.

Lemma set_merge_lookup_ne (d d' : Firestore.db) (p q : list string) (data : jval) :
  Firestore.set_merge d p data = Ok d' -> p <> q -> d' !! q = d !! q.
Proof.
  unfold Firestore.set_merge. intros H Hne.
  destruct data; try discriminate. destruct (fields_ok _); [|discriminate].
  injection H as <-. unfold Firestore.db in *.
  destruct (d !! p); apply lookup_insert_ne; exact Hne.
Qed.

(** *** Resource paths *)

Lemma split_slash_noslash (s : string) :
  existsb (fun c => Ascii.eqb c "/") (list_ascii_of_string s) = false -> split_slash s = [s].
Proof.
  induction s as [|c s IH]; [reflexivity|]. simpl. intros H.
  apply orb_false_iff in H as [Hc Hs]. rewrite Hc, IH by exact Hs. reflexivity.
Qed.

Lemma has_double_slash_noslash (s : string) :
  existsb (fun c => Ascii.eqb c "/") (list_ascii_of_string s) = false -> has_double_slash s = false.
Proof.
  induction s as [|c s IH]; [reflexivity|]. simpl. intros H.
  apply orb_false_iff in H as [Hc Hs]. destruct s as [|c' s']; [reflexivity|].
  rewrite Hc. simpl. apply IH, Hs.
Qed.

Lemma valid_id_segments (s : string) :
  Firestore.valid_id s = true ->
  String.eqb s "" = false /\ has_double_slash s = false /\ Firestore.segments s = [s].
Proof.
  unfold Firestore.valid_id. intros H. repeat rewrite andb_true_iff in H.
  destruct H as (((((H1 & H2) & _) & _) & _) & _).
  apply negb_true_iff in H1, H2. split; [exact H1|split].
  - apply has_double_slash_noslash, H2.
  - unfold Firestore.segments. rewrite split_slash_noslash by exact H2. simpl. rewrite H1. reflexivity.
Qed.

Lemma doc_valid (base : list string) (s : string) :
  Firestore.valid_id s = true -> Nat.even (S (length base)) = true ->
  Firestore.doc base s = Ok (app base [s]).
Proof.
  intros Hs Hb. destruct (valid_id_segments s Hs) as (H1 & H2 & H3).
  unfold Firestore.doc, Firestore.validateResourcePath. rewrite H1, H2, H3. cbn [res_bind].
  rewrite length_app. replace (length base + length [s]) with (S (length base)) by (simpl; lia).
  rewrite Hb. reflexivity.
Qed.

Lemma collection_valid (base : list string) (s : string) :
  Firestore.valid_id s = true -> Nat.odd (S (length base)) = true ->
  Firestore.collection base s = Ok (app base [s]).
Proof.
  intros Hs Hb. destruct (valid_id_segments s Hs) as (H1 & H2 & H3).
  unfold Firestore.collection, Firestore.validateResourcePath. rewrite H1, H2, H3. cbn [res_bind].
  rewrite length_app. replace (length base + length [s]) with (S (length base)) by (simpl; lia).
  rewrite Hb. reflexivity.
Qed.

Lemma collection_users : Firestore.collection [] "users" = Ok ["users"].
Proof. reflexivity. Qed.

Lemma userDoc_valid (uid : string) :
  Firestore.valid_id uid = true -> UserStore.userDoc uid = Ok ["users"; uid].
Proof.
  intros H. destruct (valid_id_segments uid H) as (H1 & _).
  unfold UserStore.userDoc. rewrite H1, collection_users. cbn [res_bind].
  apply (doc_valid ["users"] uid H). reflexivity.
Qed.

Lemma tokensRef_valid (uid provider : string) :
  Firestore.valid_id uid = true -> Firestore.valid_id provider = true ->
  TokenStore.tokensRef uid provider = Ok ["users"; uid; "tokens"; provider].
Proof.
  intros Hu Hp. unfold TokenStore.tokensRef. rewrite collection_users. cbn [res_bind].
  rewrite (doc_valid ["users"] uid Hu) by reflexivity. cbn [res_bind app].
  rewrite (collection_valid ["users"; uid] "tokens") by reflexivity. cbn [res_bind app].
  rewrite (doc_valid ["users"; uid; "tokens"] provider Hp) by reflexivity. reflexivity.
Qed.

Lemma pendingRef_valid (uid : string) :
  Firestore.valid_id uid = true ->
  TokenStore.pendingRef uid = Ok ["users"; uid; "pending"; "action"].
Proof.
  intros Hu. unfold TokenStore.pendingRef. rewrite collection_users. cbn [res_bind].
  rewrite (doc_valid ["users"] uid Hu) by reflexivity. cbn [res_bind app].
  rewrite (collection_valid ["users"; uid] "pending") by reflexivity. cbn [res_bind app].
  rewrite (doc_valid ["users"; uid; "pending"] "action") by reflexivity. reflexivity.
Qed.

Lemma collection_path (base p : list string) (c : string) :
  Firestore.collection base c = Ok p -> p = app base (Firestore.segments c).
Proof.
  unfold Firestore.collection. destruct (Firestore.validateResourcePath _ _); [|discriminate].
  cbn [res_bind]. destruct (Nat.odd _); [|discriminate]. congruence.
Qed.

Lemma doc_path (base p : list string) (s : string) :
  Firestore.doc base s = Ok p -> p = app base (Firestore.segments s).
Proof.
  unfold Firestore.doc. destruct (Firestore.validateResourcePath _ _); [|discriminate].
  cbn [res_bind]. destruct (Nat.even _); [|discriminate]. congruence.
Qed.

(** whatever the uid, the pending action lives at a path ending in
    "pending"/"action" *)
Lemma pendingRef_path (uid : string) (p : list string) :
  TokenStore.pendingRef uid = Ok p -> exists pre, p = app pre ["pending"; "action"].
Proof.
  unfold TokenStore.pendingRef. rewrite collection_users. cbn [res_bind].
  destruct (Firestore.doc ["users"] uid) as [u|]; [|discriminate]. cbn [res_bind].
  destruct (Firestore.collection u "pending") as [pc|] eqn:Epc; [|discriminate]. cbn [res_bind].
  intros Hp. apply doc_path in Hp. apply collection_path in Epc. subst.
  exists u. rewrite <- app_assoc. reflexivity.
Qed.

Lemma tokens_pending_paths (uid provider : string) (pre : list string) :
  ["users"; uid; "tokens"; provider] <> app pre ["pending"; "action"].
Proof.
  intros E. apply (f_equal (@rev string)) in E. rewrite rev_app_distr in E.
  simpl in E. injection E as _ E. discriminate E.
Qed.

(** ** The chat handlers: confirmation, effects and the tool loop *)

Lemma getPending_fresh (st : server_state) (uid : string) (t : Z) (p : jval) :
  pendingActions st !! uid = Some p -> ChatView.fresh t p ->
  Server.getPending uid t st = (st, [], Ok (Some p)).
Proof.
  intros Hp (fs & ts & -> & Hts & Hle).
  unfold Server.getPending. rewrite Hp. simpl. rewrite Hts.
  replace (Z.gtb (t - ts) Server.PENDING_ACTION_TTL_MS) with false; [reflexivity|].
  symmetry. rewrite Z.gtb_ltb. apply Z.ltb_ge. exact Hle.
Qed.

Lemma getPending_empty (st : server_state) (uid : string) (t : Z) :
  pendingActions st !! uid = None ->
  Server.getPending uid t st = (st, [], Ok None).
Proof. intros Hp. unfold Server.getPending. rewrite Hp. reflexivity. Qed.

Lemma chat_confirm (st : server_state) (uid : string) (msgs : list jval) (e : env) :
  ChatView.last_command msgs = "send it" \/ ChatView.last_command msgs = "create it" ->
  Server.chat st uid (ChatView.request msgs) e =
    match Server.confirm_branch uid (ChatView.last_command msgs) e st with
    | (st', effs, Ok r) => (st', effs, r)
    | (st', effs, Throw _) => (st', effs, RespErr 500 "server_error")
    end.
Proof.
  intros Hc. unfold Server.chat, Server.chat_body. simpl.
  fold (ChatView.last_command msgs).
  destruct Hc as [-> | ->]; reflexivity.
Qed.

Lemma confirm_nothing_pending (st : server_state) (uid cmd : string) (e : env) :
  pendingActions st !! uid = None ->
  Server.confirm_branch uid cmd e st = (st, [], Ok (RespOk Server.nothing_pending_text)).
Proof.
  intros Hp. unfold Server.confirm_branch, bind. rewrite getPending_empty by exact Hp.
  reflexivity.
Qed.


Lemma provider_name (prov : option jval) :
  (is_str prov "google" || is_str prov "microsoft") = true ->
  (if is_str prov "google" then "google" else "microsoft") = js_String_opt prov.
Proof.
  destruct prov as [[]|]; simpl; try discriminate.
  destruct (String.eqb_spec s "google") as [->|_]; [reflexivity|].
  destruct (String.eqb_spec s "microsoft") as [->|_]; [reflexivity|discriminate].
Qed.

Lemma confirm_execute (st : server_state) (uid cmd : string) (p : jval) (e : env) :
  pendingActions st !! uid = Some p -> ChatView.fresh (now e) p ->
  truthy (ChatView.access_token st uid p) = true ->
  ChatView.confirmation_phrase (get (Some p) "type") = Some cmd ->
  (is_str (get (Some p) "provider") "google" || is_str (get (Some p) "provider") "microsoft") = true ->
  adapter_ok e = true ->
  exists r, Server.confirm_branch uid cmd e st =
    (Server.set_pending_map st (delete uid (pendingActions st)),
     [ChatView.adapter_call cmd (js_String_opt (get (Some p) "provider"))
        (ChatView.access_token st uid p) (get (Some p) "payload")], r).
Proof.
  intros Hp Hf Htok Hty Hprov Hok.
  unfold Server.confirm_branch, bind at 1. rewrite (getPending_fresh st uid (now e) p Hp Hf).
  unfold ChatView.access_token in Htok |- *.
  unfold bind at 1, get_state. rewrite Htok. simpl negb. cbv iota beta.
  rewrite Hprov, Hok, (provider_name _ Hprov).
  unfold ChatView.confirmation_phrase in Hty.
  destruct Hf as (fs & ts & -> & _ & _). cbn [get] in *.
  destruct (is_str (obj_get fs "type") "email") eqn:He.
  - injection Hty as <-. simpl. unfold ChatView.adapter_call. simpl.
    destruct (obj_get fs "payload") as [[]|]; eexists; reflexivity.
  - destruct (is_str (obj_get fs "type") "event") eqn:Hv; [|discriminate].
    injection Hty as <-. simpl. unfold ChatView.adapter_call. simpl.
    destruct (obj_get fs "payload") as [[]|]; eexists; reflexivity.
Qed.


Lemma getPending_cases (st : server_state) (uid : string) (t : Z) :
  (exists s', Server.getPending uid t st = (s', [], Ok None)) \/
  (exists p, pendingActions st !! uid = Some p /\ Server.getPending uid t st = (st, [], Ok (Some p))).
Proof.
  unfold Server.getPending. destruct (pendingActions st !! uid) as [p|] eqn:Hp;
    [|left; eexists; reflexivity].
  destruct (truthy (Some p)); simpl negb; cbv iota beta; [|left; eexists; reflexivity].
  destruct (get (Some p) "ts") as [[]|]; try (right; eexists; split; [reflexivity|reflexivity]).
  destruct (Z.gtb _ _); [left; eexists; reflexivity|right; eexists; split; reflexivity].
Qed.

Lemma confirm_not_connected (st : server_state) (uid cmd : string) (p : jval) (e : env) :
  pendingActions st !! uid = Some p -> ChatView.fresh (now e) p ->
  truthy (ChatView.access_token st uid p) = false ->
  Server.confirm_branch uid cmd e st =
    (Server.set_pending_map st (delete uid (pendingActions st)), [],
     Ok (RespErr 400 "not_connected")).
Proof.
  intros Hp Hf Htok.
  unfold Server.confirm_branch, bind at 1. rewrite (getPending_fresh st uid (now e) p Hp Hf).
  unfold ChatView.access_token in Htok.
  unfold bind at 1, get_state. rewrite Htok. reflexivity.
Qed.

Lemma confirm_mismatch (st : server_state) (uid cmd : string) (p : jval) (e : env) :
  pendingActions st !! uid = Some p -> ChatView.fresh (now e) p ->
  truthy (ChatView.access_token st uid p) = true ->
  cmd = "send it" \/ cmd = "create it" ->
  ChatView.confirmation_phrase (get (Some p) "type") <> Some cmd ->
  Server.confirm_branch uid cmd e st =
    (st, [], Ok (RespOk (if String.eqb cmd "send it" then Server.not_email_text
                         else Server.not_event_text))).
Proof.
  intros Hp Hf Htok Hcmd Hty.
  unfold Server.confirm_branch, bind at 1. rewrite (getPending_fresh st uid (now e) p Hp Hf).
  unfold ChatView.access_token in Htok.
  unfold bind at 1, get_state. rewrite Htok. simpl negb. cbv iota beta.
  unfold ChatView.confirmation_phrase in Hty.
  destruct Hf as (fs & ts & -> & _). cbn [get] in *.
  destruct Hcmd as [-> | ->]; simpl.
  - destruct (is_str (obj_get fs "type") "email"); [|reflexivity].
    exfalso. apply Hty. reflexivity.
  - destruct (is_str (obj_get fs "type") "event") eqn:Hv; [|reflexivity].
    exfalso. apply Hty. destruct (obj_get fs "type") as [[]|]; try discriminate.
    simpl in Hv |- *. apply String.eqb_eq in Hv. subst. reflexivity.
Qed.

Ltac no_effects := split; [constructor|intros Hx; inversion Hx].

Lemma confirm_branch_effects (st : server_state) (uid cmd : string) (e : env) :
  cmd = "send it" \/ cmd = "create it" ->
  let '(_, effs, _) := Server.confirm_branch uid cmd e st in
  Forall (fun x => is_llm_call x = false) effs /\
  (Exists (fun x => is_mutation x = true) effs ->
   exists p, pendingActions st !! uid = Some p /\
             ChatView.confirmation_phrase (get (Some p) "type") = Some cmd).
Proof.
  intros Hcmd. unfold Server.confirm_branch, bind at 1.
  destruct (getPending_cases st uid (now e)) as [[s' ->]|[p [Hp ->]]].
  - simpl. no_effects.
  - unfold bind at 1, get_state. cbv iota beta.
    destruct (truthy _); simpl negb; cbv iota beta; [|simpl; no_effects].
    destruct p as [| | | | |fs]; [destruct Hcmd as [-> | ->]; simpl; no_effects ..|].
    cbn [get]. unfold ChatView.confirmation_phrase. cbn [get].
    destruct Hcmd as [-> | ->]; simpl.
    + destruct (is_str (obj_get fs "type") "email") eqn:He; simpl; [|no_effects].
      destruct (_ || _); simpl; [|no_effects].
      destruct (adapter_ok e); simpl;
        [destruct (obj_get fs "payload") as [[]|]; simpl|].
      all: (split; [apply Forall_cons; [reflexivity|apply Forall_nil]|intros _; exists (JObj fs); split; [exact Hp|]]).
      all: cbn [get]; rewrite He; reflexivity.
    + destruct (is_str (obj_get fs "type") "event") eqn:Hv; simpl; [|no_effects].
      destruct (_ || _); simpl; [|no_effects].
      destruct (adapter_ok e); simpl;
        [destruct (obj_get fs "payload") as [[]|]; simpl|].
      all: (split; [apply Forall_cons; [reflexivity|apply Forall_nil]|intros _; exists (JObj fs); split; [exact Hp|]]).
      all: cbn [get]; destruct (is_str (obj_get fs "type") "email") eqn:He; rewrite ?Hv;
        [|reflexivity].
      all: exfalso; destruct (obj_get fs "type") as [[]|]; try discriminate;
        simpl in Hv, He; apply String.eqb_eq in Hv, He; congruence.
Qed.


Lemma effects_bind {S A B} (m : M S A) (k : A -> M S B) (s : S) :
  effects_of (bind m k s) =
    match m s with
    | (s1, e1, Ok a) => app e1 (effects_of (k a s1))
    | (_, e1, Throw _) => e1
    end.
Proof.
  unfold bind. destruct (m s) as [[s1 e1] [a|msg]]; [|reflexivity].
  destruct (k a s1) as [[s2 e2] r]. reflexivity.
Qed.

Lemma quiet_bind {S A B} (m : M S A) (k : A -> M S B) :
  quiet m -> (forall a, quiet (k a)) -> quiet (bind m k).
Proof.
  intros Hm Hk s. rewrite effects_bind. specialize (Hm s).
  destruct (m s) as [[s1 e1] [a|msg]]; [|exact Hm].
  apply Forall_app. split; [exact Hm|apply Hk].
Qed.

Lemma quiet_ret {S A} (a : A) : quiet (S:=S) (ret a).
Proof. intros s. constructor. Qed.

Lemma quiet_throw {S A} (msg : string) : quiet (S:=S) (A:=A) (throw msg).
Proof. intros s. constructor. Qed.

Lemma quiet_get_state {S} : quiet (S:=S) get_state.
Proof. intros s. constructor. Qed.

Lemma quiet_modify {S} (f : S -> S) : quiet (modify f).
Proof. intros s. constructor. Qed.

Lemma quiet_emit {S} (es : list effect) :
  Forall (fun x => is_mutation x = false) es -> quiet (S:=S) (emit es).
Proof. intros H s. exact H. Qed.

Lemma quiet_member {S} (o : option jval) (k : string) : quiet (S:=S) (member o k).
Proof. intros s. destruct o as [[]|]; constructor. Qed.

Lemma quiet_call_provider {S} (x : effect) (ok : bool) (result : jval) :
  is_mutation x = false -> quiet (S:=S) (call_provider x ok result).
Proof. intros H s. repeat constructor. exact H. Qed.

Lemma quiet_catch {S A} (m : M S A) (h : string -> M S A) :
  quiet m -> (forall msg, quiet (h msg)) -> quiet (catch m h).
Proof.
  intros Hm Hh s. unfold catch. specialize (Hm s).
  destruct (m s) as [[s1 e1] [a|msg]]; [exact Hm|].
  specialize (Hh msg s1). destruct (h msg s1) as [[s2 e2] r].
  apply Forall_app. split; assumption.
Qed.

Lemma quiet_db_read {A} (f : Firestore.db -> res A) : quiet (V7.db_read f).
Proof. intros s. constructor. Qed.

Lemma quiet_db_write (f : Firestore.db -> res Firestore.db) : quiet (V7.db_write f).
Proof. intros s. unfold V7.db_write. destruct (f s); constructor. Qed.


Ltac quiet_step :=
  match goal with
  | |- quiet (bind _ _) => apply quiet_bind; [|intro]
  | |- quiet (catch _ _) => apply quiet_catch; [|intro]
  | |- quiet (emit _) => apply quiet_emit; repeat constructor
  | |- quiet (call_provider _ _ _) => apply quiet_call_provider; reflexivity
  | |- quiet (if ?b then _ else _) => destruct b
  | |- quiet (match ?x with _ => _ end) => destruct x
  | |- quiet _ => first [apply quiet_ret | apply quiet_throw | apply quiet_get_state
                        | apply quiet_modify | apply quiet_member | apply quiet_db_read
                        | apply quiet_db_write]
  end.

Lemma provider_context_quiet (uid : string) (e : env) : quiet (Server.provider_context uid e).
Proof. unfold Server.provider_context. repeat quiet_step. Qed.

Lemma store_tool_call_quiet (uid : string) (provider : jval) (e : env) (calls : list Server.call) :
  quiet (Server.store_tool_call uid provider e calls).
Proof. unfold Server.store_tool_call, Server.setPending. repeat quiet_step. Qed.

Lemma history_input_quiet (msgs : list jval) : quiet (Server.history_input msgs).
Proof. unfold Server.history_input. destruct (existsb _ _); [apply quiet_throw|apply quiet_ret]. Qed.

Lemma llm_branch_quiet (uid : string) (msgs : list jval) (e : env) :
  quiet (Server.llm_branch uid msgs e).
Proof.
  unfold Server.llm_branch. apply quiet_bind; [apply provider_context_quiet|intros provider].
  apply quiet_bind; [apply history_input_quiet|intros _].
  apply quiet_bind; [apply quiet_emit; repeat constructor|intros _].
  destruct (openai e); [|apply quiet_throw].
  apply quiet_bind; [apply store_tool_call_quiet|intros _]. apply quiet_ret.
Qed.

Lemma getGoogleAuthForUid_quiet (uid : string) : quiet (V7.getGoogleAuthForUid uid).
Proof. unfold V7.getGoogleAuthForUid. repeat quiet_step. Qed.

Lemma dispatchToolCall_quiet (e : env7) (uid : string) (name args : option jval) :
  quiet (V7.dispatchToolCall e uid name args).
Proof.
  unfold V7.dispatchToolCall, V7.store_pending.
  apply quiet_bind; [apply getGoogleAuthForUid_quiet|intros ga]. repeat quiet_step.
Qed.


Lemma tool_calls_of_quiet (resp : jval) : quiet (V7.tool_calls_of resp).
Proof.
  unfold V7.tool_calls_of. destruct (js_or _ _) as [[]|]; try apply quiet_throw;
    try apply quiet_ret.
  induction l as [|item rest IH]; cbn [fold_right]; [apply quiet_ret|].
  apply quiet_bind; [exact IH|intros tcs].
  apply quiet_bind; [apply quiet_member|intros ty]. apply quiet_ret.
Qed.

Lemma fold_left_quiet {S A B} (f : M S A -> B -> M S A) (l : list B) (acc : M S A) :
  (forall acc b, quiet acc -> quiet (f acc b)) -> quiet acc -> quiet (fold_left f l acc).
Proof.
  intros Hf. revert acc. induction l as [|b rest IH]; intros acc Hacc; simpl; [exact Hacc|].
  apply IH, Hf, Hacc.
Qed.

Lemma run_tool_calls_quiet (e : env7) (uid : string) (tcs : list jval) :
  quiet (V7.run_tool_calls e uid tcs).
Proof.
  unfold V7.run_tool_calls. apply fold_left_quiet; [|apply quiet_ret].
  intros acc tc Hacc. apply quiet_bind; [exact Hacc|intros _].
  apply quiet_bind; [|intros _; apply quiet_ret].
  apply quiet_catch; [apply dispatchToolCall_quiet|intros msg; apply quiet_ret].
Qed.


Lemma tool_loop_quiet (e : env7) (uid : string) (fuel step : nat) :
  quiet (V7.tool_loop e uid fuel step).
Proof.
  revert step. induction fuel as [|fuel IH]; intros step; cbn [V7.tool_loop]; [apply quiet_ret|].
  repeat (quiet_step || apply run_tool_calls_quiet || apply tool_calls_of_quiet || apply IH).
Qed.


Lemma getGoogleAuthForUid_state (uid : string) (d : Firestore.db) :
  exists r, V7.getGoogleAuthForUid uid d = (d, [], r).
Proof.
  unfold V7.getGoogleAuthForUid, bind, V7.db_read.
  destruct (UserStore.getProviderTokens d uid "google") as [[t|]|msg]; simpl.
  - destruct (truthy _); eexists; reflexivity.
  - eexists; reflexivity.
  - eexists; reflexivity.
Qed.

Lemma dispatchToolCall_state (e : env7) (uid : string) (name args : option jval) (d : Firestore.db) :
  let '(d', _, _) := V7.dispatchToolCall e uid name args d in
  d' = d \/ exists a, UserStore.setPendingAction d uid a (now7 e) = Ok d'.
Proof.
  unfold V7.dispatchToolCall. unfold bind at 1.
  destruct (getGoogleAuthForUid_state uid d) as [r ->].
  destruct r as [[err|auth]|msg]; [left; reflexivity| |left; reflexivity].
  unfold V7.store_pending, V7.db_write, call_provider, bind, ret.
  repeat (case_match; simplify_eq/=); eauto.
Qed.


Lemma quiet_no_mutation {S A} (m : M S A) (s : S) :
  quiet m -> ~ Exists (fun x => is_mutation x = true) (effects_of (m s)).
Proof.
  intros Hq Hex. specialize (Hq s). apply Exists_exists in Hex as (x & Hin & Hx).
  rewrite Forall_forall in Hq. specialize (Hq x Hin). congruence.
Qed.

Lemma mutation_in_head {S A B} (m : M S A) (k : A -> M S B) (s : S) :
  (forall a, quiet (k a)) ->
  Exists (fun x => is_mutation x = true) (effects_of (bind m k s)) ->
  Exists (fun x => is_mutation x = true) (effects_of (m s)).
Proof.
  intros Hk Hex. rewrite effects_bind in Hex.
  destruct (m s) as [[s1 e1] [a|msg]]; [|exact Hex].
  apply Exists_app in Hex as [Hex|Hex]; [exact Hex|].
  exfalso. exact (quiet_no_mutation (k a) s1 (Hk a) Hex).
Qed.

Lemma executePendingAction_mutation (e : env7) (uid c : string) (d : Firestore.db) :
  Exists (fun x => is_mutation x = true) (effects_of (V7.executePendingAction e uid c d)) ->
  exists p, UserStore.getPendingAction d uid = Ok (Some p) /\
            ChatView.v7_matches c (get (Some p) "type") = true.
Proof.
  unfold V7.executePendingAction. unfold bind at 1, V7.db_read.
  destruct (UserStore.getPendingAction d uid) as [[p|]|msg]; cbv iota beta;
    [|simpl; intros Hx; inversion Hx ..].
  unfold ChatView.v7_matches.
  destruct (String.eqb c "send" && is_str (get (Some p) "type") "send_email") eqn:H1;
    [intros _; exists p; split; [reflexivity|rewrite H1; reflexivity]|].
  destruct (String.eqb c "create" && is_str (get (Some p) "type") "create_calendar_event") eqn:H2;
    [intros _; exists p; split; [reflexivity|rewrite H1, H2; reflexivity]|].
  destruct (String.eqb c "delete" && is_str (get (Some p) "type") "delete_calendar_event") eqn:H3;
    [intros _; exists p; split; [reflexivity|rewrite H1, H2, H3; reflexivity]|].
  simpl. intros Hx; inversion Hx.
Qed.

Lemma runChatWithTools_mutation (e : env7) (uid text : string) (d : Firestore.db) :
  Exists (fun x => is_mutation x = true) (effects_of (V7.runChatWithTools e uid text d)) ->
  exists c p, V7.normalizeConfirm text = Some c /\
              UserStore.getPendingAction d uid = Ok (Some p) /\
              ChatView.v7_matches c (get (Some p) "type") = true.
Proof.
  unfold V7.runChatWithTools. intros Hex.
  apply mutation_in_head in Hex;
    [|intros early; destruct early; [apply quiet_ret|apply tool_loop_quiet]].
  destruct (V7.normalizeConfirm text) as [c|]; [|simpl in Hex; inversion Hex].
  apply mutation_in_head in Hex; [|intros executed; repeat quiet_step].
  apply executePendingAction_mutation in Hex as (p & Hp & Hm).
  exists c, p. auto.
Qed.

Lemma v7_chat_mutation (d : Firestore.db) (body : option jval) (e : env7) :
  Exists (fun x => is_mutation x = true) (effects_of (V7.chat d body e)) ->
  exists c p,
    V7.normalizeConfirm (js_String (or_val (get body "message") (JStr ""))) = Some c /\
    UserStore.getPendingAction d (js_String (or_val (get body "uid") (JStr ""))) = Ok (Some p) /\
    ChatView.v7_matches c (get (Some p) "type") = true.
Proof.
  unfold V7.chat. cbv zeta.
  destruct (String.eqb _ "") ; [simpl; intros Hx; inversion Hx|].
  destruct (String.eqb _ "") ; [simpl; intros Hx; inversion Hx|].
  intros Hex. apply (runChatWithTools_mutation e _ _ d).
  destruct (V7.runChatWithTools _ _ _ d) as [[d' effs] [t|msg]]; exact Hex.
Qed.

Lemma effects_of_chat (st : server_state) (uid : string) (body : option jval) (e : env) :
  effects_of (Server.chat st uid body e) = effects_of (Server.chat_body uid body e st).
Proof.
  unfold Server.chat. destruct (Server.chat_body uid body e st) as [[s' effs] [r|m]]; reflexivity.
Qed.

Lemma server_chat_mutation (st : server_state) (uid : string) (body : option jval) (e : env) :
  Exists (fun x => is_mutation x = true) (effects_of (Server.chat st uid body e)) ->
  exists msgs p,
    get (js_or body (Some (JObj []))) "messages" = Some (JArr msgs) /\
    pendingActions st !! uid = Some p /\
    ChatView.confirmation_phrase (get (Some p) "type") = Some (ChatView.last_command msgs).
Proof.
  rewrite effects_of_chat. unfold Server.chat_body.
  destruct (get (js_or body (Some (JObj []))) "messages") as [[| | | |msgs|]|];
    try solve [simpl; intros Hx; inversion Hx].
  fold (ChatView.last_command msgs).
  destruct (String.eqb_spec (ChatView.last_command msgs) "send it") as [Hc|Hc];
    [|destruct (String.eqb_spec (ChatView.last_command msgs) "create it") as [Hc'|Hc']].
  - simpl. intros Hex.
    pose proof (confirm_branch_effects st uid (ChatView.last_command msgs) e (or_introl Hc)) as H.
    destruct (Server.confirm_branch uid _ e st) as [[s' effs] r].
    destruct H as [_ H]. destruct (H Hex) as (p & Hp & Hty). exists msgs, p. auto.
  - rewrite orb_true_r. intros Hex.
    pose proof (confirm_branch_effects st uid (ChatView.last_command msgs) e (or_intror Hc')) as H.
    destruct (Server.confirm_branch uid _ e st) as [[s' effs] r].
    destruct H as [_ H]. destruct (H Hex) as (p & Hp & Hty). exists msgs, p. auto.
  - simpl. intros Hex. exfalso. exact (quiet_no_mutation _ st (llm_branch_quiet uid msgs e) Hex).
Qed.

Lemma confirmation_phrase_cases (ty : option jval) (cmd : string) :
  ChatView.confirmation_phrase ty = Some cmd -> cmd = "send it" \/ cmd = "create it".
Proof.
  unfold ChatView.confirmation_phrase.
  destruct (is_str ty "email"); [intros [= <-]; auto|].
  destruct (is_str ty "event"); [intros [= <-]; auto|discriminate].
Qed.











(* ================================================================== *)
(** * The claims *)

(** C1 (corrected): when [uid] has a pending action that [getPending] sees as
    unexpired, whose provider is google or microsoft, and the last message
    normalizes to the phrase of its type ("send it" for an email, "create it"
    for an event): if an access token is stored for its provider and the
    adapter call succeeds, the request makes exactly one adapter call,
    carrying the pending payload, and leaves the slot empty, and the
    identical request sent next makes no call and answers that nothing is
    pending; if no access token is stored, the request makes no call at all,
    answers 400 not_connected and leaves the slot empty. *)
Theorem confirmation_executes_once (st : server_state) (uid : string) (p : jval)
        (msgs : list jval) (e e2 : env) :
  pendingActions st !! uid = Some p ->
  ChatView.fresh (now e) p ->
  ChatView.confirmation_phrase (get (Some p) "type") = Some (ChatView.last_command msgs) ->
  (is_str (get (Some p) "provider") "google" || is_str (get (Some p) "provider") "microsoft") = true ->
  let '(st1, effs1, r1) := Server.chat st uid (ChatView.request msgs) e in
  (truthy (ChatView.access_token st uid p) = true -> adapter_ok e = true ->
   effs1 = [ChatView.adapter_call (ChatView.last_command msgs)
              (js_String_opt (get (Some p) "provider"))
              (ChatView.access_token st uid p) (get (Some p) "payload")] /\
   pendingActions st1 !! uid = None /\
   Server.chat st1 uid (ChatView.request msgs) e2 = (st1, [], RespOk Server.nothing_pending_text)) /\
  (truthy (ChatView.access_token st uid p) = false ->
   effs1 = [] /\ r1 = RespErr 400 "not_connected" /\ pendingActions st1 !! uid = None).
Proof.
  intros Hp Hf Hty Hprov.
  pose proof (confirmation_phrase_cases _ _ Hty) as Hcmd.
  rewrite (chat_confirm st uid msgs e Hcmd).
  assert (Hnone : pendingActions (Server.set_pending_map st (delete uid (pendingActions st))) !! uid
                  = None) by apply lookup_delete_eq.
  destruct (truthy (ChatView.access_token st uid p)) eqn:Htok.
  - destruct (adapter_ok e) eqn:Hok.
    + destruct (confirm_execute st uid (ChatView.last_command msgs) p e Hp Hf Htok Hty Hprov Hok)
        as [r ->].
      assert (Hsecond : Server.chat (Server.set_pending_map st (delete uid (pendingActions st))) uid
                          (ChatView.request msgs) e2 =
                        (Server.set_pending_map st (delete uid (pendingActions st)), [],
                         RespOk Server.nothing_pending_text)).
      { rewrite (chat_confirm _ uid msgs e2 Hcmd), confirm_nothing_pending by exact Hnone.
        reflexivity. }
      destruct r; (split; [intros _ _; repeat split; assumption|intros; discriminate]).
    + destruct (Server.confirm_branch uid _ e st) as [[s' effs] [r|m]];
        split; intros; discriminate.
  - rewrite (confirm_not_connected st uid _ p e Hp Hf Htok).
    split; [intros; discriminate|intros _; split; [reflexivity|split; [reflexivity|exact Hnone]]].
Qed.

Lemma confirmation_executes_once_witness :
  let st := mkServer {[ "u1" := Scenarios.pending_email ]} ∅
              (MemTokens.setProviderTokens ∅ "u1" "google" (JObj [("access_token", JStr "tok")]) 0) in
  let msgs := [Scenarios.user_msg (Scenarios.nbsp ++ "Send it")] in
  let '(st1, effs1, r1) := Server.chat st "u1" (ChatView.request msgs) Scenarios.env0 in
  (truthy (ChatView.access_token st "u1" Scenarios.pending_email) = true ->
   adapter_ok Scenarios.env0 = true ->
   effs1 = [ChatView.adapter_call (ChatView.last_command msgs)
              (js_String_opt (get (Some Scenarios.pending_email) "provider"))
              (ChatView.access_token st "u1" Scenarios.pending_email)
              (get (Some Scenarios.pending_email) "payload")] /\
   pendingActions st1 !! "u1" = None /\
   Server.chat st1 "u1" (ChatView.request msgs) Scenarios.env0
     = (st1, [], RespOk Server.nothing_pending_text)) /\
  (truthy (ChatView.access_token st "u1" Scenarios.pending_email) = false ->
   effs1 = [] /\ r1 = RespErr 400 "not_connected" /\ pendingActions st1 !! "u1" = None).
Proof.
  intros st msgs.
  apply (confirmation_executes_once st "u1" Scenarios.pending_email msgs
           Scenarios.env0 Scenarios.env0).
  - reflexivity.
  - exists [("ts", JNum 0); ("type", JStr "email"); ("provider", JStr "google");
            ("payload", Scenarios.email_payload)], 0%Z.
    split; [reflexivity|split; [reflexivity|vm_compute; discriminate]].
  - vm_compute. reflexivity.
  - reflexivity.
Defined.

(** Counterexample to C1 as stated: a matching, unexpired pending email and no
    stored token: "Send it" makes no adapter call and answers 400. *)
Lemma confirmation_without_token_counterexample :
  let '(st1, effs, r) :=
    Server.chat (Scenarios.with_pending Scenarios.pending_email) "u1"
      (ChatView.request [Scenarios.user_msg "Send it"]) Scenarios.env0 in
  ChatView.fresh (now Scenarios.env0) Scenarios.pending_email /\
  ChatView.confirmation_phrase (get (Some Scenarios.pending_email) "type")
    = Some (ChatView.last_command [Scenarios.user_msg "Send it"]) /\
  effs = [] /\ r = RespErr 400 "not_connected".
Proof.
  vm_compute. split; [|split; [reflexivity|split; reflexivity]].
  eexists _, 0%Z. split; [reflexivity|split; [reflexivity|discriminate]].
Qed.

(** C3 (corrected): with an unexpired pending action and a message
    normalizing to "send it" or "create it" that is not the phrase of the
    pending type: if an access token is stored for its provider, the handler
    makes no call at all (no adapter call), answers with the clarifying text,
    and leaves the whole state, the pending slot included, as it was; if no
    access token is stored, it makes no call, answers 400 not_connected and
    empties the slot. *)
Theorem mismatch_keeps_pending (st : server_state) (uid : string) (p : jval)
        (msgs : list jval) (e : env) :
  pendingActions st !! uid = Some p ->
  ChatView.fresh (now e) p ->
  ChatView.last_command msgs = "send it" \/ ChatView.last_command msgs = "create it" ->
  ChatView.confirmation_phrase (get (Some p) "type") <> Some (ChatView.last_command msgs) ->
  (truthy (ChatView.access_token st uid p) = true ->
   Server.chat st uid (ChatView.request msgs) e =
     (st, [], RespOk (if String.eqb (ChatView.last_command msgs) "send it"
                      then Server.not_email_text else Server.not_event_text))) /\
  (truthy (ChatView.access_token st uid p) = false ->
   let '(st1, effs1, r1) := Server.chat st uid (ChatView.request msgs) e in
   effs1 = [] /\ r1 = RespErr 400 "not_connected" /\ pendingActions st1 !! uid = None).
Proof.
  intros Hp Hf Hcmd Hty.
  rewrite (chat_confirm st uid msgs e Hcmd). split; intros Htok.
  - rewrite (confirm_mismatch st uid (ChatView.last_command msgs) p e Hp Hf Htok Hcmd Hty).
    reflexivity.
  - rewrite (confirm_not_connected st uid _ p e Hp Hf Htok).
    split; [reflexivity|split; [reflexivity|apply lookup_delete_eq]].
Qed.

Lemma mismatch_keeps_pending_witness :
  let st := mkServer {[ "u1" := Scenarios.pending_event ]} ∅
              (MemTokens.setProviderTokens ∅ "u1" "google" (JObj [("access_token", JStr "tok")]) 0) in
  let msgs := [Scenarios.user_msg ("Send it" ++ Scenarios.nbsp)] in
  (truthy (ChatView.access_token st "u1" Scenarios.pending_event) = true ->
   Server.chat st "u1" (ChatView.request msgs) Scenarios.env0 =
     (st, [], RespOk (if String.eqb (ChatView.last_command msgs) "send it"
                      then Server.not_email_text else Server.not_event_text))) /\
  (truthy (ChatView.access_token st "u1" Scenarios.pending_event) = false ->
   let '(st1, effs1, r1) := Server.chat st "u1" (ChatView.request msgs) Scenarios.env0 in
   effs1 = [] /\ r1 = RespErr 400 "not_connected" /\ pendingActions st1 !! "u1" = None).
Proof.
  intros st msgs.
  apply (mismatch_keeps_pending st "u1" Scenarios.pending_event msgs Scenarios.env0).
  - reflexivity.
  - eexists _, 0%Z. split; [reflexivity|split; [reflexivity|vm_compute; discriminate]].
  - left. vm_compute. reflexivity.
  - vm_compute. discriminate.
Defined.

(** Counterexample to C3 as stated: a pending event, no token, "Send it": the
    slot is cleared and the answer is 400, not a clarifying message. *)
Lemma mismatch_without_token_counterexample :
  let '(st1, effs, r) :=
    Server.chat (Scenarios.with_pending Scenarios.pending_event) "u1"
      (ChatView.request [Scenarios.user_msg "Send it"]) Scenarios.env0 in
  pendingActions (Scenarios.with_pending Scenarios.pending_event) !! "u1"
    = Some Scenarios.pending_event /\
  pendingActions st1 !! "u1" = None /\ effs = [] /\ r = RespErr 400 "not_connected".
Proof. vm_compute. repeat split. Qed.






(** C10: when the phrase matches an unexpired pending action but no access
    token is stored for its provider, the handler makes no call, answers 400
    not_connected and clears the slot; after tokens for that provider are
    stored, the same request answers that nothing is pending, with no call. *)
Theorem not_connected_clears_pending (st : server_state) (uid : string) (p : jval)
        (msgs : list jval) (e e2 : env) (tokens : jval) (t : Z) :
  pendingActions st !! uid = Some p ->
  ChatView.fresh (now e) p ->
  ChatView.last_command msgs = "send it" \/ ChatView.last_command msgs = "create it" ->
  truthy (ChatView.access_token st uid p) = false ->
  let '(st1, effs1, r1) := Server.chat st uid (ChatView.request msgs) e in
  effs1 = [] /\ r1 = RespErr 400 "not_connected" /\ pendingActions st1 !! uid = None /\
  let st2 := ChatView.reconnect st1 uid (js_String_opt (get (Some p) "provider")) tokens t in
  Server.chat st2 uid (ChatView.request msgs) e2 = (st2, [], RespOk Server.nothing_pending_text).
Proof.
  intros Hp Hf Hcmd Htok.
  rewrite (chat_confirm st uid msgs e Hcmd), (confirm_not_connected st uid _ p e Hp Hf Htok).
  assert (Hnone : pendingActions (Server.set_pending_map st (delete uid (pendingActions st))) !! uid
                  = None) by apply lookup_delete_eq.
  split; [reflexivity|split; [reflexivity|split; [exact Hnone|]]].
  intros st2. rewrite (chat_confirm st2 uid msgs e2 Hcmd), confirm_nothing_pending by exact Hnone.
  reflexivity.
Qed.

Lemma not_connected_clears_pending_witness :
  let '(st1, effs1, r1) := Server.chat (Scenarios.with_pending Scenarios.pending_email) "u1"
                             (ChatView.request [Scenarios.user_msg "Send it."]) Scenarios.env0 in
  effs1 = [] /\ r1 = RespErr 400 "not_connected" /\ pendingActions st1 !! "u1" = None /\
  let st2 := ChatView.reconnect st1 "u1" "google" (JObj [("access_token", JStr "tok")]) 2000 in
  Server.chat st2 "u1" (ChatView.request [Scenarios.user_msg "Send it."]) Scenarios.env0
    = (st2, [], RespOk Server.nothing_pending_text).
Proof.
  apply (not_connected_clears_pending _ "u1" Scenarios.pending_email _ Scenarios.env0 Scenarios.env0
           (JObj [("access_token", JStr "tok")]) 2000).
  - reflexivity.
  - eexists _, 0%Z. split; [reflexivity|split; [reflexivity|vm_compute; discriminate]].
  - left. vm_compute. reflexivity.
  - vm_compute. reflexivity.
Defined.

(** C2 (corrected): server.js offers only the two [propose_] tools and
    performs a provider mutation only for a confirmation phrase matching the
    type of an existing pending action; in the v7 server, handling any tool
    call performs no provider mutation and changes the store only by storing
    a pending action, and a chat performs a mutation only when its message is
    a confirmation whose kind matches the stored pending action. *)
Theorem mutations_only_after_confirmation :
  Forall (fun t => String.prefix "propose_" (tool_name t) = true) Server.tools /\
  (forall st uid body e,
     Exists (fun x => is_mutation x = true) (effects_of (Server.chat st uid body e)) ->
     exists msgs p,
       get (js_or body (Some (JObj []))) "messages" = Some (JArr msgs) /\
       pendingActions st !! uid = Some p /\
       ChatView.confirmation_phrase (get (Some p) "type") = Some (ChatView.last_command msgs)) /\
  (forall e uid name args, quiet (V7.dispatchToolCall e uid name args)) /\
  (forall e uid name args d,
     let '(d', _, _) := V7.dispatchToolCall e uid name args d in
     d' = d \/ exists a, UserStore.setPendingAction d uid a (now7 e) = Ok d') /\
  (forall d body e,
     Exists (fun x => is_mutation x = true) (effects_of (V7.chat d body e)) ->
     exists c p,
       V7.normalizeConfirm (js_String (or_val (get body "message") (JStr ""))) = Some c /\
       UserStore.getPendingAction d (js_String (or_val (get body "uid") (JStr ""))) = Ok (Some p) /\
       ChatView.v7_matches c (get (Some p) "type") = true).
Proof.
  split; [repeat constructor|].
  split; [exact server_chat_mutation|].
  split; [exact dispatchToolCall_quiet|].
  split; [exact dispatchToolCall_state|].
  exact v7_chat_mutation.
Qed.

Lemma mutations_only_after_confirmation_witness :
  (exists msgs p,
     get (js_or (ChatView.request [Scenarios.user_msg "Send it"]) (Some (JObj []))) "messages"
       = Some (JArr msgs) /\
     pendingActions (mkServer {[ "u1" := Scenarios.pending_email ]} ∅
       (MemTokens.setProviderTokens ∅ "u1" "google" (JObj [("access_token", JStr "tok")]) 0))
       !! "u1" = Some p /\
     ChatView.confirmation_phrase (get (Some p) "type") = Some (ChatView.last_command msgs)) /\
  (exists c p,
     V7.normalizeConfirm (js_String (or_val (get (Scenarios.v7_request "Create it") "message")
                                           (JStr ""))) = Some c /\
     UserStore.getPendingAction Scenarios.after_two_proposals
       (js_String (or_val (get (Scenarios.v7_request "Create it") "uid") (JStr "")))
       = Ok (Some p) /\
     ChatView.v7_matches c (get (Some p) "type") = true).
Proof.
  split.
  - apply (proj1 (proj2 mutations_only_after_confirmation) _ "u1" _ Scenarios.env0).
    vm_compute. left. reflexivity.
  - apply (proj2 (proj2 (proj2 (proj2 mutations_only_after_confirmation))) _ _ Scenarios.env7_0).
    vm_compute. left. reflexivity.
Defined.

(** Counterexample to C2 as stated: the v7 tool list offers non-proposal
    tools, and a [list_last_emails] call reads mail and stores nothing. *)
Lemma v7_offers_direct_tools_counterexample :
  In "send_email" (map tool_name V7.buildTools) /\
  In "list_last_emails" (map tool_name V7.buildTools) /\
  V7.dispatchToolCall Scenarios.env7_0 "u1" (Some (JStr "list_last_emails")) (Some (JObj []))
    Scenarios.connected_db =
  (Scenarios.connected_db, [EFetchMail "google"],
   Ok (JObj [("ok", JBool true); ("emails", JObj [])])).
Proof. vm_compute. split; [tauto|split; [tauto|reflexivity]]. Qed.

(** C5 (code bug): proposing A (with a location) and then B (without one)
    leaves a pending action that still carries A's location, in tokenStore.js
    and in the v7 flow, whose confirmation creates B's event at A's location. *)
Theorem pending_overwrite_merges :
  (let* d1 := TokenStore.setPendingAction ∅ "u1" (Scenarios.action_of Scenarios.proposal_A) in
   let* d2 := TokenStore.setPendingAction d1 "u1" (Scenarios.action_of Scenarios.proposal_B) in
   TokenStore.getPendingAction d2 "u1") =
  Ok (Some (Scenarios.action_of
          (JObj [("summary", JStr "Lunch"); ("startISO", JStr "2026-10-21T12:00:00Z");
                 ("endISO", JStr "2026-10-21T13:00:00Z"); ("location", JStr "Clinic")]))) /\
  effects_of (V7.chat Scenarios.after_two_proposals (Scenarios.v7_request "Create it")
                Scenarios.env7_0) =
  [ECreateEvent "google" (Some Scenarios.google_cred)
     (Some (JObj [("summary", JStr "Lunch"); ("location", JStr "Clinic");
                  ("startISO", JStr "2026-10-21T12:00:00Z");
                  ("endISO", JStr "2026-10-21T13:00:00Z");
                  ("timezone", JStr "America/New_York")]))].
Proof. vm_compute. split; reflexivity. Qed.

(** C7: for all strings [to], [subject], [bodyText] (as UTF-8 bytes), the
    [raw] field that googleSendEmail posts has no '+', '/' or '=' and
    base64url-decodes to the MIME message with exactly that To header, that
    Subject header and that body. *)
Theorem googleSendEmail_raw_roundtrip (to subject bodyText : string) :
  exists enc,
    get (Some (Gmail.googleSendEmail_body
                 (JObj [("to", JStr to); ("subject", JStr subject); ("bodyText", JStr bodyText)])))
        "raw" = Some (JStr enc) /\
    Forall Gmail.url_safe (list_ascii_of_string enc) /\
    Gmail.decode_string enc =
      Some ("To: " ++ to ++ crlf ++ "Subject: " ++ subject ++ crlf ++
            "Content-Type: text/plain; charset=" ++ dq ++ "UTF-8" ++ dq ++ crlf ++
            "Content-Transfer-Encoding: 7bit" ++ crlf ++ crlf ++ bodyText ++ crlf).
Proof.
  eexists. split; [reflexivity|]. exact (base64UrlEncode_roundtrip _).
Qed.







(* ================================================================== *)
(** * Further properties of the handlers and stores *)
Lemma list_ascii_app (s t : string) :
  list_ascii_of_string (s ++ t) = app (list_ascii_of_string s) (list_ascii_of_string t).
Proof. induction s as [|c s IH]; simpl; [reflexivity|]. rewrite IH. reflexivity. Qed.

Lemma string_of_list_ascii_app (l r : list ascii) :
  string_of_list_ascii (app l r) = string_of_list_ascii l ++ string_of_list_ascii r.
Proof. induction l as [|c l IH]; simpl; [reflexivity|]. rewrite IH. reflexivity. Qed.

Lemma drop_while_app_all {A} (p : A -> bool) (xs l : list A) :
  Forall (fun x => p x = true) xs -> drop_while p (app xs l) = drop_while p l.
Proof. induction 1 as [|x xs Hx _ IH]; simpl; [reflexivity|]. rewrite Hx. exact IH. Qed.

Lemma strip_end_list (p : ascii -> bool) (s : string) :
  list_ascii_of_string (strip_end p s) = rstrip p (list_ascii_of_string s).
Proof. unfold strip_end. apply list_ascii_of_string_of_list_ascii. Qed.

Lemma lower_list (s : string) :
  list_ascii_of_string (toLowerCase s) = map lower_char (list_ascii_of_string s).
Proof. unfold toLowerCase. apply list_ascii_of_string_of_list_ascii. Qed.

Lemma rstrip_app_all (p : ascii -> bool) (l w : list ascii) :
  Forall (fun x => p x = true) w -> rstrip p (app l w) = rstrip p l.
Proof.
  intros Hw. unfold rstrip. rewrite rev_app_distr, drop_while_app_all; [reflexivity|].
  apply Forall_rev, Hw.
Qed.

Lemma punct_cases (c : ascii) :
  is_end_punct c = true -> c = "!"%char \/ c = "."%char \/ c = "?"%char.
Proof.
  destruct c as [[] [] [] [] [] [] [] []]; intros H; vm_compute in H;
    try discriminate H; vm_compute; auto.
Qed.

Lemma lower_punct (c : ascii) : is_end_punct c = true -> lower_char c = c.
Proof. intros H. destruct (punct_cases c H) as [E|[E|E]]; subst c; reflexivity. Qed.

Lemma string_eq_list (s t : string) : list_ascii_of_string s = list_ascii_of_string t -> s = t.
Proof.
  intros H. rewrite <- (string_of_list_ascii_of_string s), <- (string_of_list_ascii_of_string t).
  rewrite H. reflexivity.
Qed.

Lemma last_or_nil {A} (l : list A) : l = [] \/ exists z c, l = app z [c].
Proof.
  destruct l as [|x l]; [left; reflexivity|right].
  destruct (exists_last (l:=x :: l) ltac:(discriminate)) as (z & c & E). eauto.
Qed.

Lemma map_lower_punct (l : list ascii) :
  Forall (fun c => is_end_punct c = true) l -> map lower_char l = l.
Proof. induction 1 as [|c l Hc _ IH]; simpl; [reflexivity|]. rewrite lower_punct, IH by exact Hc. reflexivity. Qed.

Lemma list_strong_ind {A} (P : list A -> Prop) :
  (forall l, (forall l', length l' < length l -> P l') -> P l) -> forall l, P l.
Proof.
  intros H l. remember (length l) as n eqn:En. revert l En.
  induction n as [n IH] using lt_wf_ind. intros l ->. apply H.
  intros l' Hl'. exact (IH _ Hl' l' eq_refl).
Qed.

(** *** Stripping whitespace characters of one to three bytes *)
Section StripWs.
Variables (w1 : ascii -> bool) (w2 : ascii -> ascii -> bool) (w3 : ascii -> ascii -> ascii -> bool).

Lemma strip_ws_suffix (l : list ascii) : exists pre, l = app pre (strip_ws w1 w2 w3 l).
Proof.
  induction l as [l IH] using list_strong_ind.
  destruct l as [|a l1]; [exists []; reflexivity|]. simpl.
  destruct (w1 a).
  { destruct (IH l1) as (pre & E); [simpl; lia|]. exists (a :: pre). simpl. rewrite <- E. reflexivity. }
  destruct l1 as [|b l2]; [exists []; reflexivity|].
  destruct (w2 a b).
  { destruct (IH l2) as (pre & E); [simpl; lia|]. exists (a :: b :: pre). simpl. rewrite <- E. reflexivity. }
  destruct l2 as [|c l3]; [exists []; reflexivity|].
  destruct (w3 a b c); [|exists []; reflexivity].
  destruct (IH l3) as (pre & E); [simpl; lia|]. exists (a :: b :: c :: pre). simpl. rewrite <- E. reflexivity.
Qed.

Lemma strip_ws_length (l : list ascii) : length (strip_ws w1 w2 w3 l) <= length l.
Proof. destruct (strip_ws_suffix l) as (pre & E). rewrite E at 2. rewrite length_app. lia. Qed.

Lemma strip_ws_idem (l : list ascii) :
  strip_ws w1 w2 w3 (strip_ws w1 w2 w3 l) = strip_ws w1 w2 w3 l.
Proof.
  induction l as [l IH] using list_strong_ind. destruct l as [|a l1]; [reflexivity|].
  simpl. destruct (w1 a) eqn:H1; [apply IH; simpl; lia|].
  destruct l1 as [|b l2]; [simpl; rewrite H1; reflexivity|].
  destruct (w2 a b) eqn:H2; [apply IH; simpl; lia|].
  destruct l2 as [|c l3]; [simpl; rewrite H1, H2; reflexivity|].
  destruct (w3 a b c) eqn:H3; [apply IH; simpl; lia|].
  simpl. rewrite H1, H2, H3. reflexivity.
Qed.

(** a list made of recognised characters only disappears in front of any rest *)
Lemma strip_ws_app_all (l r : list ascii) :
  strip_ws w1 w2 w3 l = [] -> strip_ws w1 w2 w3 (app l r) = strip_ws w1 w2 w3 r.
Proof.
  induction l as [l IH] using list_strong_ind. intros Hl.
  destruct l as [|a l1]; [reflexivity|]. simpl in Hl |- *.
  destruct (w1 a) eqn:H1; [apply IH; [simpl; lia|exact Hl]|].
  destruct l1 as [|b l2]; [discriminate|]. simpl in Hl |- *.
  destruct (w2 a b) eqn:H2; [apply IH; [simpl; lia|exact Hl]|].
  destruct l2 as [|c l3]; [discriminate|]. simpl in Hl |- *.
  destruct (w3 a b c) eqn:H3; [apply IH; [simpl; lia|exact Hl]|discriminate].
Qed.

(** where stripping stops inside [l], a rest whose first byte cannot
    continue a character is kept as it is *)
Lemma strip_ws_app_stop (l r : list ascii) :
  (forall x r', r = x :: r' ->
     (forall a, w2 a x = false) /\ (forall a b, w3 a b x = false) /\ (forall a c, w3 a x c = false)) ->
  strip_ws w1 w2 w3 l <> [] -> strip_ws w1 w2 w3 (app l r) = app (strip_ws w1 w2 w3 l) r.
Proof.
  intros Hr. induction l as [l IH] using list_strong_ind. intros Hl.
  destruct l as [|a l1]; [contradiction|]. simpl in Hl |- *.
  destruct (w1 a) eqn:H1; [apply IH; [simpl; lia|exact Hl]|].
  destruct l1 as [|b l2].
  - simpl. destruct r as [|x r']; [reflexivity|].
    destruct (Hr x r' eq_refl) as (Hx2 & _ & Hx3). rewrite Hx2.
    destruct r' as [|c r'']; [reflexivity|]. rewrite Hx3. reflexivity.
  - simpl in Hl |- *. destruct (w2 a b) eqn:H2; [apply IH; [simpl; lia|exact Hl]|].
    destruct l2 as [|c l3].
    + simpl. destruct r as [|x r']; [reflexivity|].
      destruct (Hr x r' eq_refl) as (_ & Hx3 & _). rewrite Hx3. reflexivity.
    + simpl in Hl |- *. destruct (w3 a b c) eqn:H3; [apply IH; [simpl; lia|exact Hl]|].
      reflexivity.
Qed.

(** a prefix of a list that stripping leaves alone is left alone too *)
Lemma strip_ws_prefix (x y : list ascii) :
  strip_ws w1 w2 w3 (app x y) = app x y -> strip_ws w1 w2 w3 x = x.
Proof.
  intros H. destruct x as [|a x1]; [reflexivity|]. simpl in H.
  destruct (w1 a) eqn:H1.
  { exfalso. pose proof (strip_ws_length (app x1 y)) as L. rewrite H in L. simpl in L. lia. }
  destruct x1 as [|b x2]; [simpl; rewrite H1; reflexivity|]. simpl in H.
  destruct (w2 a b) eqn:H2.
  { exfalso. pose proof (strip_ws_length (app x2 y)) as L. rewrite H in L. simpl in L. lia. }
  destruct x2 as [|c x3]; [simpl; rewrite H1, H2; reflexivity|]. simpl in H.
  destruct (w3 a b c) eqn:H3.
  { exfalso. pose proof (strip_ws_length (app x3 y)) as L. rewrite H in L. simpl in L. lia. }
  simpl. rewrite H1, H2, H3. reflexivity.
Qed.

Lemma strip_ws_head_stop (a : ascii) (t : list ascii) :
  w1 a = false -> (forall b t', t = b :: t' -> w2 a b = false) ->
  (forall b c t', t = b :: c :: t' -> w3 a b c = false) ->
  strip_ws w1 w2 w3 (a :: t) = a :: t.
Proof.
  intros H1 H2 H3. simpl. rewrite H1. destruct t as [|b t]; [reflexivity|].
  rewrite (H2 b t eq_refl). destruct t as [|c t]; [reflexivity|].
  rewrite (H3 b c t eq_refl). reflexivity.
Qed.

(** a last byte that no character can end with survives stripping *)
Lemma strip_ws_last (z : list ascii) (c : ascii) :
  w1 c = false -> (forall a, w2 a c = false) -> (forall a b, w3 a b c = false) ->
  exists z', strip_ws w1 w2 w3 (app z [c]) = app z' [c].
Proof.
  intros Hc1 Hc2 Hc3. induction z as [z IH] using list_strong_ind.
  destruct z as [|a z1]; [exists []; simpl; rewrite Hc1; reflexivity|]. simpl.
  destruct (w1 a); [apply IH; simpl; lia|].
  destruct z1 as [|b z2]; [exists [a]; simpl; rewrite Hc2; reflexivity|]. simpl.
  destruct (w2 a b); [apply IH; simpl; lia|].
  destruct z2 as [|c' z3]; [exists [a; b]; simpl; rewrite Hc3; reflexivity|]. simpl.
  destruct (w3 a b c'); [apply IH; simpl; lia|]. exists (a :: b :: c' :: z3). reflexivity.
Qed.
End StripWs.

(** *** The whitespace of [String.prototype.trim] *)

Lemma is_js_ws_in (bs : list ascii) : is_js_ws bs = true -> In bs (map utf8 js_ws_code_points).
Proof.
  unfold is_js_ws. intros H. apply existsb_exists in H as (cp & Hin & Heq).
  destruct (list_eq_dec ascii_dec (utf8 cp) bs) as [<-|]; [|discriminate]. apply in_map, Hin.
Qed.

Ltac ws_absurd E Hc :=
  apply is_js_ws_in in E; vm_compute in E;
  repeat (destruct E as [E|E]; [try discriminate E; inversion E; subst; vm_compute in Hc; discriminate Hc|]);
  destruct E.

(** a byte that does not continue a multi-byte character is never the
    second or third byte of a whitespace character *)
Lemma ws_noncont (x : ascii) :
  ((N_of_ascii x <? 128)%N || (192 <=? N_of_ascii x)%N) = true ->
  (forall a, ws2 a x = false) /\ (forall a b, ws3 a b x = false) /\ (forall a c, ws3 a x c = false).
Proof.
  intros Hc. split; [|split].
  - intros a. unfold ws2. destruct (is_js_ws [a; x]) eqn:E; [|reflexivity]. ws_absurd E Hc.
  - intros a b. unfold ws3. destruct (is_js_ws [a; b; x]) eqn:E; [|reflexivity]. ws_absurd E Hc.
  - intros a c. unfold ws3. destruct (is_js_ws [a; x; c]) eqn:E; [|reflexivity]. ws_absurd E Hc.
Qed.

(** an ASCII byte never starts a multi-byte whitespace character *)
Lemma ws_ascii_lead (x : ascii) :
  (N_of_ascii x <? 128)%N = true ->
  (forall b, ws2 x b = false) /\ (forall b c, ws3 x b c = false).
Proof.
  intros Hc. split.
  - intros b. unfold ws2. destruct (is_js_ws [x; b]) eqn:E; [|reflexivity]. ws_absurd E Hc.
  - intros b c. unfold ws3. destruct (is_js_ws [x; b; c]) eqn:E; [|reflexivity]. ws_absurd E Hc.
Qed.

Lemma punct_bytes (c : ascii) :
  is_end_punct c = true -> ws1 c = false /\ (N_of_ascii c <? 128)%N = true.
Proof. intros H. destruct (punct_cases c H) as [E|[E|E]]; subst c; split; reflexivity. Qed.

Lemma punct_noncont (c : ascii) :
  is_end_punct c = true -> ((N_of_ascii c <? 128)%N || (192 <=? N_of_ascii c)%N) = true.
Proof. intros H. destruct (punct_bytes c H) as [_ ->]. reflexivity. Qed.

(** trailing punctuation is never trimmed *)
Lemma trim_end_punct (t : list ascii) (c : ascii) :
  is_end_punct c = true -> trim_end (app t [c]) = app t [c].
Proof.
  intros Hc. destruct (punct_bytes c Hc) as [H1 _].
  destruct (ws_noncont c (punct_noncont c Hc)) as (H2 & H3 & _).
  unfold trim_end. rewrite rev_app_distr. cbn [rev app].
  rewrite strip_ws_head_stop; [|exact H1|..].
  { change (c :: rev t) with (app (rev [c]) (rev t)). rewrite <- rev_app_distr. apply rev_involutive. }
  - intros b t' _. apply H2.
  - intros b b' t' _. apply H3.
Qed.

(** leading punctuation is never trimmed *)
Lemma trim_start_punct (c : ascii) (t : list ascii) :
  is_end_punct c = true -> trim_start (c :: t) = c :: t.
Proof.
  intros Hc. destruct (punct_bytes c Hc) as [H1 Ha].
  destruct (ws_ascii_lead c Ha) as [H2 H3].
  apply strip_ws_head_stop; [exact H1|intros b t' _; apply H2|intros b b' t' _; apply H3].
Qed.

Lemma ws_enc_start (cp : N) (r : list ascii) :
  In cp js_ws_code_points -> trim_start (app (utf8 cp) r) = trim_start r.
Proof.
  intros H. simpl in H. unfold trim_start.
  repeat (destruct H as [<-|H]; [reflexivity|]). destruct H.
Qed.

Lemma ws_enc_end (cp : N) (r : list ascii) :
  In cp js_ws_code_points ->
  strip_ws ws1 ws2_rev ws3_rev (app (rev (utf8 cp)) r) = strip_ws ws1 ws2_rev ws3_rev r.
Proof.
  intros H. simpl in H.
  repeat (destruct H as [<-|H]; [reflexivity|]). destruct H.
Qed.

Lemma ws_enc_head (cp : N) :
  In cp js_ws_code_points -> exists x t, utf8 cp = x :: t /\
    ((N_of_ascii x <? 128)%N || (192 <=? N_of_ascii x)%N) = true.
Proof.
  intros H. simpl in H.
  repeat (destruct H as [<-|H]; [eexists; eexists; split; reflexivity|]). destruct H.
Qed.

Lemma pad_start (cps : list N) (r : list ascii) :
  Forall (fun cp => In cp js_ws_code_points) cps ->
  trim_start (app (concat (map utf8 cps)) r) = trim_start r.
Proof.
  induction 1 as [|cp cps Hcp _ IH]; [reflexivity|].
  simpl. rewrite <- app_assoc, ws_enc_start by exact Hcp. exact IH.
Qed.

Lemma pad_end (cps : list N) (r : list ascii) :
  Forall (fun cp => In cp js_ws_code_points) cps ->
  strip_ws ws1 ws2_rev ws3_rev (app (rev (concat (map utf8 cps))) r) =
  strip_ws ws1 ws2_rev ws3_rev r.
Proof.
  intros H. revert r. induction H as [|cp cps Hcp _ IH]; intros r; [reflexivity|].
  simpl. rewrite rev_app_distr, <- app_assoc, IH. apply ws_enc_end, Hcp.
Qed.

Lemma trim_list (s : string) :
  list_ascii_of_string (trim s) = trim_end (trim_start (list_ascii_of_string s)).
Proof. unfold trim. apply list_ascii_of_string_of_list_ascii. Qed.

Lemma trim_idem (s : string) : trim (trim s) = trim s.
Proof.
  apply string_eq_list. rewrite !trim_list.
  set (X := trim_start (list_ascii_of_string s)).
  assert (HX : trim_start X = X) by apply strip_ws_idem.
  destruct (strip_ws_suffix ws1 ws2_rev ws3_rev (rev X)) as (pre & E).
  assert (EX : X = app (trim_end X) (rev pre)).
  { unfold trim_end. rewrite <- rev_app_distr, <- E, rev_involutive. reflexivity. }
  assert (HY : trim_start (trim_end X) = trim_end X).
  { apply (strip_ws_prefix ws1 ws2 ws3 _ (rev pre)). rewrite <- EX. exact HX. }
  rewrite HY. unfold trim_end at 1 2. rewrite rev_involutive, strip_ws_idem. reflexivity.
Qed.

(** whitespace characters around a text are all trimmed *)
Lemma trim_padding (cps1 cps2 : list N) (s : string) :
  Forall (fun cp => In cp js_ws_code_points) cps1 ->
  Forall (fun cp => In cp js_ws_code_points) cps2 ->
  trim (string_of_list_ascii (concat (map utf8 cps1)) ++ s ++
        string_of_list_ascii (concat (map utf8 cps2))) = trim s.
Proof.
  intros H1 H2. apply string_eq_list. rewrite !trim_list, !list_ascii_app,
    !list_ascii_of_string_of_list_ascii, pad_start by exact H1.
  set (L := list_ascii_of_string s). set (W := concat (map utf8 cps2)).
  assert (HW : trim_end W = []).
  { unfold trim_end. rewrite <- (app_nil_r (rev W)). unfold W. rewrite pad_end by exact H2. reflexivity. }
  destruct (list_eq_dec ascii_dec (trim_start L) []) as [HT|HT].
  - unfold trim_start in *. rewrite strip_ws_app_all by exact HT. rewrite HT.
    rewrite <- (app_nil_r W). fold (trim_start (app W [])). unfold W. rewrite pad_start by exact H2.
    reflexivity.
  - unfold trim_start in *. rewrite strip_ws_app_stop; [|intros x r' Hx|exact HT].
    + fold (trim_start L). unfold trim_end. rewrite rev_app_distr. unfold W. rewrite pad_end by exact H2.
      reflexivity.
    + destruct cps2 as [|cp cps2]; [discriminate|]. inversion H2 as [|? ? Hcp _]; subst.
      destruct (ws_enc_head cp Hcp) as (y & t & Ey & Hy). unfold W in Hx. simpl in Hx.
      rewrite Ey in Hx. simpl in Hx. injection Hx as <- _. apply ws_noncont, Hy.
Qed.

Lemma normalize_list (s : string) :
  list_ascii_of_string (Server.normalizeCommand s) =
  rstrip is_end_punct (map lower_char (trim_end (trim_start (list_ascii_of_string s)))).
Proof.
  unfold Server.normalizeCommand. rewrite strip_end_list, lower_list, trim_list. reflexivity.
Qed.

(** a text that does not end in a whitespace character has nothing to trim at its end *)
Lemma no_trailing_ws (L : list ascii) :
  (forall w bs, In bs (map utf8 js_ws_code_points) -> L <> app w bs) ->
  strip_ws ws1 ws2_rev ws3_rev (rev L) = rev L.
Proof.
  intros Hn. destruct (rev L) as [|c t] eqn:E; [reflexivity|].
  assert (EL : L = app (rev t) [c]) by (rewrite <- (rev_involutive L), E; reflexivity).
  apply strip_ws_head_stop.
  - unfold ws1. destruct (is_js_ws [c]) eqn:Ec; [|reflexivity].
    exfalso. apply (Hn (rev t) [c]); [apply is_js_ws_in, Ec|exact EL].
  - intros b t' ->. unfold ws2_rev, ws2. destruct (is_js_ws [b; c]) eqn:Ec; [|reflexivity].
    exfalso. apply (Hn (rev t') [b; c]); [apply is_js_ws_in, Ec|].
    rewrite EL. simpl. rewrite <- app_assoc. reflexivity.
  - intros b a t' ->. unfold ws3_rev, ws3. destruct (is_js_ws [a; b; c]) eqn:Ec; [|reflexivity].
    exfalso. apply (Hn (rev t') [a; b; c]); [apply is_js_ws_in, Ec|].
    rewrite EL. simpl. rewrite <- !app_assoc. reflexivity.
Qed.

(** the model's equality behind X2 *)
Lemma normalizeCommand_punct_eq (s p : string) :
  (forall w cp, In cp js_ws_code_points -> s <> w ++ string_of_list_ascii (utf8 cp)) ->
  Forall (fun c => is_end_punct c = true) (list_ascii_of_string p) ->
  Server.normalizeCommand (s ++ p) = Server.normalizeCommand s.
Proof.
  intros Hs Hp. apply string_eq_list. rewrite !normalize_list, list_ascii_app.
  set (L := list_ascii_of_string s). remember (list_ascii_of_string p) as P eqn:EPd.
  set (T := trim_start L).
  assert (HL : strip_ws ws1 ws2_rev ws3_rev (rev L) = rev L).
  { apply no_trailing_ws. intros w bs Hbs E. apply in_map_iff in Hbs as (cp & <- & Hcp).
    apply (Hs (string_of_list_ascii w) cp Hcp).
    rewrite <- string_of_list_ascii_app, <- E. unfold L. symmetry. apply string_of_list_ascii_of_string. }
  assert (HT : trim_end T = T).
  { destruct (strip_ws_suffix ws1 ws2 ws3 L) as (pre & E). fold (trim_start L) in E. fold T in E.
    unfold trim_end. rewrite (strip_ws_prefix ws1 ws2_rev ws3_rev (rev T) (rev pre));
      [apply rev_involutive|].
    rewrite <- rev_app_distr, <- E. exact HL. }
  assert (HP0 : forall x r', P = x :: r' -> ((N_of_ascii x <? 128)%N || (192 <=? N_of_ascii x)%N) = true).
  { intros x r' E. rewrite E in Hp. inversion Hp as [|? ? Hx _]; subst. apply punct_noncont, Hx. }
  assert (HS : trim_start (app L P) = app T P).
  { destruct (list_eq_dec ascii_dec T []) as [HT0|HT0].
    - unfold T, trim_start in HT0 |- *. rewrite strip_ws_app_all by exact HT0. rewrite HT0.
      destruct P as [|x r'] eqn:EP; [reflexivity|].
      apply trim_start_punct. inversion Hp; assumption.
    - unfold T, trim_start in HT0 |- *. apply strip_ws_app_stop; [|exact HT0].
      intros x r' E. apply ws_noncont, (HP0 x r' E). }
  assert (HE : trim_end (app T P) = app T P).
  { destruct (last_or_nil P) as [EP|(z & c & EP)]; [rewrite EP, !app_nil_r; exact HT|].
    rewrite EP, app_assoc. apply trim_end_punct.
    rewrite EP in Hp. apply Forall_app in Hp as [_ Hc]. inversion Hc; assumption. }
  rewrite HS, HE, HT, map_app, (map_lower_punct P Hp). apply rstrip_app_all, Hp.
Qed.

(** X1: the v6 command normalization and the v7 confirmation test ignore
    whitespace around the text: any run of the whitespace characters that
    [String.prototype.trim] removes (NBSP, U+3000, BOM and the others of
    [js_ws_code_points]) before and after it changes neither result. *)
Theorem normalize_ignores_padding (cps1 cps2 : list N) (s : string) :
  Forall (fun cp => In cp js_ws_code_points) cps1 ->
  Forall (fun cp => In cp js_ws_code_points) cps2 ->
  Server.normalizeCommand (string_of_list_ascii (concat (map utf8 cps1)) ++ s ++
                           string_of_list_ascii (concat (map utf8 cps2))) = Server.normalizeCommand s /\
  V7.normalizeConfirm (string_of_list_ascii (concat (map utf8 cps1)) ++ s ++
                       string_of_list_ascii (concat (map utf8 cps2))) = V7.normalizeConfirm s.
Proof.
  intros H1 H2. unfold Server.normalizeCommand, V7.normalizeConfirm.
  rewrite (trim_padding cps1 cps2 s H1 H2). split; reflexivity.
Qed.

(** X2: appending any run of [.], [!] and [?] to a text that does not end
    in a whitespace character does not change whether its normalized
    command is "send it" or "create it". *)
Theorem normalizeCommand_trailing_punct (s p : string) :
  (forall w cp, In cp js_ws_code_points -> s <> w ++ string_of_list_ascii (utf8 cp)) ->
  Forall (fun c => is_end_punct c = true) (list_ascii_of_string p) ->
  forall c, In c ["send it"; "create it"] ->
  (Server.normalizeCommand (s ++ p) = c <-> Server.normalizeCommand s = c).
Proof.
  intros Hs Hp c _. rewrite (normalizeCommand_punct_eq s p Hs Hp). reflexivity.
Qed.

Lemma confirm_phrase_end (w : string) (X z : list ascii) (c : ascii) :
  In w ["send it"; "send"; "create it"; "create"; "delete it"; "delete"] ->
  is_end_punct c = true -> list_ascii_of_string w <> app X (app z [c]).
Proof.
  intros Hw Hc E. apply (f_equal (@rev ascii)) in E. rewrite app_assoc, rev_app_distr in E.
  simpl in Hw. destruct Hw as [<-|[<-|[<-|[<-|[<-|[<-|[]]]]]]]; simpl in E;
    injection E as Ec _; subst c; discriminate.
Qed.

(** X3: the v7 confirmation test does not strip punctuation: a text
    ending in a non-empty run of [.], [!] and [?] is never a confirmation. *)
Theorem normalizeConfirm_trailing_punct (s p : string) :
  p <> "" -> Forall (fun c => is_end_punct c = true) (list_ascii_of_string p) ->
  V7.normalizeConfirm (s ++ p) = None.
Proof.
  intros Hne Hp.
  destruct (last_or_nil (list_ascii_of_string p)) as [Hn|(z & c & Hz)].
  { exfalso. apply Hne. apply string_eq_list. exact Hn. }
  rewrite Hz in Hp. apply Forall_app in Hp as [Hz' Hc]. inversion Hc as [|? ? Hc' _]; subst.
  destruct (punct_bytes c Hc') as [Hc1 _].
  destruct (ws_noncont c (punct_noncont c Hc')) as (Hc2 & Hc3 & _).
  destruct (strip_ws_last ws1 ws2 ws3 (app (list_ascii_of_string s) z) c Hc1 Hc2 Hc3) as (z' & Ez').
  assert (HL : list_ascii_of_string (toLowerCase (trim (s ++ p))) =
               app (map lower_char z') (app [] [c])).
  { rewrite lower_list, trim_list, list_ascii_app, Hz, app_assoc.
    unfold trim_start at 1. rewrite Ez', trim_end_punct by exact Hc'.
    rewrite map_app. simpl. rewrite lower_punct by exact Hc'. reflexivity. }
  assert (Hneq : forall w, In w ["send it"; "send"; "create it"; "create"; "delete it"; "delete"] ->
                 String.eqb (toLowerCase (trim (s ++ p))) w = false).
  { intros w Hw. apply String.eqb_neq. intros E. rewrite E in HL.
    exact (confirm_phrase_end w _ [] c Hw Hc' HL). }
  unfold V7.normalizeConfirm.
  rewrite !Hneq by (simpl; tauto). reflexivity.
Qed.

(** X4: the assistant text extracted from an OpenAI answer never has
    leading or trailing whitespace. *)
Theorem extractAssistantText_trimmed (out : jval) :
  trim (Server.extractAssistantText out) = Server.extractAssistantText out.
Proof.
  unfold Server.extractAssistantText, Server.output_text_chunks.
  repeat match goal with
         | |- context [match ?x with _ => _ end] => destruct x
         | |- context [if ?b then _ else _] => destruct b
         end; try apply trim_idem; reflexivity.
Qed.


Lemma string_app_nil_r (x : string) : x ++ "" = x.
Proof. apply string_eq_list. rewrite list_ascii_app. apply app_nil_r. Qed.

Lemma join_cons_prefix (sep x : string) (l : list string) :
  exists r, join sep (x :: l) = x ++ r.
Proof. destruct l; simpl; [exists ""; symmetry; apply string_app_nil_r|eexists; reflexivity]. Qed.

Lemma app_nonempty (x r : string) : x <> "" -> x ++ r <> "".
Proof. destruct x as [|a x]; [congruence|intros _; cbn [append]; discriminate]. Qed.

(** X5: the fallback text for at least one function call is never empty. *)
Theorem toolCallsToFallbackText_nonempty (json_parse : string -> option jval)
        (c : Server.call) (cs : list Server.call) :
  Server.toolCallsToFallbackText json_parse (c :: cs) <> "".
Proof.
  unfold Server.toolCallsToFallbackText.
  destruct (is_str (fst c) "propose_email"); [|destruct (is_str (fst c) "propose_calendar_event")].
  - match goal with |- join _ (?x :: ?l) <> _ => destruct (join_cons_prefix nl x l) as [r ->] end.
    apply app_nonempty. discriminate.
  - cbn [filter]. change (negb (String.eqb "Here’s a calendar event proposal for your approval:" "")) with true.
    cbv iota.
    match goal with |- join _ (?x :: ?l) <> _ => destruct (join_cons_prefix nl x l) as [r ->] end.
    apply app_nonempty. discriminate.
  - apply app_nonempty. discriminate.
Qed.

Lemma obj_get_app (l1 l2 : list (string * jval)) (k : string) :
  obj_get (app l1 l2) k = match obj_get l1 k with Some v => Some v | None => obj_get l2 k end.
Proof.
  induction l1 as [|[k0 v0] l1 IH]; simpl; [reflexivity|].
  destruct (String.eqb k0 k); [reflexivity|exact IH].
Qed.

Lemma obj_get_fold_set (action init : list (string * jval)) (k : string) :
  obj_get (fold_left (fun acc kv => obj_set acc (fst kv) (snd kv)) action init) k =
  match obj_get (rev action) k with Some v => Some v | None => obj_get init k end.
Proof.
  revert init. induction action as [|[k0 v0] action IH]; intros init; [reflexivity|].
  simpl. rewrite IH, obj_get_app. simpl.
  destruct (obj_get (rev action) k); [reflexivity|].
  destruct (String.eqb_spec k0 k) as [->|Hne].
  - apply obj_get_set_eq.
  - apply obj_get_set_ne. exact Hne.
Qed.

Lemma obj_get_rev (l : list (string * jval)) (k : string) :
  NoDup (map fst l) -> obj_get (rev l) k = obj_get l k.
Proof.
  induction l as [|[k0 v0] l IH]; intros Hnd; [reflexivity|].
  simpl in Hnd |- *. inversion Hnd as [|? ? Hnin Hnd']; subst.
  rewrite obj_get_app, IH by exact Hnd'. simpl.
  destruct (String.eqb_spec k0 k) as [->|Hne].
  - apply obj_get_none_not_in in Hnin. rewrite Hnin. reflexivity.
  - destruct (obj_get l k); reflexivity.
Qed.

(** X6: after [setPending] at time [t], [getPending] at [t'] returns the
    stored action, with [ts = t] and the action's own fields, while
    [t' - t] is at most the 10 minute TTL; after that it returns nothing
    and removes the entry. *)
Theorem getPending_after_setPending (st : server_state) (uid : string)
        (action : list (string * jval)) (t t' : Z) :
  NoDup (map fst action) -> ~ In "ts" (map fst action) ->
  let '(st2, es, r) := Server.getPending uid t' (fst (fst (Server.setPending uid action t st))) in
  es = [] /\
  if Z.leb (t' - t) Server.PENDING_ACTION_TTL_MS
  then exists p, r = Ok (Some p) /\ pendingActions st2 !! uid = Some p /\
       get (Some p) "ts" = Some (JNum t) /\
       (forall k, k <> "ts" -> get (Some p) k = obj_get action k)
  else r = Ok None /\ pendingActions st2 = delete uid (pendingActions st).
Proof.
  intros Hnd Hts. unfold Server.setPending, modify, Server.getPending. simpl.
  rewrite lookup_insert_eq. simpl.
  assert (Hget : forall k, obj_get (fold_left (fun acc kv => obj_set acc (fst kv) (snd kv))
                                               action [("ts", JNum t)]) k =
                           if String.eqb k "ts" then Some (JNum t) else obj_get action k).
  { intros k. rewrite obj_get_fold_set, obj_get_rev by exact Hnd.
    destruct (String.eqb_spec k "ts") as [->|Hne].
    - apply obj_get_none_not_in in Hts. rewrite Hts. simpl. reflexivity.
    - destruct (obj_get action k); [reflexivity|]. cbn [obj_get].
      destruct (String.eqb_spec "ts" k); [congruence|reflexivity]. }
  rewrite Hget. simpl.
  rewrite Z.gtb_ltb. destruct (Z.leb_spec (t' - t) Server.PENDING_ACTION_TTL_MS) as [Hle|Hgt].
  - replace ((Server.PENDING_ACTION_TTL_MS <? t' - t)%Z) with false by (symmetry; apply Z.ltb_ge; lia).
    split; [reflexivity|]. eexists. split; [reflexivity|]. split; [apply lookup_insert_eq|].
    cbn [get]. rewrite Hget. split; [reflexivity|].
    intros k Hk. rewrite Hget. apply String.eqb_neq in Hk. rewrite Hk. reflexivity.
  - replace ((Server.PENDING_ACTION_TTL_MS <? t' - t)%Z) with true by (symmetry; apply Z.ltb_lt; lia).
    split; [reflexivity|]. split; [reflexivity|]. simpl. apply delete_insert_eq.
Qed.

Lemma getPending_after_setPending_witness :
  let '(st2, es, r) := Server.getPending "u1" 700000
     (fst (fst (Server.setPending "u1" [("type", JStr "email")] 0 Scenarios.empty_server))) in
  es = [] /\
  if Z.leb (700000 - 0) Server.PENDING_ACTION_TTL_MS
  then exists p, r = Ok (Some p) /\ pendingActions st2 !! "u1" = Some p /\
       get (Some p) "ts" = Some (JNum 0) /\
       (forall k, k <> "ts" -> get (Some p) k = obj_get [("type", JStr "email")] k)
  else r = Ok None /\ pendingActions st2 = delete "u1" (pendingActions Scenarios.empty_server).
Proof.
  apply getPending_after_setPending.
  - repeat constructor; simpl; tauto.
  - simpl. intros [H|[]]. discriminate.
Defined.

(** X7: after the provider context is refreshed, a second request of the
    same user within 90 s fetches nothing, leaves the state unchanged and
    returns the same provider. *)
Theorem provider_cache_reused (uid : string) (e1 e2 : env) (st : server_state) :
  match providerCache st !! uid with
  | Some c => (Server.PROVIDER_CACHE_MS <= now e1 - c_ts c)%Z
  | None => True
  end ->
  (now e2 - now e1 < Server.PROVIDER_CACHE_MS)%Z ->
  let '(st1, _, r1) := Server.provider_context uid e1 st in
  Server.provider_context uid e2 st1 = (st1, [], r1).
Proof.
  intros Hstale Hwin. unfold Server.provider_context at 1, bind at 1, get_state at 1.
  replace (match providerCache st !! uid with
           | Some c => (now e1 - c_ts c <? Server.PROVIDER_CACHE_MS)%Z | None => false end)
    with false by (destruct (providerCache st !! uid); [symmetry; apply Z.ltb_ge; lia|reflexivity]).
  set (g := MemTokens.getProviderTokens (tokenStore st) uid "google").
  set (m := MemTokens.getProviderTokens (tokenStore st) uid "microsoft").
  assert (Hhit : forall pv, Server.provider_context uid e2
            (Server.set_cache_map st (<[uid := mkCache (now e1) pv]> (providerCache st))) =
            (Server.set_cache_map st (<[uid := mkCache (now e1) pv]> (providerCache st)), [], Ok pv)).
  { intros pv. unfold Server.provider_context, bind, get_state. simpl.
    rewrite lookup_insert_eq. simpl.
    replace ((now e2 - now e1 <? Server.PROVIDER_CACHE_MS)%Z) with true by (symmetry; apply Z.ltb_lt; lia).
    reflexivity. }
  destruct (truthy (get g "access_token")); [|destruct (truthy (get m "access_token"))];
    cbn -[Server.provider_context]; rewrite Hhit; reflexivity.
Qed.

Lemma provider_cache_reused_witness :
  let '(st1, _, r1) := Server.provider_context "u1" (mkEnv 0 None true (fun _ => None)) Scenarios.empty_server in
  Server.provider_context "u1" (mkEnv 1000 None true (fun _ => None)) st1 = (st1, [], r1).
Proof. apply provider_cache_reused; simpl; [exact I|reflexivity]. Defined.

Lemma string_app_inj_l (a b c : string) : a ++ b = a ++ c -> b = c.
Proof. induction a as [|x a IH]; cbn [append]; [auto|]. intros H. injection H. exact IH. Qed.

Lemma key_inj (u u' p p' : string) :
  ~ In ":"%char (list_ascii_of_string u) -> ~ In ":"%char (list_ascii_of_string u') ->
  MemTokens.key u p = MemTokens.key u' p' -> u = u' /\ p = p'.
Proof.
  unfold MemTokens.key. revert u'. induction u as [|a u IH]; intros u' Hu Hu' E;
    destruct u' as [|a' u']; cbn [append] in E.
  - injection E as E. auto.
  - injection E as Ea _. exfalso. apply Hu'. left. congruence.
  - injection E as Ea _. exfalso. apply Hu. left. congruence.
  - injection E as <- E. cbn in Hu, Hu'.
    destruct (IH u') as [-> ->]; [tauto|tauto|exact E|]. auto.
Qed.

(** X8: in the in-memory token store, a stored credential object is read
    back as the object [{ ...tokens, updatedAt }]: every field of [tokens]
    but [updatedAt] unchanged, and [updatedAt] the write time; a cleared
    credential reads as null, and neither write affects another
    (uid, provider) pair when the uids contain no colon. *)
Theorem memTokens_set_clear_get (s : MemTokens.store) (uid provider uid' provider' : string)
        (tokens : jval) (t : Z) :
  ~ In ":"%char (list_ascii_of_string uid) -> ~ In ":"%char (list_ascii_of_string uid') ->
  (forall fs, tokens = JObj fs ->
     MemTokens.getProviderTokens (MemTokens.setProviderTokens s uid provider tokens t) uid provider
       = Some (JObj (obj_set fs "updatedAt" (JNum t))) /\
     (forall k, k <> "updatedAt" ->
        get (MemTokens.getProviderTokens (MemTokens.setProviderTokens s uid provider tokens t)
               uid provider) k = obj_get fs k) /\
     get (MemTokens.getProviderTokens (MemTokens.setProviderTokens s uid provider tokens t)
            uid provider) "updatedAt" = Some (JNum t)) /\
  MemTokens.getProviderTokens (MemTokens.clearProviderTokens s uid provider) uid provider = None /\
  ((uid', provider') <> (uid, provider) ->
   MemTokens.getProviderTokens (MemTokens.setProviderTokens s uid provider tokens t) uid' provider'
     = MemTokens.getProviderTokens s uid' provider' /\
   MemTokens.getProviderTokens (MemTokens.clearProviderTokens s uid provider) uid' provider'
     = MemTokens.getProviderTokens s uid' provider').
Proof.
  intros Hu Hu'. unfold MemTokens.getProviderTokens, MemTokens.setProviderTokens,
    MemTokens.clearProviderTokens. cbv zeta.
  unfold MemTokens.store in *. split; [|split].
  - intros fs ->. rewrite lookup_insert_eq. cbn [truthy get]. split; [reflexivity|split].
    + intros k Hk. apply obj_get_set_ne. congruence.
    + apply obj_get_set_eq.
  - rewrite lookup_delete_eq. reflexivity.
  - intros Hne. assert (Hk : MemTokens.key uid provider <> MemTokens.key uid' provider').
    { intros E. apply key_inj in E as [-> ->]; auto. }
    rewrite lookup_insert_ne, lookup_delete_ne by exact Hk. auto.
Qed.

Lemma memTokens_set_clear_get_witness :
  (forall fs, JObj [("access_token", JStr "tok")] = JObj fs ->
     MemTokens.getProviderTokens
       (MemTokens.setProviderTokens ∅ "u1" "google" (JObj [("access_token", JStr "tok")]) 5) "u1" "google"
       = Some (JObj (obj_set fs "updatedAt" (JNum 5))) /\
     (forall k, k <> "updatedAt" ->
        get (MemTokens.getProviderTokens
               (MemTokens.setProviderTokens ∅ "u1" "google" (JObj [("access_token", JStr "tok")]) 5)
               "u1" "google") k = obj_get fs k) /\
     get (MemTokens.getProviderTokens
            (MemTokens.setProviderTokens ∅ "u1" "google" (JObj [("access_token", JStr "tok")]) 5)
            "u1" "google") "updatedAt" = Some (JNum 5)) /\
  MemTokens.getProviderTokens (MemTokens.clearProviderTokens ∅ "u1" "google") "u1" "google" = None /\
  (("u2", "google") <> ("u1", "google") ->
   MemTokens.getProviderTokens
     (MemTokens.setProviderTokens ∅ "u1" "google" (JObj [("access_token", JStr "tok")]) 5) "u2" "google"
     = MemTokens.getProviderTokens ∅ "u2" "google" /\
   MemTokens.getProviderTokens (MemTokens.clearProviderTokens ∅ "u1" "google") "u2" "google"
     = MemTokens.getProviderTokens ∅ "u2" "google").
Proof.
  apply memTokens_set_clear_get; simpl; intros H; repeat (destruct H as [H|H]; [discriminate|]); exact H.
Defined.

(** X9: the in-memory store keys are not injective: tokens stored for
    user [u:p] and provider [q] are read back for user [u] and provider
    [p:q]. *)
Theorem memTokens_colon_alias (s : MemTokens.store) (u p q : string) (tokens : jval) (t : Z) :
  MemTokens.getProviderTokens (MemTokens.setProviderTokens s (u ++ ":" ++ p) q tokens t) u (p ++ ":" ++ q)
  = MemTokens.getProviderTokens (MemTokens.setProviderTokens s (u ++ ":" ++ p) q tokens t) (u ++ ":" ++ p) q /\
  MemTokens.getProviderTokens (MemTokens.setProviderTokens s (u ++ ":" ++ p) q tokens t) u (p ++ ":" ++ q) <> None.
Proof.
  unfold MemTokens.getProviderTokens, MemTokens.setProviderTokens, MemTokens.key. cbv zeta.
  assert (E : u ++ ":" ++ p ++ ":" ++ q = (u ++ ":" ++ p) ++ ":" ++ q).
  { apply string_eq_list. rewrite !list_ascii_app. simpl. rewrite <- !app_assoc. reflexivity. }
  unfold MemTokens.store in *. rewrite E, lookup_insert_eq. split; [reflexivity|]. discriminate.
Qed.

Lemma key_same_uid (uid p q : string) : p <> q -> MemTokens.key uid p <> MemTokens.key uid q.
Proof. unfold MemTokens.key. intros Hpq E. apply string_app_inj_l, string_app_inj_l in E. auto. Qed.

Lemma mem_set_connected (s : MemTokens.store) (uid p : string) (tokens : jval) (t : Z) :
  exists v, MemTokens.getProviderTokens (MemTokens.setProviderTokens s uid p tokens t) uid p = Some v.
Proof.
  unfold MemTokens.getProviderTokens, MemTokens.setProviderTokens. cbv zeta.
  unfold MemTokens.store in *. rewrite lookup_insert_eq. eexists. reflexivity.
Qed.

Lemma mem_clear_disconnected (s : MemTokens.store) (uid p : string) :
  MemTokens.getProviderTokens (MemTokens.clearProviderTokens s uid p) uid p = None.
Proof.
  unfold MemTokens.getProviderTokens, MemTokens.clearProviderTokens. cbv zeta.
  unfold MemTokens.store in *. rewrite lookup_delete_eq. reflexivity.
Qed.

Lemma mem_other_provider (s : MemTokens.store) (uid p q : string) (tokens : jval) (t : Z) :
  p <> q ->
  MemTokens.getProviderTokens (MemTokens.setProviderTokens s uid p tokens t) uid q
    = MemTokens.getProviderTokens s uid q /\
  MemTokens.getProviderTokens (MemTokens.clearProviderTokens s uid p) uid q
    = MemTokens.getProviderTokens s uid q.
Proof.
  intros Hpq. unfold MemTokens.getProviderTokens, MemTokens.setProviderTokens,
    MemTokens.clearProviderTokens. cbv zeta. unfold MemTokens.store in *.
  rewrite lookup_insert_ne, lookup_delete_ne by (apply key_same_uid; exact Hpq). auto.
Qed.

(** X10: [/v1/oauth/status] reports a provider connected as soon as any
    tokens are stored for it (an access token is not needed), and not
    connected after they are cleared; the other provider's flag is
    unchanged. *)
Theorem oauth_status_after_set_clear (st : server_state) (uid p q : string) (tokens : jval) (t : Z) :
  In p ["google"; "microsoft"] -> In q ["google"; "microsoft"] -> p <> q ->
  get (Some (Server.oauth_status
         (mkServer (pendingActions st) (providerCache st) (MemTokens.setProviderTokens (tokenStore st) uid p tokens t)) uid)) p
    = Some (JBool true) /\
  get (Some (Server.oauth_status
         (mkServer (pendingActions st) (providerCache st) (MemTokens.clearProviderTokens (tokenStore st) uid p)) uid)) p
    = Some (JBool false) /\
  get (Some (Server.oauth_status
         (mkServer (pendingActions st) (providerCache st) (MemTokens.setProviderTokens (tokenStore st) uid p tokens t)) uid)) q
    = get (Some (Server.oauth_status st uid)) q /\
  get (Some (Server.oauth_status
         (mkServer (pendingActions st) (providerCache st) (MemTokens.clearProviderTokens (tokenStore st) uid p)) uid)) q
    = get (Some (Server.oauth_status st uid)) q.
Proof.
  intros Hp Hq Hpq.
  destruct (mem_set_connected (tokenStore st) uid p tokens t) as [v Hv].
  pose proof (mem_clear_disconnected (tokenStore st) uid p) as Hc.
  destruct (mem_other_provider (tokenStore st) uid p q tokens t Hpq) as [Hs Hc'].
  unfold Server.oauth_status, Server.connected. cbn [tokenStore].
  simpl in Hp, Hq.
  destruct Hp as [<-|[<-|[]]]; destruct Hq as [<-|[<-|[]]]; try congruence;
    rewrite Hv, Hc, Hs, Hc'; cbn; auto.
Qed.

Lemma oauth_status_after_set_clear_witness :
  get (Some (Server.oauth_status
         (mkServer ∅ ∅ (MemTokens.setProviderTokens ∅ "u1" "google" (JObj []) 0)) "u1")) "google"
    = Some (JBool true) /\
  get (Some (Server.oauth_status
         (mkServer ∅ ∅ (MemTokens.clearProviderTokens ∅ "u1" "google")) "u1")) "google"
    = Some (JBool false) /\
  get (Some (Server.oauth_status
         (mkServer ∅ ∅ (MemTokens.setProviderTokens ∅ "u1" "google" (JObj []) 0)) "u1")) "microsoft"
    = get (Some (Server.oauth_status Scenarios.empty_server "u1")) "microsoft" /\
  get (Some (Server.oauth_status
         (mkServer ∅ ∅ (MemTokens.clearProviderTokens ∅ "u1" "google")) "u1")) "microsoft"
    = get (Some (Server.oauth_status Scenarios.empty_server "u1")) "microsoft".
Proof.
  apply (oauth_status_after_set_clear Scenarios.empty_server "u1" "google" "microsoft" (JObj []) 0);
    simpl; [left; reflexivity|right; left; reflexivity|discriminate].
Defined.

Lemma obj_get_delete_eq (fs : list (string * jval)) (k : string) :
  obj_get (obj_delete fs k) k = None.
Proof.
  induction fs as [|[k0 v0] fs IH]; [reflexivity|]. unfold obj_delete in *. simpl.
  destruct (String.eqb_spec k0 k) as [->|Hne]; simpl; [exact IH|].
  apply String.eqb_neq in Hne. rewrite Hne. exact IH.
Qed.

Lemma obj_delete_other (fs : list (string * jval)) (k other : string) :
  In other (map fst fs) -> other <> k -> obj_delete fs k <> [].
Proof.
  intros Hin Hne E. apply in_map_iff in Hin as ([k0 v0] & Hk0 & Hin). simpl in Hk0. subst k0.
  assert (Hf : In (other, v0) (obj_delete fs k)).
  { unfold obj_delete. apply filter_In. split; [exact Hin|].
    simpl. apply negb_true_iff, String.eqb_neq, Hne. }
  rewrite E in Hf. destruct Hf.
Qed.

Lemma fields_ok_delete (fs : list (string * jval)) (k : string) :
  fields_ok (JObj fs) = true -> fields_ok (JObj (obj_delete fs k)) = true.
Proof.
  simpl. unfold obj_delete. induction fs as [|[k0 v0] fs IH]; [reflexivity|].
  simpl. intros H. apply andb_true_iff in H as [H1 H2].
  destruct (negb (String.eqb k0 k)); simpl; [rewrite H1|]; apply IH, H2.
Qed.

Lemma clearPendingAction_ok (d : Firestore.db) (uid : string) (now : Z) (p : list string) :
  UserStore.userDoc uid = Ok p ->
  exists d', UserStore.clearPendingAction d uid now = Ok d' /\
             UserStore.getPendingAction d' uid = Ok None.
Proof.
  intros Hp. unfold UserStore.clearPendingAction, UserStore.setPendingAction, UserStore.setUser.
  rewrite Hp. cbn [res_bind]. rewrite set_merge_ok by reflexivity.
  eexists. split; [reflexivity|].
  unfold UserStore.getPendingAction, UserStore.getUser. rewrite Hp. cbn [res_bind].
  unfold Firestore.doc_get. destruct (d !! p) as [old|];
    unfold Firestore.db; rewrite lookup_insert_eq; [|reflexivity].
  destruct old as [| | | | |fs]; try reflexivity.
  unfold merge_doc. cbn [get].
  rewrite (merge_fields_field _ fs "pendingAction" JNull);
    [|repeat constructor; simpl; intuition congruence|reflexivity].
  destruct (obj_get fs "pendingAction"); reflexivity.
Qed.

Lemma getPendingAction_uid (d : Firestore.db) (uid : string) (r : option jval) :
  UserStore.getPendingAction d uid = Ok r -> exists p, UserStore.userDoc uid = Ok p.
Proof.
  unfold UserStore.getPendingAction, UserStore.getUser.
  destruct (UserStore.userDoc uid) as [p|m]; [eauto|discriminate].
Qed.

(** X11: [clearProviderTokens] of the user-document store does not remove
    the credential when the user has credentials for another provider too:
    it writes the remaining tokens back with a merge, so the provider's
    entry survives and [getProviderTokens] is unchanged. *)
Theorem userStore_clearProviderTokens_keeps (d : Firestore.db) (uid provider other : string)
        (now : Z) (p : list string) (ufs tfs : list (string * jval)) :
  UserStore.userDoc uid = Ok p ->
  d !! p = Some (JObj ufs) ->
  obj_get ufs "tokens" = Some (JObj tfs) ->
  fields_ok (JObj tfs) = true ->
  In other (map fst tfs) -> other <> provider ->
  exists d', UserStore.clearProviderTokens d uid provider now = Ok d' /\
    UserStore.getProviderTokens d' uid provider = UserStore.getProviderTokens d uid provider.
Proof.
  intros Hp Hd Ht Hok Hin Hne.
  pose proof (obj_delete_other tfs provider other Hin Hne) as Hdel.
  assert (Hclr : UserStore.clearProviderTokens d uid provider now =
     Firestore.set_merge d p
       (JObj [("tokens", JObj (obj_delete tfs provider)); ("updatedAt", JNum now)])).
  { unfold UserStore.clearProviderTokens, UserStore.setUser, UserStore.getUser.
    rewrite Hp. cbn [res_bind]. unfold Firestore.doc_get. rewrite Hd. cbn [get].
    rewrite Ht. reflexivity. }
  rewrite Hclr, set_merge_ok.
  2:{ simpl. simpl in Hok. pose proof (fields_ok_delete tfs provider Hok) as H. simpl in H.
      rewrite H. reflexivity. }
  eexists. split; [reflexivity|].
  assert (Hget : forall d0 u0, d0 !! p = Some u0 ->
            UserStore.getProviderTokens d0 uid provider =
            Ok (if truthy (get (get (Some u0) "tokens") provider)
                then get (get (Some u0) "tokens") provider else None)).
  { intros d0 u0 H0. unfold UserStore.getProviderTokens, UserStore.getUser.
    rewrite Hp. cbn [res_bind]. unfold Firestore.doc_get. rewrite H0. reflexivity. }
  rewrite Hd. rewrite (Hget _ _ Hd).
  rewrite (Hget _ (merge_doc (JObj ufs) (JObj [("tokens", JObj (obj_delete tfs provider));
                                               ("updatedAt", JNum now)])));
    [|unfold Firestore.db; apply lookup_insert_eq].
  unfold merge_doc. cbn [get].
  rewrite (merge_fields_field _ ufs "tokens" (JObj (obj_delete tfs provider)));
    [|repeat constructor; simpl; intuition congruence|reflexivity].
  rewrite Ht, merge_val_fields by exact Hdel. cbn [get].
  rewrite (merge_fields_absent (obj_delete tfs provider) tfs provider) by apply obj_get_delete_eq.
  reflexivity.
Qed.

(** X12: after [clearPendingAction] of the user-document store,
    [getPendingAction] returns null; when the uid has no valid document
    path ([userDoc] throws: an empty uid, or one like 'a/b'), the clear
    throws the same error.  A valid document id is always cleared. *)
Theorem userStore_clearPendingAction_clears (d : Firestore.db) (uid : string) (now : Z) :
  match UserStore.clearPendingAction d uid now with
  | Ok d' => UserStore.getPendingAction d' uid = Ok None
  | Throw m => UserStore.userDoc uid = Throw m
  end /\
  (Firestore.valid_id uid = true -> exists d', UserStore.clearPendingAction d uid now = Ok d').
Proof.
  destruct (UserStore.userDoc uid) as [p|m] eqn:Hp.
  - destruct (clearPendingAction_ok d uid now p Hp) as (d' & -> & Hnone).
    split; [exact Hnone|intros _; eauto].
  - assert (Hc : UserStore.clearPendingAction d uid now = Throw m).
    { unfold UserStore.clearPendingAction, UserStore.setPendingAction, UserStore.setUser.
      rewrite Hp. reflexivity. }
    rewrite Hc. split; [reflexivity|]. intros Hv. rewrite userDoc_valid in Hp by exact Hv. discriminate.
Qed.

(** X13: in tokenStore.js, writing or deleting the pending action of any
    uid never changes a credential stored under valid document ids, and
    storing a credential for one valid (uid, provider) never changes the
    credential of another valid pair.  (Ids are path segments: 'u1/' and
    'u1' name the same document, and ('a/tokens/b', 'c') the credential of
    ('a', 'b/c')'s document path; the hypotheses exclude them.) *)
Theorem tokenStore_lookup_frame (d : Firestore.db) (uid provider uid' provider' : string)
        (tokens action : jval) :
  Firestore.valid_id uid' = true -> Firestore.valid_id provider' = true ->
  (forall d1, TokenStore.setPendingAction d uid action = Ok d1 ->
     TokenStore.getUserProviderTokens d1 uid' provider'
       = TokenStore.getUserProviderTokens d uid' provider') /\
  (forall d1, TokenStore.clearPendingAction d uid = Ok d1 ->
     TokenStore.getUserProviderTokens d1 uid' provider'
       = TokenStore.getUserProviderTokens d uid' provider') /\
  (Firestore.valid_id uid = true -> Firestore.valid_id provider = true ->
   (uid', provider') <> (uid, provider) ->
   forall d1, TokenStore.setUserProviderTokens d uid provider tokens = Ok d1 ->
     TokenStore.getUserProviderTokens d1 uid' provider'
       = TokenStore.getUserProviderTokens d uid' provider').
Proof.
  intros Hu' Hp'.
  assert (Hl : forall d0, TokenStore.getUserProviderTokens d0 uid' provider' =
                 match d0 !! ["users"; uid'; "tokens"; provider'] with
                 | None => Throw ("No tokens found for provider=" ++ provider')
                 | Some data => Ok data
                 end).
  { intros d0. unfold TokenStore.getUserProviderTokens. rewrite tokensRef_valid by assumption.
    reflexivity. }
  split; [|split].
  - intros d1 H. unfold TokenStore.setPendingAction in H.
    destruct (TokenStore.pendingRef uid) as [pp|] eqn:Epp; [|discriminate]. cbn [res_bind] in H.
    destruct (pendingRef_path uid pp Epp) as (pre & ->).
    rewrite !Hl, (set_merge_lookup_ne _ _ _ _ _ H); [reflexivity|].
    intros E. exact (tokens_pending_paths uid' provider' pre (eq_sym E)).
  - intros d1 H. unfold TokenStore.clearPendingAction in H.
    destruct (TokenStore.pendingRef uid) as [pp|] eqn:Epp; [|discriminate]. cbn [res_bind] in H.
    injection H as <-. destruct (pendingRef_path uid pp Epp) as (pre & ->).
    rewrite !Hl. unfold Firestore.doc_delete, Firestore.db. rewrite lookup_delete_ne; [reflexivity|].
    intros E. exact (tokens_pending_paths uid' provider' pre (eq_sym E)).
  - intros Hu Hp Hne d1 H. unfold TokenStore.setUserProviderTokens in H.
    rewrite tokensRef_valid in H by assumption. cbn [res_bind] in H.
    rewrite !Hl, (set_merge_lookup_ne _ _ _ _ _ H); [reflexivity|].
    intros E. injection E as -> ->. auto.
Qed.

Lemma base64url_decode_length (n : nat) (cs l : list ascii) : (length cs <= n)%nat ->
  Gmail.base64url_decode cs = Some l -> length cs = ((4 * length l + 2) / 3)%nat.
Proof.
  revert cs l. induction n as [|n IH]; intros cs l Hn Hd.
  - destruct cs; [|simpl in Hn; lia]. simpl in Hd. injection Hd as <-. reflexivity.
  - destruct cs as [|c1 [|c2 [|c3 [|c4 rest]]]]; simpl in Hd.
    + injection Hd as <-. reflexivity.
    + discriminate.
    + destruct (Gmail.url_value c1), (Gmail.url_value c2); try discriminate.
      injection Hd as <-. reflexivity.
    + destruct (Gmail.url_value c1), (Gmail.url_value c2), (Gmail.url_value c3); try discriminate.
      injection Hd as <-. reflexivity.
    + destruct (Gmail.url_value c1), (Gmail.url_value c2), (Gmail.url_value c3),
        (Gmail.url_value c4); try discriminate.
      destruct (Gmail.base64url_decode rest) as [bs|] eqn:Hr; [|discriminate].
      injection Hd as <-. simpl in Hn. cbn [length].
      rewrite (IH rest bs ltac:(lia) Hr).
      replace (4 * S (S (S (length bs))) + 2)%nat with (4 * length bs + 2 + 4 * 3)%nat by lia.
      rewrite Nat.div_add by lia. lia.
Qed.

Lemma string_length_list (s : string) : String.length s = length (list_ascii_of_string s).
Proof. induction s as [|c s IH]; simpl; [reflexivity|]. rewrite IH. reflexivity. Qed.

(** X14: [base64UrlEncode] of an [n]-byte string has exactly
    [(4 n + 2) / 3] characters (no padding). *)
Theorem base64UrlEncode_length (str : string) :
  String.length (Gmail.base64UrlEncode str) = ((4 * String.length str + 2) / 3)%nat.
Proof.
  destruct (base64UrlEncode_roundtrip str) as [_ Hd].
  unfold Gmail.decode_string in Hd.
  destruct (Gmail.base64url_decode (list_ascii_of_string (Gmail.base64UrlEncode str))) as [l|] eqn:E;
    [|discriminate].
  simpl in Hd. injection Hd as Hd.
  rewrite !string_length_list.
  rewrite (base64url_decode_length _ _ l (le_n _) E).
  rewrite <- Hd, list_ascii_of_string_of_list_ascii. reflexivity.
Qed.

Lemma clampInt_range (parseInt : string -> option Z) (v : option jval) (fallback lo hi : Z) :
  (lo <= fallback <= hi)%Z -> (lo <= hi)%Z ->
  (lo <= OpenAIClient.clampInt parseInt v fallback lo hi <= hi)%Z.
Proof.
  intros Hf Hlh. unfold OpenAIClient.clampInt.
  destruct (parseInt _) as [n|]; [lia|exact Hf].
Qed.

(** X15: [callOpenAI] sends at most two requests, each with a timeout in
    [1000, 60000] ms and [max_output_tokens] in [50, 2000], whatever the
    parameters and the environment. *)
Theorem callOpenAI_request_bounds (apiKey env_timeout : option string) (parseInt : string -> option Z)
        (timeoutMs max_output_tokens : option jval) (outcome : nat -> OpenAIClient.attempt) :
  let '(rs, _) := OpenAIClient.callOpenAI apiKey env_timeout parseInt timeoutMs max_output_tokens outcome in
  (length rs <= OpenAIClient.maxAttempts)%nat /\
  Forall (fun r => (1000 <= OpenAIClient.req_timeout r <= 60000)%Z /\
                   (50 <= OpenAIClient.req_max_output_tokens r <= 2000)%Z) rs.
Proof.
  unfold OpenAIClient.callOpenAI.
  destruct (negb (truthy (option_map JStr apiKey))); [split; [simpl; lia|constructor]|].
  cbv zeta.
  match goal with |- context [OpenAIClient.attempts_loop ?r _ _ _ _] => set (req := r) end.
  assert (Hreq : (1000 <= OpenAIClient.req_timeout req <= 60000)%Z /\
                 (50 <= OpenAIClient.req_max_output_tokens req <= 2000)%Z).
  { split; apply clampInt_range; lia. }
  unfold OpenAIClient.attempts_loop, OpenAIClient.maxAttempts. cbn -[OpenAIClient.transient].
  destruct (outcome 1%nat) as [m|[] st stt j]; cbn -[OpenAIClient.transient];
    [|auto|destruct (OpenAIClient.transient st)]; cbn -[OpenAIClient.transient];
    destruct (outcome 2%nat) as [m'|[] st' stt' j']; cbn -[OpenAIClient.transient];
    try destruct (OpenAIClient.transient st'); cbn; repeat constructor; try apply Hreq; lia.
Qed.

(** X16: without an API key [callOpenAI] sends nothing and throws
    "Missing OPENAI_API_KEY in environment"; otherwise an ok first response
    is returned after one request, and any other first outcome (even a
    non-transient error) is retried once, the second outcome deciding the
    result. *)
Theorem callOpenAI_attempts (apiKey env_timeout : option string) (parseInt : string -> option Z)
        (timeoutMs max_output_tokens : option jval) (outcome : nat -> OpenAIClient.attempt) :
  let '(rs, r) := OpenAIClient.callOpenAI apiKey env_timeout parseInt timeoutMs max_output_tokens outcome in
  if truthy (option_map JStr apiKey) then
    exists req,
      match outcome 1%nat with
      | OpenAIClient.Responded true _ _ j => rs = [req] /\ r = Ok (OpenAIClient.response_json j)
      | _ =>
          rs = [req; req] /\
          r = match outcome 2%nat with
              | OpenAIClient.Responded true _ _ j => Ok (OpenAIClient.response_json j)
              | OpenAIClient.Responded false status statusText j =>
                  Throw (OpenAIClient.http_error_message status statusText j)
              | OpenAIClient.FetchRejected msg => Throw msg
              end
      end
  else rs = [] /\ r = Throw "Missing OPENAI_API_KEY in environment".
Proof.
  unfold OpenAIClient.callOpenAI.
  destruct (truthy (option_map JStr apiKey)); simpl negb; cbv iota; [|split; reflexivity].
  cbv zeta.
  match goal with |- context [OpenAIClient.attempts_loop ?r _ _ _ _] => set (req := r) end.
  unfold OpenAIClient.attempts_loop, OpenAIClient.maxAttempts. cbn -[OpenAIClient.transient].
  destruct (outcome 1%nat) as [m|[] st stt j]; cbn -[OpenAIClient.transient];
    [|auto|destruct (OpenAIClient.transient st)]; cbn -[OpenAIClient.transient];
    destruct (outcome 2%nat) as [m'|[] st' stt' j']; cbn -[OpenAIClient.transient];
    try destruct (OpenAIClient.transient st'); cbn; exists req; split; reflexivity.
Qed.

Lemma llm_calls_app (l1 l2 : list effect) : llm_calls (app l1 l2) = (llm_calls l1 + llm_calls l2)%nat.
Proof. unfold llm_calls. rewrite filter_app, length_app. reflexivity. Qed.

Lemma llm_bounded_bind {S A B} (n k : nat) (m : M S A) (f : A -> M S B) :
  llm_bounded n m -> (forall a, llm_bounded k (f a)) -> llm_bounded (n + k) (bind m f).
Proof.
  intros Hm Hf s. rewrite effects_bind. specialize (Hm s).
  destruct (m s) as [[s1 e1] [a|msg]]; [|simpl in Hm |- *; lia].
  rewrite llm_calls_app. specialize (Hf a s1). simpl in Hm. lia.
Qed.

Lemma llm_bounded_weaken {S A} (n k : nat) (m : M S A) :
  (n <= k)%nat -> llm_bounded n m -> llm_bounded k m.
Proof. intros Hle Hm s. specialize (Hm s). lia. Qed.

Lemma llm_bounded_ret {S A} (n : nat) (a : A) : llm_bounded (S:=S) n (ret a).
Proof. intros s. simpl. unfold llm_calls. simpl. lia. Qed.

Lemma llm_bounded_throw {S A} (n : nat) (msg : string) : llm_bounded (S:=S) (A:=A) n (throw msg).
Proof. intros s. simpl. unfold llm_calls. simpl. lia. Qed.

Lemma llm_bounded_member {S} (n : nat) (o : option jval) (k : string) :
  llm_bounded (S:=S) n (member o k).
Proof. intros s. destruct o as [[]|]; simpl; unfold llm_calls; simpl; lia. Qed.

Lemma llm_bounded_db_read {A} (n : nat) (f : Firestore.db -> res A) : llm_bounded n (V7.db_read f).
Proof. intros s. simpl. unfold llm_calls. simpl. lia. Qed.

Lemma llm_bounded_db_write (n : nat) (f : Firestore.db -> res Firestore.db) :
  llm_bounded n (V7.db_write f).
Proof. intros s. unfold V7.db_write. destruct (f s); simpl; unfold llm_calls; simpl; lia. Qed.

Lemma llm_bounded_call_provider {S} (n : nat) (x : effect) (ok : bool) (result : jval) :
  is_llm_call x = false -> llm_bounded (S:=S) n (call_provider x ok result).
Proof. intros Hx s. simpl. unfold llm_calls. simpl. rewrite Hx. simpl. lia. Qed.

Lemma llm_bounded_catch {S A} (n k : nat) (m : M S A) (h : string -> M S A) :
  llm_bounded n m -> (forall msg, llm_bounded k (h msg)) -> llm_bounded (n + k) (catch m h).
Proof.
  intros Hm Hh s. unfold catch. specialize (Hm s).
  destruct (m s) as [[s1 e1] [a|msg]]; [simpl in Hm |- *; lia|].
  specialize (Hh msg s1). destruct (h msg s1) as [[s2 e2] r].
  simpl in Hm, Hh |- *. rewrite llm_calls_app. lia.
Qed.

Lemma llm_bounded_emit_call {S} (tls : list tool) : llm_bounded (S:=S) 1 (emit [ECallOpenAI tls]).
Proof. intros s. simpl. unfold llm_calls. simpl. lia. Qed.

Ltac llm0_step :=
  match goal with
  | |- llm_bounded 0 (bind _ _) => apply (llm_bounded_bind 0 0); [|intro]
  | |- llm_bounded 0 (catch _ _) => apply (llm_bounded_catch 0 0); [|intro]
  | |- llm_bounded _ (call_provider _ _ _) => apply llm_bounded_call_provider; reflexivity
  | |- llm_bounded _ (if ?b then _ else _) => destruct b
  | |- llm_bounded _ (match ?x with _ => _ end) => destruct x
  | |- llm_bounded _ _ => first [apply llm_bounded_ret | apply llm_bounded_throw
                               | apply llm_bounded_member | apply llm_bounded_db_read
                               | apply llm_bounded_db_write]
  end.

Lemma getGoogleAuthForUid_no_llm (uid : string) : llm_bounded 0 (V7.getGoogleAuthForUid uid).
Proof. unfold V7.getGoogleAuthForUid. repeat llm0_step. Qed.

Lemma executePendingAction_no_llm (e : env7) (uid c : string) :
  llm_bounded 0 (V7.executePendingAction e uid c).
Proof.
  unfold V7.executePendingAction.
  repeat (llm0_step || apply getGoogleAuthForUid_no_llm).
Qed.

Lemma dispatchToolCall_no_llm (e : env7) (uid : string) (name args : option jval) :
  llm_bounded 0 (V7.dispatchToolCall e uid name args).
Proof.
  unfold V7.dispatchToolCall, V7.store_pending.
  repeat (llm0_step || apply getGoogleAuthForUid_no_llm).
Qed.

Lemma tool_calls_of_no_llm (resp : jval) : llm_bounded 0 (V7.tool_calls_of resp).
Proof.
  unfold V7.tool_calls_of. destruct (js_or _ _) as [[| | | |l|]|]; try apply llm_bounded_throw;
    try apply llm_bounded_ret.
  induction l as [|item rest IH]; cbn [fold_right]; [apply llm_bounded_ret|].
  apply (llm_bounded_bind 0 0); [exact IH|intros tcs].
  apply (llm_bounded_bind 0 0); [apply llm_bounded_member|intros ty]. apply llm_bounded_ret.
Qed.

Lemma run_tool_calls_no_llm (e : env7) (uid : string) (tcs : list jval) :
  llm_bounded 0 (V7.run_tool_calls e uid tcs).
Proof.
  unfold V7.run_tool_calls.
  assert (Hgen : forall acc, llm_bounded 0 acc ->
            llm_bounded 0 (fold_left (fun acc tc =>
              let! _ := acc in
              let name := get (Some tc) "name" in
              let args := if truthy (get (Some tc) "arguments")
                          then V7.safeJsonParse e (default JNull (get (Some tc) "arguments"))
                          else Some (JObj []) in
              let! _result := catch (V7.dispatchToolCall e uid name args)
                                    (fun msg => ret (V7.err_obj "tool_error" msg)) in
              ret tt) tcs acc)).
  { induction tcs as [|tc rest IH]; intros acc Hacc; simpl; [exact Hacc|].
    apply IH. apply (llm_bounded_bind 0 0); [exact Hacc|intros _].
    apply (llm_bounded_bind 0 0); [|intros _; apply llm_bounded_ret].
    apply (llm_bounded_catch 0 0); [apply dispatchToolCall_no_llm|intros msg; apply llm_bounded_ret]. }
  apply Hgen, llm_bounded_ret.
Qed.

Lemma tool_loop_llm_bound (e : env7) (uid : string) (fuel step : nat) :
  llm_bounded fuel (V7.tool_loop e uid fuel step).
Proof.
  revert step. induction fuel as [|fuel IH]; intros step; cbn [V7.tool_loop]; [apply llm_bounded_ret|].
  apply (llm_bounded_bind 1 fuel); [apply llm_bounded_emit_call|intros _].
  destruct (nth_error (llm_steps e) step) as [[resp|]|]; try apply llm_bounded_throw.
  apply (llm_bounded_bind 0 fuel); [repeat llm0_step|intros assistantText].
  apply (llm_bounded_bind 0 fuel); [apply tool_calls_of_no_llm|intros toolCalls].
  destruct (_ && _); [apply llm_bounded_ret|].
  destruct (_ <? _)%nat; [|apply llm_bounded_ret].
  apply (llm_bounded_bind 0 fuel); [apply run_tool_calls_no_llm|intros _]. apply IH.
Qed.

(** X17: one v7 chat request calls the LLM at most five times. *)
Theorem v7_chat_at_most_five_llm_calls (d : Firestore.db) (body : option jval) (e : env7) :
  (llm_calls (effects_of (V7.chat d body e)) <= 5)%nat.
Proof.
  assert (Hrun : forall uid msg, llm_bounded 5 (V7.runChatWithTools e uid msg)).
  { intros uid msg. unfold V7.runChatWithTools.
    apply (llm_bounded_bind 0 5); [|intros early; destruct early; [apply llm_bounded_ret|apply tool_loop_llm_bound]].
    destruct (V7.normalizeConfirm msg); [|apply llm_bounded_ret].
    apply (llm_bounded_bind 0 0); [apply executePendingAction_no_llm|intros executed].
    repeat llm0_step. }
  unfold V7.chat.
  destruct (String.eqb _ ""); [simpl; unfold llm_calls; simpl; lia|].
  destruct (String.eqb _ ""); [simpl; unfold llm_calls; simpl; lia|].
  match goal with |- context [V7.runChatWithTools e ?u ?m d] =>
    specialize (Hrun u m d); destruct (V7.runChatWithTools e u m d) as [[d' es] [t|msg]] end;
    exact Hrun.
Qed.

Lemma ensures_bind {S A B} (P : A -> Prop) (Q : B -> Prop) (m : M S A) (k : A -> M S B) :
  ensures P m -> (forall a, P a -> ensures Q (k a)) -> ensures Q (bind m k).
Proof.
  intros Hm Hk s. unfold bind. specialize (Hm s).
  destruct (m s) as [[s1 e1] [a|msg]]; [|exact I].
  specialize (Hk a Hm s1). destruct (k a s1) as [[s2 e2] [b|msg]]; exact Hk.
Qed.

Lemma ensures_true {S A} (m : M S A) : ensures (fun _ => True) m.
Proof. intros s. destruct (m s) as [[s1 e1] [a|msg]]; exact I. Qed.

Lemma ensures_ret {S A} (Q : A -> Prop) (a : A) : Q a -> ensures (S:=S) Q (ret a).
Proof. intros H s. exact H. Qed.

Lemma ensures_throw {S A} (Q : A -> Prop) (msg : string) : ensures (S:=S) Q (throw msg).
Proof. intros s. exact I. Qed.

Lemma getGoogleAuthForUid_error (uid : string) : ensures auth_error_not_ok (V7.getGoogleAuthForUid uid).
Proof.
  unfold V7.getGoogleAuthForUid.
  apply (ensures_bind (fun _ => True)); [apply ensures_true|intros tokens _].
  destruct tokens; [destruct (truthy _)|]; apply ensures_ret; reflexivity.
Qed.

Lemma executePendingAction_message (e : env7) (uid c : string) :
  ensures ok_has_message (V7.executePendingAction e uid c).
Proof.
  unfold V7.executePendingAction.
  apply (ensures_bind (fun _ => True)); [apply ensures_true|intros pending _].
  destruct pending as [p|]; [|apply ensures_ret; discriminate].
  repeat first
    [ apply (ensures_bind auth_error_not_ok); [apply getGoogleAuthForUid_error|intros [err|auth] Herr; [|clear Herr]]
    | apply (ensures_bind (fun _ => True)); [apply ensures_true|intros ? _]
    | match goal with
      | |- ensures _ (if ?b then _ else _) => destruct b
      end ].
  all: apply ensures_ret; unfold ok_has_message, V7.ok_message; cbn [get obj_get];
       try (simpl in Herr; rewrite Herr; discriminate);
       simpl; try discriminate; intros _; apply app_nonempty; discriminate.
Qed.

Lemma tool_loop_nonempty (e : env7) (uid : string) (fuel step : nat) :
  ensures (fun t => t <> "") (V7.tool_loop e uid fuel step).
Proof.
  revert step. induction fuel as [|fuel IH]; intros step; cbn [V7.tool_loop].
  { apply ensures_ret. discriminate. }
  apply (ensures_bind (fun _ => True)); [apply ensures_true|intros _ _].
  destruct (nth_error (llm_steps e) step) as [[resp|]|]; try apply ensures_throw.
  apply (ensures_bind (fun _ => True)); [apply ensures_true|intros assistantText _].
  apply (ensures_bind (fun _ => True)); [apply ensures_true|intros toolCalls _].
  destruct (String.eqb_spec assistantText "") as [Ha|Ha]; simpl negb; cbv iota.
  - destruct (0 <? length toolCalls)%nat;
      [apply (ensures_bind (fun _ => True)); [apply ensures_true|intros _ _]; apply IH|].
    apply ensures_ret. discriminate.
  - destruct (length toolCalls =? 0)%nat; [apply ensures_ret; exact Ha|].
    destruct (0 <? length toolCalls)%nat;
      [apply (ensures_bind (fun _ => True)); [apply ensures_true|intros _ _]; apply IH|].
    apply ensures_ret. discriminate.
Qed.

(** X18: a successful v7 chat reply is never the empty string. *)
Theorem v7_chat_reply_nonempty (d : Firestore.db) (body : option jval) (e : env7) :
  match V7.chat d body e with
  | (_, _, RespOk text) => text <> ""
  | _ => True
  end.
Proof.
  assert (Hrun : forall uid msg, ensures (fun t => t <> "") (V7.runChatWithTools e uid msg)).
  { intros uid msg. unfold V7.runChatWithTools.
    apply (ensures_bind (fun early => forall t, early = Some t -> t <> ""));
      [|intros early Hearly; destruct early as [t|];
        [apply ensures_ret, Hearly; reflexivity|apply tool_loop_nonempty]].
    destruct (V7.normalizeConfirm msg) as [c|]; [|apply ensures_ret; discriminate].
    apply (ensures_bind ok_has_message); [apply executePendingAction_message|intros executed Hex].
    destruct (truthy (get executed "ok")) eqn:Hok.
    - apply ensures_ret. intros t Ht. injection Ht as <-. apply Hex, Hok.
    - destruct (match get executed "ok" with Some (JBool false) => true | _ => false end);
        apply ensures_ret; [|discriminate].
      intros t Ht. injection Ht as <-. apply app_nonempty. discriminate. }
  unfold V7.chat.
  destruct (String.eqb _ ""); [exact I|].
  destruct (String.eqb _ ""); [exact I|].
  match goal with |- context [V7.runChatWithTools e ?u ?m d] =>
    specialize (Hrun u m d); destruct (V7.runChatWithTools e u m d) as [[d' es] [t|msg]] end;
    [exact Hrun|exact I].
Qed.

Lemma getGoogleAuth_unauthorized (uid : string) (d : Firestore.db) (t : option jval) :
  UserStore.getProviderTokens d uid "google" = Ok t -> truthy (get t "refresh_token") = false ->
  V7.getGoogleAuthForUid uid d = (d, [], Ok (inl (V7.err_obj "unauthorized" "Google not connected."))).
Proof.
  intros Ht Hr. unfold V7.getGoogleAuthForUid, bind, V7.db_read. rewrite Ht.
  destruct t as [t|]; [|reflexivity]. cbv iota beta. rewrite Hr. reflexivity.
Qed.

Lemma getGoogleAuth_authorized (uid : string) (d : Firestore.db) (t : jval) :
  UserStore.getProviderTokens d uid "google" = Ok (Some t) -> truthy (get (Some t) "refresh_token") = true ->
  V7.getGoogleAuthForUid uid d = (d, [], Ok (inr t)).
Proof.
  intros Ht Hr. unfold V7.getGoogleAuthForUid, bind, V7.db_read. rewrite Ht.
  cbv iota beta. rewrite Hr. reflexivity.
Qed.

Lemma executePendingAction_unauthorized (e : env7) (uid c : string) (p : jval) (d : Firestore.db)
      (t : option jval) :
  UserStore.getPendingAction d uid = Ok (Some p) ->
  ChatView.v7_matches c (get (Some p) "type") = true ->
  UserStore.getProviderTokens d uid "google" = Ok t -> truthy (get t "refresh_token") = false ->
  V7.executePendingAction e uid c d =
    (d, [], Ok (Some (V7.err_obj "unauthorized" "Google not connected."))).
Proof.
  intros Hp Hm Ht Hr. pose proof (getGoogleAuth_unauthorized uid d t Ht Hr) as Hg.
  unfold V7.executePendingAction. unfold bind at 1, V7.db_read. rewrite Hp. cbv iota beta.
  unfold ChatView.v7_matches in Hm.
  destruct (String.eqb c "send" && is_str (get (Some p) "type") "send_email");
    [unfold bind at 1; rewrite Hg; reflexivity|].
  destruct (String.eqb c "create" && is_str (get (Some p) "type") "create_calendar_event");
    [unfold bind at 1; rewrite Hg; reflexivity|].
  destruct (String.eqb c "delete" && is_str (get (Some p) "type") "delete_calendar_event");
    [unfold bind at 1; rewrite Hg; reflexivity|discriminate].
Qed.

(** X19: a v7 confirmation matching the pending action, for a user whose
    Google credential has no refresh token, answers
    "Error: unauthorized" / "Google not connected." with no effect and no
    write. *)
Theorem v7_confirm_unauthorized (e : env7) (uid msg c : string) (p : jval) (d : Firestore.db)
        (t : option jval) :
  V7.normalizeConfirm msg = Some c ->
  UserStore.getPendingAction d uid = Ok (Some p) ->
  ChatView.v7_matches c (get (Some p) "type") = true ->
  UserStore.getProviderTokens d uid "google" = Ok t -> truthy (get t "refresh_token") = false ->
  V7.runChatWithTools e uid msg d =
    (d, [], Ok ("Error: unauthorized" ++ nl ++ "Google not connected.")).
Proof.
  intros Hc Hp Hm Ht Hr. unfold V7.runChatWithTools. rewrite Hc. cbv iota.
  unfold bind at 1. unfold bind at 1. rewrite (executePendingAction_unauthorized e uid c p d t Hp Hm Ht Hr).
  reflexivity.
Qed.

(** X20: confirming a pending calendar deletion whose payload has no
    eventId makes no provider call, answers "Error: missing_eventId" and
    clears the pending action. *)
Theorem v7_delete_missing_eventId (e : env7) (uid msg : string) (p t : jval) (d : Firestore.db) :
  V7.normalizeConfirm msg = Some "delete" ->
  UserStore.getPendingAction d uid = Ok (Some p) ->
  is_str (get (Some p) "type") "delete_calendar_event" = true ->
  UserStore.getProviderTokens d uid "google" = Ok (Some t) ->
  truthy (get (Some t) "refresh_token") = true ->
  truthy (get (js_or (get (Some p) "payload") (Some (JObj []))) "eventId") = false ->
  exists d', V7.runChatWithTools e uid msg d = (d', [], Ok "Error: missing_eventId") /\
             UserStore.getPendingAction d' uid = Ok None.
Proof.
  intros Hc Hp Hty Ht Hr Hev.
  destruct (getPendingAction_uid d uid _ Hp) as (pu & Hpu).
  destruct (clearPendingAction_ok d uid (now7 e) pu Hpu) as (d' & Hd' & Hnone).
  exists d'. split; [|exact Hnone].
  unfold V7.runChatWithTools. rewrite Hc. cbv iota.
  unfold bind at 1. unfold bind at 1. unfold V7.executePendingAction.
  unfold bind at 1, V7.db_read. rewrite Hp. cbv iota beta.
  change (String.eqb "delete" "send") with false. change (String.eqb "delete" "create") with false.
  change (String.eqb "delete" "delete") with true. cbn [andb]. rewrite Hty.
  unfold bind at 1. rewrite (getGoogleAuth_authorized uid d t Ht Hr). cbv iota beta.
  rewrite Hev. cbn [negb]. cbv iota beta.
  unfold bind at 1, V7.db_write. cbv beta. rewrite Hd'. reflexivity.
Qed.

Lemma normalize_ignores_padding_witness :
  Server.normalizeCommand (string_of_list_ascii (concat (map utf8 [160%N])) ++ "Send it" ++
                           string_of_list_ascii (concat (map utf8 [12288%N; 32%N])))
    = Server.normalizeCommand "Send it" /\
  V7.normalizeConfirm (string_of_list_ascii (concat (map utf8 [160%N])) ++ "Send it" ++
                       string_of_list_ascii (concat (map utf8 [12288%N; 32%N])))
    = V7.normalizeConfirm "Send it".
Proof.
  apply normalize_ignores_padding; repeat apply Forall_cons; try apply Forall_nil;
    simpl; repeat (first [left; reflexivity | right]).
Defined.

Lemma normalizeCommand_trailing_punct_witness :
  Server.normalizeCommand ("Send it" ++ "!?") = "send it" <-> Server.normalizeCommand "Send it" = "send it".
Proof.
  apply normalizeCommand_trailing_punct; [|repeat constructor|simpl; tauto].
  intros w cp Hcp E. apply (f_equal (fun x => rev (list_ascii_of_string x))) in E.
  rewrite list_ascii_app, list_ascii_of_string_of_list_ascii, rev_app_distr in E.
  simpl in Hcp. repeat (destruct Hcp as [<-|Hcp]; [vm_compute in E; discriminate E|]). destruct Hcp.
Defined.

Lemma normalizeConfirm_trailing_punct_witness : V7.normalizeConfirm ("Delete it" ++ ".") = None.
Proof. apply normalizeConfirm_trailing_punct; [discriminate|repeat constructor]. Defined.

Lemma userStore_clearProviderTokens_keeps_witness :
  exists d', UserStore.clearProviderTokens Scenarios.two_providers_db "u1" "google" 5 = Ok d' /\
    UserStore.getProviderTokens d' "u1" "google" = UserStore.getProviderTokens Scenarios.two_providers_db "u1" "google".
Proof.
  apply (userStore_clearProviderTokens_keeps Scenarios.two_providers_db "u1" "google" "microsoft" 5
           ["users"; "u1"]
           [("tokens", JObj [("google", Scenarios.google_cred);
                             ("microsoft", JObj [("access_token", JStr "m")])])]
           [("google", Scenarios.google_cred); ("microsoft", JObj [("access_token", JStr "m")])]);
    [reflexivity|reflexivity|reflexivity|reflexivity|simpl; tauto|discriminate].
Defined.

Lemma userStore_clearPendingAction_clears_witness :
  (match UserStore.clearPendingAction Scenarios.connected_db "a/b" 5 with
   | Ok d' => UserStore.getPendingAction d' "a/b" = Ok None
   | Throw m => UserStore.userDoc "a/b" = Throw m
   end /\
   (Firestore.valid_id "a/b" = true ->
    exists d', UserStore.clearPendingAction Scenarios.connected_db "a/b" 5 = Ok d')) /\
  exists d', UserStore.clearPendingAction Scenarios.connected_db "u1" 5 = Ok d'.
Proof.
  split; [apply userStore_clearPendingAction_clears|].
  apply (proj2 (userStore_clearPendingAction_clears Scenarios.connected_db "u1" 5)). reflexivity.
Defined.

Lemma tokenStore_lookup_frame_witness :
  (forall d1, TokenStore.setPendingAction Scenarios.tokens_db "u1" (JObj []) = Ok d1 ->
     TokenStore.getUserProviderTokens d1 "u1" "google"
       = TokenStore.getUserProviderTokens Scenarios.tokens_db "u1" "google") /\
  (forall d1, TokenStore.clearPendingAction Scenarios.tokens_db "u1" = Ok d1 ->
     TokenStore.getUserProviderTokens d1 "u1" "google"
       = TokenStore.getUserProviderTokens Scenarios.tokens_db "u1" "google") /\
  (Firestore.valid_id "u1" = true -> Firestore.valid_id "microsoft" = true ->
   ("u1", "google") <> ("u1", "microsoft") ->
   forall d1, TokenStore.setUserProviderTokens Scenarios.tokens_db "u1" "microsoft" (JObj []) = Ok d1 ->
     TokenStore.getUserProviderTokens d1 "u1" "google"
       = TokenStore.getUserProviderTokens Scenarios.tokens_db "u1" "google").
Proof.
  apply (tokenStore_lookup_frame Scenarios.tokens_db "u1" "microsoft" "u1" "google" (JObj []) (JObj []));
    reflexivity.
Defined.

Lemma v7_confirm_unauthorized_witness :
  V7.runChatWithTools Scenarios.env7_0 "u1" "Send it" Scenarios.unauthorized_db =
    (Scenarios.unauthorized_db, [], Ok ("Error: unauthorized" ++ nl ++ "Google not connected.")).
Proof.
  apply (v7_confirm_unauthorized _ _ _ "send"
           (JObj [("type", JStr "send_email"); ("payload", Scenarios.email_payload)]) _
           (Some (JObj [("access_token", JStr "tok")]))); vm_compute; reflexivity.
Defined.

Lemma v7_delete_missing_eventId_witness :
  exists d', V7.runChatWithTools Scenarios.env7_0 "u1" "delete" Scenarios.delete_db
               = (d', [], Ok "Error: missing_eventId") /\
             UserStore.getPendingAction d' "u1" = Ok None.
Proof.
  apply (v7_delete_missing_eventId _ _ _
           (JObj [("type", JStr "delete_calendar_event"); ("payload", JObj [])])
           Scenarios.google_cred); vm_compute; reflexivity.
Defined.

Lemma getGoogleAuth_throw (uid : string) (d : Firestore.db) (m : string) :
  UserStore.getProviderTokens d uid "google" = Throw m ->
  V7.getGoogleAuthForUid uid d = (d, [], Throw m).
Proof. intros Ht. unfold V7.getGoogleAuthForUid, bind, V7.db_read. rewrite Ht. reflexivity. Qed.

(** X21: every v7 tool, including [draft_email] and unknown names, first
    requires a Google credential with a refresh token: when the credential
    lookup finds none, the dispatcher returns the unauthorized error, with
    no effect and no write; when the lookup itself throws (a uid that is
    not a valid document id, such as 'a/b'), the dispatcher throws the same
    error, with no effect and no write. *)
Theorem dispatchToolCall_requires_google (e : env7) (uid : string) (name args : option jval)
        (d : Firestore.db) :
  (forall t, UserStore.getProviderTokens d uid "google" = Ok t ->
     truthy (get t "refresh_token") = false ->
     V7.dispatchToolCall e uid name args d =
       (d, [], Ok (V7.err_obj "unauthorized" "Google not connected."))) /\
  (forall m, UserStore.getProviderTokens d uid "google" = Throw m ->
     V7.dispatchToolCall e uid name args d = (d, [], Throw m)).
Proof.
  split.
  - intros t Ht Hr. unfold V7.dispatchToolCall, bind at 1.
    rewrite (getGoogleAuth_unauthorized uid d t Ht Hr). reflexivity.
  - intros m Hm. unfold V7.dispatchToolCall, bind at 1.
    rewrite (getGoogleAuth_throw uid d m Hm). reflexivity.
Qed.

Lemma dispatchToolCall_requires_google_witness :
  V7.dispatchToolCall Scenarios.env7_0 "u1" (Some (JStr "draft_email")) (Some (JObj [])) Scenarios.unauthorized_db =
    (Scenarios.unauthorized_db, [], Ok (V7.err_obj "unauthorized" "Google not connected.")) /\
  exists m, UserStore.getProviderTokens Scenarios.connected_db "a/b" "google" = Throw m /\
    V7.dispatchToolCall Scenarios.env7_0 "a/b" (Some (JStr "draft_email")) (Some (JObj []))
      Scenarios.connected_db = (Scenarios.connected_db, [], Throw m).
Proof.
  split.
  - apply (proj1 (dispatchToolCall_requires_google _ _ _ _ _)
             (Some (JObj [("access_token", JStr "tok")]))); vm_compute; reflexivity.
  - eexists. split; [reflexivity|].
    apply (proj2 (dispatchToolCall_requires_google _ _ _ _ _)). reflexivity.
Defined.
